(** * planetscale-go: deploy requests and branch passwords

    A shallow embedding of [planetscale/deploy_requests.go] together with
    the parts of the Go standard library it leans on ([fmt.Sprintf],
    [encoding/json], [time]), and the properties of the client surface
    proved over it.

    Conventions.
    - A Go [string] is a Rocq [string] (a sequence of bytes).
    - A [uint64] is an [N]; the only place where the width matters is the
      JSON decoder, which rejects literals outside [0, 2^64).
    - A Go pointer or slice that may be [nil] is an [option]; a Go result
      pair [(v, err)] is a pair of options, so that "which of the two is
      nil" is a statement about the model and not a property of its type.
    - Calls into the HTTP client (the external collaborator of the
      services) are the events of a small free monad; a run against an
      arbitrary client yields the returned pair and the trace of calls. *)

From Stdlib Require Import String Ascii List NArith ZArith Bool Lia.
Import ListNotations.

Local Open Scope string_scope.
Local Open Scope list_scope.

Set Implicit Arguments.

(* ===================================================================== *)
(** ** fmt: the two verbs used by the path builders                       *)
(* ===================================================================== *)

Module fmt.

(** An operand of [Sprintf]: the path builders pass strings and one
    [uint64]. *)
Inductive arg : Type :=
| Str (s : string)
| Uint (n : N).

Definition digit (d : N) : ascii := ascii_of_N (48 + d).

(** [fmtInteger] for base 10, unsigned, no flags: the digits are written
    from the least significant one, in front of what is already there.
    [[
      for u >= 10 { i--; next := u / 10; buf[i] = byte('0' + u - next*10); u = next }
      i--; buf[i] = byte('0' + u)
    ]]
    The loop runs once per digit; the fuel stands for the buffer width. *)
Fixpoint fmtDigits (fuel : nat) (u : N) (buf : string) : string :=
  match fuel with
  | O => buf
  | S fuel' =>
      if (10 <=? u)%N
      then fmtDigits fuel' (u / 10)%N (String (digit (u mod 10)%N) buf)
      else String (digit u) buf
  end.

Definition fmtInteger (u : N) : string :=
  fmtDigits (S (N.to_nat (N.log2 u))) u "".

(** What Go prints for an operand under a verb. A verb that does not fit
    its operand prints Go's bad-verb marker; the path builders never get
    there. *)
Definition printArg (verb : ascii) (a : arg) : string :=
  match verb, a with
  | "s"%char, Str s => s
  | "d"%char, Uint n => fmtInteger n
  | "v"%char, Str s => s
  | "v"%char, Uint n => fmtInteger n
  | _, Str s => "%!" ++ String verb ("(string=" ++ s ++ ")")
  | _, Uint n => "%!" ++ String verb ("(uint64=" ++ fmtInteger n ++ ")")
  end.

(** [Sprintf format a...]: literal bytes are copied, [%%] prints a
    percent sign, any other verb consumes the next operand. *)
Fixpoint Sprintf (format : string) (a : list arg) : string :=
  match format with
  | EmptyString =>
      match a with
      | [] => ""
      | _ :: _ => "%!(EXTRA)"
      end
  | String "%"%char EmptyString => "%!(NOVERB)"
  | String "%"%char (String "%"%char rest) => String "%"%char (Sprintf rest a)
  | String "%"%char (String verb rest) =>
      match a with
      | [] => "%!" ++ String verb ("(MISSING)" ++ Sprintf rest [])
      | x :: a' => printArg verb x ++ Sprintf rest a'
      end
  | String c rest => String c (Sprintf rest a)
  end.

(** The value of a string of decimal digits, [None] when a byte is not
    a digit. Used to say what "the decimal string of n" means. *)
Definition digitValue (c : ascii) : option N :=
  let k := N_of_ascii c in
  if ((48 <=? k) && (k <=? 57))%N then Some (k - 48)%N else None.

Fixpoint decimalValueFrom (acc : N) (s : string) : option N :=
  match s with
  | EmptyString => Some acc
  | String c rest =>
      match digitValue c with
      | Some d => decimalValueFrom (10 * acc + d)%N rest
      | None => None
      end
  end.

Definition decimalValue (s : string) : option N :=
  match s with
  | EmptyString => None
  | _ => decimalValueFrom 0 s
  end.

(** [s] is the decimal string of [n]: digits whose value is [n], with no
    leading zero unless [s] is the single digit of zero. *)
Definition decimalOf (n : N) (s : string) : Prop :=
  decimalValue s = Some n /\
  (s = "0" \/ exists c rest, s = String c rest /\ c <> "0"%char).

End fmt.

(* ===================================================================== *)
(** ** Byte-string helpers                                                *)
(* ===================================================================== *)

Module bytes.

Definition isDigit (c : ascii) : bool :=
  let k := N_of_ascii c in ((48 <=? k) && (k <=? 57))%N.

(** [s[i:j]] for [i <= j <= len(s)]. *)
Definition slice (s : string) (i j : nat) : string := substring i (j - i) s.

(** [s[i:]]. *)
Fixpoint drop (i : nat) (s : string) : string :=
  match i, s with
  | O, _ => s
  | S i', String _ rest => drop i' rest
  | S _, EmptyString => EmptyString
  end.

Definition at_ (s : string) (i : nat) (c : ascii) : bool :=
  match String.get i s with
  | Some c' => Ascii.eqb c c'
  | None => false
  end.

(** The leading run of decimal digits and what follows it. *)
Fixpoint spanDigits (s : string) : string * string :=
  match s with
  | String c rest =>
      if isDigit c
      then let '(ds, tl) := spanDigits rest in (String c ds, tl)
      else (EmptyString, s)
  | EmptyString => (EmptyString, EmptyString)
  end.

End bytes.

(* ===================================================================== *)
(** ** time: instants, [Date] and the RFC 3339 reader of [UnmarshalJSON]  *)
(* ===================================================================== *)

Module time.

Local Open Scope Z_scope.

(** Where a [Time] is displayed. [Local] is the zone of the process. *)
Inductive Location : Type :=
| UTC
| Local
| FixedZone (name : string) (offset : Z).

(** An instant: seconds and nanoseconds since the Unix epoch, and the
    location it carries. Two [Time]s built by [Date] or by parsing are
    deeply equal exactly when these three agree. *)
Record Time : Type := mkTime {
  unixSec : Z;
  nsec : Z;
  loc : Location
}.

Definition isLeap (year : Z) : bool :=
  (year mod 4 =? 0) && (negb (year mod 100 =? 0) || (year mod 400 =? 0)).

(** Days in the months before [month] (1..12) of a common year. *)
Definition daysBefore (month : Z) : Z :=
  match month with
  | 1 => 0 | 2 => 31 | 3 => 59 | 4 => 90 | 5 => 120 | 6 => 151
  | 7 => 181 | 8 => 212 | 9 => 243 | 10 => 273 | 11 => 304 | 12 => 334
  | _ => 365
  end.

Definition daysIn (month year : Z) : Z :=
  if (month =? 2) && isLeap year then 29
  else daysBefore (month + 1) - daysBefore month.

(** Days from January 1 of year 1 to January 1 of [year] in the
    proleptic Gregorian calendar. *)
Definition daysSinceYear1 (year : Z) : Z :=
  let y := year - 1 in
  365 * y + y / 4 - y / 100 + y / 400.

(** Seconds from January 1, year 1 to the Unix epoch. *)
Definition unixToInternal : Z :=
  (1969 * 365 + 1969 / 4 - 1969 / 100 + 1969 / 400) * 86400.

(** [norm hi lo base]: carry [lo] into [hi] so that [0 <= lo < base]. *)
Definition norm (hi lo base : Z) : Z * Z := (hi + lo / base, lo mod base).

(** [Date(year, month, day, hour, min, sec, nsec, UTC)]. Out-of-range
    month, hour, minute, second and nanosecond values are normalised,
    the day is added as it is. *)
Definition Date (year month day hour min sec nsec : Z) : Time :=
  let '(year, m) := norm year (month - 1) 12 in
  let month := m + 1 in
  let '(sec, nsec) := norm sec nsec 1000000000 in
  let '(min, sec) := norm min sec 60 in
  let '(hour, min) := norm hour min 60 in
  let '(day, hour) := norm day hour 24 in
  let d := daysSinceYear1 year + daysBefore month
           + (if isLeap year && (3 <=? month) then 1 else 0)
           + (day - 1) in
  let abs := d * 86400 + hour * 3600 + min * 60 + sec in
  mkTime (abs - unixToInternal) nsec UTC.

(** The zero [Time]: January 1, year 1, 00:00:00 UTC. *)
Definition zero : Time := mkTime (- unixToInternal) 0 UTC.

(** The closure [parseUint] of the RFC 3339 reader: all bytes digits and
    the value within [min, max]. *)
Fixpoint atoiFrom (acc : Z) (s : string) : option Z :=
  match s with
  | EmptyString => Some acc
  | String c rest =>
      if bytes.isDigit c
      then atoiFrom (10 * acc + (Z.of_N (N_of_ascii c) - 48)) rest
      else None
  end.

Definition parseUint (s : string) (min max : Z) : option Z :=
  match atoiFrom 0 s with
  | Some x => if (min <=? x) && (x <=? max) then Some x else None
  | None => None
  end.

(** [parseNanoseconds]: [digits] are the digits after the period; at
    most nine count, and they are scaled to nanoseconds. *)
Definition parseNanoseconds (digits : string) : Z :=
  let ds := bytes.slice digits 0 (Nat.min 9 (String.length digits)) in
  match atoiFrom 0 ds with
  | Some n => n * 10 ^ (9 - Z.of_nat (String.length ds))
  | None => 0
  end.

(** [parseRFC3339(s, Local)]. [localOffset] gives the offset of the
    process's zone at a Unix time: an instant written with that offset
    is given the [Local] location, any other the fixed zone. *)
Definition parseRFC3339 (localOffset : Z -> Z) (s : string) : option Time :=
  if (String.length s <? 19)%nat then None else
  match parseUint (bytes.slice s 0 4) 0 9999,
        parseUint (bytes.slice s 5 7) 1 12 with
  | Some year, Some month =>
      match parseUint (bytes.slice s 8 10) 1 (daysIn month year),
            parseUint (bytes.slice s 11 13) 0 23,
            parseUint (bytes.slice s 14 16) 0 59,
            parseUint (bytes.slice s 17 19) 0 59 with
      | Some day, Some hour, Some min, Some sec =>
          if negb (bytes.at_ s 4 "-" && bytes.at_ s 7 "-" && bytes.at_ s 10 "T"
                   && bytes.at_ s 13 ":" && bytes.at_ s 16 ":")
          then None else
          let s1 := bytes.drop 19 s in
          let '(nsec, s2) :=
            match s1 with
            | String "."%char (String c rest) =>
                if bytes.isDigit c
                then let '(ds, tl) := bytes.spanDigits (String c rest) in
                     (parseNanoseconds ds, tl)
                else (0, s1)
            | _ => (0, s1)
            end in
          let t := Date year month day hour min sec nsec in
          match s2 with
          | String "Z"%char EmptyString => Some t
          | _ =>
              if negb (String.length s2 =? 6)%nat then None else
              match parseUint (bytes.slice s2 1 3) 0 23,
                    parseUint (bytes.slice s2 4 6) 0 59 with
              | Some hr, Some mm =>
                  if negb ((bytes.at_ s2 0 "-" || bytes.at_ s2 0 "+")
                           && bytes.at_ s2 3 ":")
                  then None else
                  let zoneOffset :=
                    if bytes.at_ s2 0 "-" then - ((hr * 60 + mm) * 60)
                    else (hr * 60 + mm) * 60 in
                  let u := unixSec t - zoneOffset in
                  Some (mkTime u (time.nsec t)
                          (if localOffset u =? zoneOffset then Local
                           else FixedZone "" zoneOffset))
              | _, _ => None
              end
          end
      | _, _, _, _ => None
      end
  | _, _ => None
  end.

End time.

(* ===================================================================== *)
(** ** errors: the values of Go's [error] interface that occur here       *)
(* ===================================================================== *)

Module errors.

(** A non-nil [error]. The leaves are the errors of the standard
    library that the decoder can produce and [New] for every other
    error (the client's among them); [withMessage] is what
    [github.com/pkg/errors.Wrap] builds around a cause. *)
Inductive error : Type :=
| New (msg : string)
| EOF
| ErrUnexpectedEOF
| SyntaxError
| UnmarshalTypeError (Value : string) (Type_ : string)
| ParseError (layout : string) (value : string)
| withMessage (cause : error) (msg : string).

(** [errors.Wrap(err, message)]: nil for a nil [err]. *)
Definition Wrap (err : option error) (message : string) : option error :=
  match err with
  | None => None
  | Some e => Some (withMessage e message)
  end.

(** [errors.Cause(err)]: the innermost error of a chain of wraps. *)
Fixpoint Cause (err : error) : error :=
  match err with
  | withMessage cause _ => Cause cause
  | _ => err
  end.

(** The number of wraps around the cause. *)
Fixpoint depth (err : error) : nat :=
  match err with
  | withMessage cause _ => S (depth cause)
  | _ => O
  end.

End errors.

(* ===================================================================== *)
(** ** utf8 and utf16: what the JSON string reader needs                  *)
(* ===================================================================== *)

Module utf8.

Local Open Scope N_scope.

Definition byte (n : N) : ascii := ascii_of_N n.

(** U+FFFD, the replacement character, encoded. *)
Definition RuneError : string :=
  String (byte 239) (String (byte 191) (String (byte 189) EmptyString)).

(** [EncodeRune]; surrogates and values above U+10FFFF are encoded as
    U+FFFD. *)
Definition EncodeRune (r : N) : string :=
  if r <? 128 then String (byte r) EmptyString
  else if r <? 2048 then
    String (byte (192 + r / 64)) (String (byte (128 + r mod 64)) EmptyString)
  else if ((55296 <=? r) && (r <=? 57343)) || (1114111 <? r) then RuneError
  else if r <? 65536 then
    String (byte (224 + r / 4096))
      (String (byte (128 + (r / 64) mod 64))
         (String (byte (128 + r mod 64)) EmptyString))
  else
    String (byte (240 + r / 262144))
      (String (byte (128 + (r / 4096) mod 64))
         (String (byte (128 + (r / 64) mod 64))
            (String (byte (128 + r mod 64)) EmptyString))).

Definition inRange (lo hi : N) (c : ascii) : bool :=
  let k := N_of_ascii c in (lo <=? k) && (k <=? hi).

Definition cont (c : ascii) : bool := inRange 128 191 c.

(** The width of the well-formed encoding at the head of [s], or [0]
    when the head is not one ([DecodeRune] then answers
    [(RuneError, 1)]). The second byte's range depends on the first,
    as in the table of accepted ranges of [unicode/utf8]. *)
Definition validLen (s : string) : nat :=
  match s with
  | EmptyString => 0%nat
  | String c0 rest =>
      let k := N_of_ascii c0 in
      if k <? 128 then 1%nat
      else if (194 <=? k) && (k <=? 223) then
        match rest with
        | String c1 _ => if cont c1 then 2%nat else 0%nat
        | _ => 0%nat
        end
      else if (224 <=? k) && (k <=? 239) then
        match rest with
        | String c1 (String c2 _) =>
            let lo := if k =? 224 then 160 else 128 in
            let hi := if k =? 237 then 159 else 191 in
            if inRange lo hi c1 && cont c2 then 3%nat else 0%nat
        | _ => 0%nat
        end
      else if (240 <=? k) && (k <=? 244) then
        match rest with
        | String c1 (String c2 (String c3 _)) =>
            let lo := if k =? 240 then 144 else 128 in
            let hi := if k =? 244 then 143 else 191 in
            if inRange lo hi c1 && cont c2 && cont c3 then 4%nat else 0%nat
        | _ => 0%nat
        end
      else 0%nat
  end.

End utf8.

(* ===================================================================== *)
(** ** encoding/json: reading one value from a response body              *)
(* ===================================================================== *)

Module json.

Import errors.

(** A scanned JSON value. String literals and member names keep the raw
    bytes between their quotes: [time.Time] reads the raw bytes, every
    other target reads them through [unquote]. Numbers keep their
    literal. *)
#[local] Set Warnings "-register-all".
Inductive value : Type :=
| Null
| Bool (b : bool)
| Number (lit : string)
| Str (raw : string)
| Array (elems : list value)
| Object (members : list (string * value)).
#[local] Set Warnings "register-all".

(** The outcome of scanning a prefix of the input. *)
Inductive scan (A : Type) : Type :=
| Ok (a : A) (rest : string)
| Eof                         (* the input ended inside a value *)
| Invalid                     (* a byte that cannot continue the value *)
| OutOfFuel.                  (* not met from [readValue]: [readValue_fuel] *)
Arguments Eof {A}.
Arguments Invalid {A}.
Arguments OutOfFuel {A}.

Definition mapScan {A B} (f : A -> B) (r : scan A) : scan B :=
  match r with
  | Ok a rest => Ok (f a) rest
  | Eof => Eof
  | Invalid => Invalid
  | OutOfFuel => OutOfFuel
  end.

Definition isSpace (c : ascii) : bool :=
  match c with
  | " "%char | "009"%char | "010"%char | "013"%char => true
  | _ => false
  end.

Fixpoint skipSpace (s : string) : string :=
  match s with
  | String c rest => if isSpace c then skipSpace rest else s
  | EmptyString => s
  end.

Definition isHex (c : ascii) : bool :=
  bytes.isDigit c || utf8.inRange 97 102 c || utf8.inRange 65 70 c.

(** *** String literals *)

Inductive stringState : Type :=
| InString                    (* stateInString *)
| InStringEsc                 (* stateInStringEsc *)
| InStringEscU (more : nat).  (* stateInStringEscU, ...U1, ...U12, ...U123 *)

(** The bytes that may follow a backslash, [u] apart. *)
Definition isEscape (c : ascii) : bool :=
  existsb (Ascii.eqb c)
    ["b"; "f"; "n"; "r"; "t"; "\"; "/"; "034"]%char.

(** Scans from just after the opening quote to the closing one and
    yields the raw bytes in between. *)
Fixpoint scanString (st : stringState) (s : string) : scan string :=
  match s with
  | EmptyString => Eof
  | String c rest =>
      match st with
      | InString =>
          if Ascii.eqb c "034"%char then Ok EmptyString rest
          else if Ascii.eqb c "\"%char
               then mapScan (String c) (scanString InStringEsc rest)
          else if (N_of_ascii c <? 32)%N then Invalid
          else mapScan (String c) (scanString InString rest)
      | InStringEsc =>
          if isEscape c then mapScan (String c) (scanString InString rest)
          else if Ascii.eqb c "u"%char
               then mapScan (String c) (scanString (InStringEscU 3) rest)
          else Invalid
      | InStringEscU more =>
          if isHex c
          then mapScan (String c)
                 (scanString (match more with
                              | O => InString
                              | S m => InStringEscU m
                              end) rest)
          else Invalid
      end
  end.

(** The raw bytes of a string literal, read from a state of the
    scanner: no quote, no control byte, a letter or four hexadecimal
    digits after every backslash. *)
Fixpoint escaped (st : stringState) (raw : string) : bool :=
  match raw with
  | EmptyString =>
      match st with
      | InString => true
      | _ => false
      end
  | String c r =>
      match st with
      | InString =>
          if Ascii.eqb c "034" then false
          else if Ascii.eqb c "\" then escaped InStringEsc r
          else if (N_of_ascii c <? 32)%N then false
          else escaped InString r
      | InStringEsc =>
          if isEscape c then escaped InString r
          else if Ascii.eqb c "u" then escaped (InStringEscU 3) r
          else false
      | InStringEscU more =>
          isHex c && escaped (match more with
                              | O => InString
                              | S m => InStringEscU m
                              end) r
      end
  end.

(** *** Number literals *)

Inductive numberState : Type :=
| Neg | Zero | Int | Dot | Frac | Exp | ExpSign | ExpDigits.
(* stateNeg, state0, state1, stateDot, stateDot0, stateE, stateESign, stateE0 *)

Definition isExpChar (c : ascii) : bool :=
  Ascii.eqb c "e"%char || Ascii.eqb c "E"%char.

Definition numberStep (st : numberState) (c : ascii) : option numberState :=
  match st with
  | Neg => if Ascii.eqb c "0"%char then Some Zero
           else if bytes.isDigit c then Some Int else None
  | Zero => if Ascii.eqb c "."%char then Some Dot
            else if isExpChar c then Some Exp else None
  | Int => if bytes.isDigit c then Some Int
           else if Ascii.eqb c "."%char then Some Dot
           else if isExpChar c then Some Exp else None
  | Dot => if bytes.isDigit c then Some Frac else None
  | Frac => if bytes.isDigit c then Some Frac
            else if isExpChar c then Some Exp else None
  | Exp => if Ascii.eqb c "+"%char || Ascii.eqb c "-"%char then Some ExpSign
           else if bytes.isDigit c then Some ExpDigits else None
  | ExpSign => if bytes.isDigit c then Some ExpDigits else None
  | ExpDigits => if bytes.isDigit c then Some ExpDigits else None
  end.

(** The states in which the literal read so far is a number. *)
Definition numberDone (st : numberState) : bool :=
  match st with
  | Zero | Int | Frac | ExpDigits => true
  | Neg | Dot | Exp | ExpSign => false
  end.

(** Scans the rest of a number literal; the byte that ends it stays in
    the input. *)
Fixpoint scanNumber (st : numberState) (s : string) : scan string :=
  match s with
  | EmptyString => if numberDone st then Ok EmptyString EmptyString else Eof
  | String c rest =>
      match numberStep st c with
      | Some st' => mapScan (String c) (scanNumber st' rest)
      | None => if numberDone st then Ok EmptyString s else Invalid
      end
  end.

(** *** [true], [false], [null] *)

Fixpoint scanLiteral (expect : string) (s : string) : scan unit :=
  match expect with
  | EmptyString => Ok tt s
  | String e expect' =>
      match s with
      | EmptyString => Eof
      | String c rest =>
          if Ascii.eqb c e then scanLiteral expect' rest else Invalid
      end
  end.

(** *** Values *)

(** [after c s]: what follows the byte [c] at the head of [s]. *)
Definition after (c : ascii) (s : string) : option string :=
  match s with
  | String c' tl => if Ascii.eqb c' c then Some tl else None
  | EmptyString => None
  end.

(** [scanValue] reads one value after optional white space;
    [scanElements] reads from an element to the closing bracket,
    [scanMembers] from a member name to the closing brace. The fuel
    bounds the depth of the calls. *)
Fixpoint scanValue (fuel : nat) (s : string) : scan value :=
  match fuel with
  | O => OutOfFuel
  | S fuel' =>
      match skipSpace s with
      | EmptyString => Eof
      | String c rest =>
          if Ascii.eqb c "{"%char then
            match after "}"%char (skipSpace rest) with
            | Some rest' => Ok (Object []) rest'
            | None => mapScan Object (scanMembers fuel' rest)
            end
          else if Ascii.eqb c "["%char then
            match after "]"%char (skipSpace rest) with
            | Some rest' => Ok (Array []) rest'
            | None => mapScan Array (scanElements fuel' rest)
            end
          else if Ascii.eqb c "034"%char then
            mapScan Str (scanString InString rest)
          else if Ascii.eqb c "-"%char then
            mapScan (fun l => Number (String c l)) (scanNumber Neg rest)
          else if Ascii.eqb c "0"%char then
            mapScan (fun l => Number (String c l)) (scanNumber Zero rest)
          else if Ascii.eqb c "t"%char then
            mapScan (fun _ => Bool true) (scanLiteral "rue" rest)
          else if Ascii.eqb c "f"%char then
            mapScan (fun _ => Bool false) (scanLiteral "alse" rest)
          else if Ascii.eqb c "n"%char then
            mapScan (fun _ => Null) (scanLiteral "ull" rest)
          else if bytes.isDigit c then
            mapScan (fun l => Number (String c l)) (scanNumber Int rest)
          else Invalid
      end
  end

with scanElements (fuel : nat) (s : string) : scan (list value) :=
  match fuel with
  | O => OutOfFuel
  | S fuel' =>
      match scanValue fuel' s with
      | Ok v tl =>
          match skipSpace tl with
          | EmptyString => Eof
          | String c tl' =>
              if Ascii.eqb c ","%char then mapScan (cons v) (scanElements fuel' tl')
              else if Ascii.eqb c "]"%char then Ok [v] tl'
              else Invalid
          end
      | Eof => Eof
      | Invalid => Invalid
      | OutOfFuel => OutOfFuel
      end
  end

with scanMembers (fuel : nat) (s : string) : scan (list (string * value)) :=
  match fuel with
  | O => OutOfFuel
  | S fuel' =>
      match skipSpace s with
      | EmptyString => Eof
      | String q rest =>
          if negb (Ascii.eqb q "034"%char) then Invalid else
          match scanString InString rest with
          | Ok key tl =>
              match skipSpace tl with
              | EmptyString => Eof
              | String c tl1 =>
                  if negb (Ascii.eqb c ":"%char) then Invalid else
                  match scanValue fuel' tl1 with
                  | Ok v tl2 =>
                      match skipSpace tl2 with
                      | EmptyString => Eof
                      | String c' tl3 =>
                          if Ascii.eqb c' ","%char
                          then mapScan (cons (key, v)) (scanMembers fuel' tl3)
                          else if Ascii.eqb c' "}"%char then Ok [(key, v)] tl3
                          else Invalid
                      end
                  | Eof => Eof
                  | Invalid => Invalid
                  | OutOfFuel => OutOfFuel
                  end
              end
          | Eof => Eof
          | Invalid => Invalid
          | OutOfFuel => OutOfFuel
          end
      end
  end.

(** Every string literal and member name of the value is well escaped. *)
Fixpoint wellScanned (v : value) : bool :=
  match v with
  | Str raw => escaped InString raw
  | Array elems => forallb wellScanned elems
  | Object members =>
      forallb (fun m => escaped InString (fst m) && wellScanned (snd m)) members
  | _ => true
  end.

(** [Decoder.readValue] on a body read to its end: the next value of
    the stream. The scan stops where the value ends: at the closing
    bracket of an object or an array, and for a string, a number or a
    literal at the byte after it, whatever that byte is ([stateEndTop]
    reports the end of the value; its complaint about a byte that is
    not white space is for the next call, which the methods never
    make). So [null] followed by any byte reads as [null]. An empty or
    blank body is [io.EOF]. (The limit of the scanner on the depth of
    nesting, 10000 levels, is not modelled.) *)
Definition readValue (body : string) : value + error :=
  match skipSpace body with
  | EmptyString => inr EOF
  | _ =>
      match scanValue (2 * String.length body + 2) body with
      | Ok v _ => inl v
      | Eof => inr ErrUnexpectedEOF
      | Invalid => inr SyntaxError
      | OutOfFuel => inr SyntaxError
      end
  end.

(** An object or an array: a value that brings its own end. *)
Definition composite (v : value) : bool :=
  match v with
  | Object _ | Array _ => true
  | _ => false
  end.

(** A value and what the scan left after it: the value does not depend
    on what follows unless it is a number that the end of the input
    ended. *)
Definition settled (v : value) (tl : string) : Prop :=
  match v, tl with
  | Number _, EmptyString => False
  | _, _ => True
  end.

(** *** From raw string bytes to a Go string *)

Definition hexValue (c : ascii) : N :=
  let k := N_of_ascii c in
  if bytes.isDigit c then (k - 48)%N
  else if utf8.inRange 97 102 c then (k - 87)%N
  else (k - 55)%N.

(** [getu4]: the code unit of a leading [\uXXXX], if there is one. *)
Definition getu4 (s : string) : option N :=
  match s with
  | String c0 (String c1 (String h1 (String h2 (String h3 (String h4 _))))) =>
      if Ascii.eqb c0 "\"%char && Ascii.eqb c1 "u"%char
         && isHex h1 && isHex h2 && isHex h3 && isHex h4
      then Some (4096 * hexValue h1 + 256 * hexValue h2
                 + 16 * hexValue h3 + hexValue h4)%N
      else None
  | _ => None
  end.

(** The byte a one-letter escape stands for. *)
Definition unescape (e : ascii) : option ascii :=
  if existsb (Ascii.eqb e) ["034"; "\"; "/"; "'"]%char then Some e
  else if Ascii.eqb e "b"%char then Some "008"%char
  else if Ascii.eqb e "f"%char then Some "012"%char
  else if Ascii.eqb e "n"%char then Some "010"%char
  else if Ascii.eqb e "r"%char then Some "013"%char
  else if Ascii.eqb e "t"%char then Some "009"%char
  else None.

Definition isSurrogate (r : N) : bool := ((55296 <=? r) && (r <? 57344))%N.

(** [utf16.DecodeRune]: the code point of a surrogate pair, U+FFFD for
    anything else. *)
Definition utf16DecodeRune (r1 r2 : N) : N :=
  if ((55296 <=? r1) && (r1 <? 56320) && (56320 <=? r2) && (r2 <? 57344))%N
  then ((r1 - 55296) * 1024 + (r2 - 56320) + 65536)%N
  else 65533%N.

(** [unquote]: escapes are replaced by what they stand for, bytes that
    are not well-formed UTF-8 by U+FFFD. [None] for a quote, a control
    byte or a bad escape, which the scanner does not let through. The
    fuel is the number of bytes. *)
Fixpoint unquoteFrom (fuel : nat) (s : string) : option string :=
  match s with
  | EmptyString => Some EmptyString
  | String c rest =>
      match fuel with
      | O => None
      | S fuel' =>
          let emit (out : string) (tl : string) :=
            option_map (append out) (unquoteFrom fuel' tl) in
          if Ascii.eqb c "\"%char then
            match rest with
            | EmptyString => None
            | String e rest' =>
                if Ascii.eqb e "u"%char then
                  match getu4 s with
                  | None => None
                  | Some rr =>
                      let after := bytes.drop 6 s in
                      if isSurrogate rr then
                        match getu4 after with
                        | Some rr1 =>
                            let dec := utf16DecodeRune rr rr1 in
                            if (dec =? 65533)%N
                            then emit utf8.RuneError after
                            else emit (utf8.EncodeRune dec) (bytes.drop 6 after)
                        | None => emit utf8.RuneError after
                        end
                      else emit (utf8.EncodeRune rr) after
                  end
                else
                  match unescape e with
                  | Some b => emit (String b EmptyString) rest'
                  | None => None
                  end
            end
          else if Ascii.eqb c "034"%char || (N_of_ascii c <? 32)%N then None
          else if (N_of_ascii c <? 128)%N then emit (String c EmptyString) rest
          else
            match utf8.validLen s with
            | O => emit utf8.RuneError rest
            | n => emit (bytes.slice s 0 n) (bytes.drop n s)
            end
      end
  end.

Definition unquote (raw : string) : option string :=
  unquoteFrom (String.length raw) raw.

(** *** Storing a value into a Go variable *)

(** The decoder keeps the first type mismatch it meets and goes on
    ([saveError]); an error of an [Unmarshaler] stops it. *)
Inductive result (A : Type) : Type :=
| Done (a : A) (saved : option error)
| Abort (e : error).
Arguments Abort {A}.

(** [decoder A]: store a value into a variable of type [A] that holds
    [old], with the error saved so far. *)
Definition decoder (A : Type) : Type := value -> A -> option error -> result A.

Definition saveError (saved : option error) (e : error) : option error :=
  match saved with
  | None => Some e
  | Some _ => saved
  end.

Definition kind (v : value) : string :=
  match v with
  | Null => "null"
  | Bool _ => "bool"
  | Number _ => "number"
  | Str _ => "string"
  | Array _ => "array"
  | Object _ => "object"
  end.

Definition errPhase : error :=
  New "JSON decoder out of sync - data changing underfoot?".

(** A value of the wrong kind: the variable keeps its content. *)
Definition mismatch {A} (what : string) (type : string) (old : A)
    (saved : option error) : result A :=
  Done old (saveError saved (UnmarshalTypeError what type)).

Definition bindResult {A B} (r : result A) (k : A -> option error -> result B)
    : result B :=
  match r with
  | Done a saved => k a saved
  | Abort e => Abort e
  end.

(** The decoder never forgets an error saved before it ran. *)
Definition keepsError {A} (d : decoder A) : Prop :=
  forall v old e a saved', d v old (Some e) = Done a saved' -> saved' <> None.

Definition storeString : decoder string := fun v old saved =>
  match v with
  | Null => Done old saved
  | Str raw =>
      match unquote raw with
      | Some s => Done s saved
      | None => Abort errPhase
      end
  | _ => mismatch (kind v) "string" old saved
  end.

Definition storeBool : decoder bool := fun v old saved =>
  match v with
  | Null => Done old saved
  | Bool b => Done b saved
  | _ => mismatch (kind v) "bool" old saved
  end.

(** A [uint64]: the literal must be all digits ([strconv.ParseUint])
    and below [2^64]. *)
Definition storeUint64 : decoder N := fun v old saved =>
  match v with
  | Null => Done old saved
  | Number lit =>
      match fmt.decimalValue lit with
      | Some n =>
          if (n <? 2 ^ 64)%N then Done n saved
          else mismatch ("number " ++ lit) "uint64" old saved
      | None => mismatch ("number " ++ lit) "uint64" old saved
      end
  | _ => mismatch (kind v) "uint64" old saved
  end.

(** A [time.Time] decodes itself ([Time.UnmarshalJSON]): [null] leaves
    it alone, a string literal is read, raw, as RFC 3339, anything else
    is an error. Go hands a string that the RFC 3339 reader refuses to
    the layout parser, which lets a few more forms through (a one-digit
    hour, a comma before the fraction); here those are errors. *)
Definition storeTime (localOffset : Z -> Z) : decoder time.Time :=
  fun v old saved =>
  match v with
  | Null => Done old saved
  | Str raw =>
      match time.parseRFC3339 localOffset raw with
      | Some t => Done t saved
      | None => Abort (ParseError "2006-01-02T15:04:05Z07:00" raw)
      end
  | _ => Abort (New "Time.UnmarshalJSON: input is not a JSON string")
  end.

(** A pointer: [null] makes it nil; for any other value a nil pointer
    is first pointed at a zero value. *)
Definition storePtr {A} (zero : A) (d : decoder A) : decoder (option A) :=
  fun v old saved =>
  match v with
  | Null => Done None saved
  | _ =>
      bindResult (d v (match old with Some a => a | None => zero end) saved)
        (fun a saved' => Done (Some a) saved')
  end.

(** The elements of an array go, in order, into the elements the slice
    already has and then into fresh ones. (Elements that an earlier,
    longer content left in the spare capacity of the slice are not
    modelled: a fresh element is zero.) *)
Fixpoint storeElements {A} (zero : A) (d : decoder A) (elems : list value)
    (old : list A) (saved : option error) : result (list A) :=
  match elems with
  | [] => Done [] saved
  | v :: elems' =>
      bindResult (d v (hd zero old) saved) (fun a saved1 =>
      bindResult (storeElements zero d elems' (tl old) saved1) (fun l saved2 =>
      Done (a :: l) saved2))
  end.

(** A slice: [null] makes it nil, an array gives a non-nil slice, of
    length zero for [[]]. *)
Definition storeSlice {A} (type : string) (zero : A) (d : decoder A)
    : decoder (option (list A)) :=
  fun v old saved =>
  match v with
  | Null => Done None saved
  | Array elems =>
      bindResult
        (storeElements zero d elems
           (match old with Some l => l | None => [] end) saved)
        (fun l saved' => Done (Some l) saved')
  | _ => mismatch (kind v) type old saved
  end.

(** *** Structs *)

(** A field that takes part in JSON: the name from its tag, and how a
    value is stored into that field of a [T]. *)
Record field (T : Type) : Type := Field {
  name : string;
  store : decoder T
}.

(** Store into the field read by [get] and written by [set]. *)
Definition into {T A} (get : T -> A) (set : A -> T -> T) (d : decoder A)
    : decoder T :=
  fun v t saved => bindResult (d v (get t) saved) (fun a saved' => Done (set a t) saved').

(** Names are matched exactly, and failing that with case folded. The
    fold sends ASCII letters to upper case and the two other characters
    whose fold is an ASCII letter, U+017F and U+212A, to [S] and [K];
    all field names here are ASCII, so no other fold matters. *)
Fixpoint foldName (s : string) : string :=
  match s with
  | String c rest =>
      let k := N_of_ascii c in
      if ((97 <=? k) && (k <=? 122))%N
      then String (ascii_of_N (k - 32)) (foldName rest)
      else
        match k, rest with
        | 197%N, String c1 rest1 =>
            if (N_of_ascii c1 =? 191)%N then String "S"%char (foldName rest1)
            else String c (foldName rest)
        | 226%N, String c1 (String c2 rest2) =>
            if ((N_of_ascii c1 =? 132) && (N_of_ascii c2 =? 170))%N
            then String "K"%char (foldName rest2)
            else String c (foldName rest)
        | _, _ => String c (foldName rest)
        end
  | EmptyString => EmptyString
  end.

Definition findField {T} (fields : list (field T)) (key : string)
    : option (field T) :=
  match find (fun f => String.eqb (name f) key) fields with
  | Some f => Some f
  | None => find (fun f => String.eqb (foldName (name f)) (foldName key)) fields
  end.

(** The members of an object are stored one after the other, so a name
    that comes twice is stored twice; a name that matches no field is
    skipped. *)
Fixpoint storeMembers {T} (fields : list (field T))
    (members : list (string * value)) (t : T) (saved : option error)
    : result T :=
  match members with
  | [] => Done t saved
  | (rawKey, v) :: members' =>
      match unquote rawKey with
      | None => Abort errPhase
      | Some key =>
          match findField fields key with
          | Some f =>
              bindResult (store f v t saved) (storeMembers fields members')
          | None => storeMembers fields members' t saved
          end
      end
  end.

Definition storeStruct {T} (type : string) (fields : list (field T))
    : decoder T :=
  fun v t saved =>
  match v with
  | Null => Done t saved
  | Object members => storeMembers fields members t saved
  | _ => mismatch (kind v) type t saved
  end.

(** [json.NewDecoder(body).Decode(&x)] for an [x] that holds [old]:
    the new content of [x], or the error. What [x] holds after a failed
    [Decode] is not modelled; no caller here looks at it. *)
Definition Decode {A} (d : decoder A) (body : string) (old : A) : A + error :=
  match readValue body with
  | inr e => inr e
  | inl v =>
      match d v old None with
      | Done a None => inl a
      | Done _ (Some e) => inr e
      | Abort e => inr e
      end
  end.

(** *** Encoding a request struct *)

(** The kinds of field the request structs have. *)
Inductive goValue : Type :=
| VString (s : string)
| VUint64 (n : N).

(** A struct field as the encoder sees it by reflection: its Go name,
    the name given in its [json] tag if it has one, its content. *)
Record structField : Type := StructField {
  goName : string;
  tag : option string;
  content : goValue
}.

Definition goStruct : Type := list structField.

(** The member name of a field: none for the tag ["-"], the tag's name
    if there is one, the Go name otherwise. *)
Definition memberName (f : structField) : option string :=
  match tag f with
  | Some t => if String.eqb t "-" then None else Some t
  | None => Some (goName f)
  end.

(** [Marshal] of a struct: the members of the JSON object, in the
    order of the fields. *)
Fixpoint Marshal (s : goStruct) : list (string * goValue) :=
  match s with
  | [] => []
  | f :: s' =>
      match memberName f with
      | Some n => (n, content f) :: Marshal s'
      | None => Marshal s'
      end
  end.

(** [Decode] of the same body, [n] times over, into the same variable. *)
Fixpoint DecodeTimes {A} (d : decoder A) (body : string) (n : nat) (x : A)
    : A + error :=
  match n with
  | O => inl x
  | S n' =>
      match Decode d body x with
      | inl x' => DecodeTimes d body n' x'
      | inr e => inr e
      end
  end.

(** *** Writing JSON texts *)

(** [text s] is [s] with a double quote in place of every apostrophe:
    [text "{'data':[]}"] is the JSON text with the member name [data]. *)
Fixpoint text (s : string) : string :=
  match s with
  | String c rest =>
      String (if Ascii.eqb c "'"%char then "034"%char else c) (text rest)
  | EmptyString => EmptyString
  end.

End json.

(* ===================================================================== *)
(** ** net/http: what the services name                                   *)
(* ===================================================================== *)

Module http.

Definition MethodGet : string := "GET".
Definition MethodPost : string := "POST".
Definition MethodPatch : string := "PATCH".

(** A response as the services see it: they read its body and close
    it. [Body] is the bytes the body yields up to its end. *)
Record Response : Type := mkResponse {
  StatusCode : Z;
  Body : string
}.

End http.

(* ===================================================================== *)
(** ** package planetscale                                                *)
(* ===================================================================== *)

Module planetscale.

Import errors.

(** *** The data model (deploy_requests.go) *)

(** [DeployRequestReview] posts a review to a deploy request. *)
Module DeployRequestReview.
Record t : Type := mk {
  ID : string;
  Body : string;
  State : string
}.

Definition zero : t := mk "" "" "".

Definition set_ID (x : string) (r : t) : t := mk x (Body r) (State r).
Definition set_Body (x : string) (r : t) : t := mk (ID r) x (State r).
Definition set_State (x : string) (r : t) : t := mk (ID r) (Body r) x.

Definition fields : list (json.field t) :=
  [ json.Field "id" (json.into ID set_ID json.storeString);
    json.Field "body" (json.into Body set_Body json.storeString);
    json.Field "state" (json.into State set_State json.storeString) ].

Definition store : json.decoder t :=
  json.storeStruct "planetscale.DeployRequestReview" fields.
End DeployRequestReview.

(** [DeployRequest] encapsulates the request to deploy a database
    branch's schema to a production branch. *)
Module DeployRequest.
Record t : Type := mk {
  ID : string;
  Branch : string;
  IntoBranch : string;
  Number : N;
  DeployabilityErrors : string;
  DeploymentState : string;
  State : string;
  Ready : bool;
  Approved : bool;
  Deployed : bool;
  Notes : string;
  CreatedAt : time.Time;
  UpdatedAt : time.Time;
  ClosedAt : option time.Time
}.

Definition zero : t :=
  mk "" "" "" 0%N "" "" "" false false false "" time.zero time.zero None.

Definition set_ID (x : string) (r : t) : t :=
  mk x (Branch r) (IntoBranch r) (Number r) (DeployabilityErrors r) (DeploymentState r) (State r) (Ready r) (Approved r) (Deployed r) (Notes r) (CreatedAt r) (UpdatedAt r) (ClosedAt r).
Definition set_Branch (x : string) (r : t) : t :=
  mk (ID r) x (IntoBranch r) (Number r) (DeployabilityErrors r) (DeploymentState r) (State r) (Ready r) (Approved r) (Deployed r) (Notes r) (CreatedAt r) (UpdatedAt r) (ClosedAt r).
Definition set_IntoBranch (x : string) (r : t) : t :=
  mk (ID r) (Branch r) x (Number r) (DeployabilityErrors r) (DeploymentState r) (State r) (Ready r) (Approved r) (Deployed r) (Notes r) (CreatedAt r) (UpdatedAt r) (ClosedAt r).
Definition set_Number (x : N) (r : t) : t :=
  mk (ID r) (Branch r) (IntoBranch r) x (DeployabilityErrors r) (DeploymentState r) (State r) (Ready r) (Approved r) (Deployed r) (Notes r) (CreatedAt r) (UpdatedAt r) (ClosedAt r).
Definition set_DeployabilityErrors (x : string) (r : t) : t :=
  mk (ID r) (Branch r) (IntoBranch r) (Number r) x (DeploymentState r) (State r) (Ready r) (Approved r) (Deployed r) (Notes r) (CreatedAt r) (UpdatedAt r) (ClosedAt r).
Definition set_DeploymentState (x : string) (r : t) : t :=
  mk (ID r) (Branch r) (IntoBranch r) (Number r) (DeployabilityErrors r) x (State r) (Ready r) (Approved r) (Deployed r) (Notes r) (CreatedAt r) (UpdatedAt r) (ClosedAt r).
Definition set_State (x : string) (r : t) : t :=
  mk (ID r) (Branch r) (IntoBranch r) (Number r) (DeployabilityErrors r) (DeploymentState r) x (Ready r) (Approved r) (Deployed r) (Notes r) (CreatedAt r) (UpdatedAt r) (ClosedAt r).
Definition set_Ready (x : bool) (r : t) : t :=
  mk (ID r) (Branch r) (IntoBranch r) (Number r) (DeployabilityErrors r) (DeploymentState r) (State r) x (Approved r) (Deployed r) (Notes r) (CreatedAt r) (UpdatedAt r) (ClosedAt r).
Definition set_Approved (x : bool) (r : t) : t :=
  mk (ID r) (Branch r) (IntoBranch r) (Number r) (DeployabilityErrors r) (DeploymentState r) (State r) (Ready r) x (Deployed r) (Notes r) (CreatedAt r) (UpdatedAt r) (ClosedAt r).
Definition set_Deployed (x : bool) (r : t) : t :=
  mk (ID r) (Branch r) (IntoBranch r) (Number r) (DeployabilityErrors r) (DeploymentState r) (State r) (Ready r) (Approved r) x (Notes r) (CreatedAt r) (UpdatedAt r) (ClosedAt r).
Definition set_Notes (x : string) (r : t) : t :=
  mk (ID r) (Branch r) (IntoBranch r) (Number r) (DeployabilityErrors r) (DeploymentState r) (State r) (Ready r) (Approved r) (Deployed r) x (CreatedAt r) (UpdatedAt r) (ClosedAt r).
Definition set_CreatedAt (x : time.Time) (r : t) : t :=
  mk (ID r) (Branch r) (IntoBranch r) (Number r) (DeployabilityErrors r) (DeploymentState r) (State r) (Ready r) (Approved r) (Deployed r) (Notes r) x (UpdatedAt r) (ClosedAt r).
Definition set_UpdatedAt (x : time.Time) (r : t) : t :=
  mk (ID r) (Branch r) (IntoBranch r) (Number r) (DeployabilityErrors r) (DeploymentState r) (State r) (Ready r) (Approved r) (Deployed r) (Notes r) (CreatedAt r) x (ClosedAt r).
Definition set_ClosedAt (x : option time.Time) (r : t) : t :=
  mk (ID r) (Branch r) (IntoBranch r) (Number r) (DeployabilityErrors r) (DeploymentState r) (State r) (Ready r) (Approved r) (Deployed r) (Notes r) (CreatedAt r) (UpdatedAt r) x.

(** The fields by the names in their [json] tags. *)
Definition fields (localOffset : Z -> Z) : list (json.field t) :=
  [ json.Field "id" (json.into ID set_ID json.storeString);
    json.Field "branch" (json.into Branch set_Branch json.storeString);
    json.Field "into_branch" (json.into IntoBranch set_IntoBranch json.storeString);
    json.Field "number" (json.into Number set_Number json.storeUint64);
    json.Field "deployability_errors" (json.into DeployabilityErrors set_DeployabilityErrors json.storeString);
    json.Field "deployment_state" (json.into DeploymentState set_DeploymentState json.storeString);
    json.Field "state" (json.into State set_State json.storeString);
    json.Field "ready" (json.into Ready set_Ready json.storeBool);
    json.Field "approved" (json.into Approved set_Approved json.storeBool);
    json.Field "deployed" (json.into Deployed set_Deployed json.storeBool);
    json.Field "notes" (json.into Notes set_Notes json.storeString);
    json.Field "created_at" (json.into CreatedAt set_CreatedAt (json.storeTime localOffset));
    json.Field "updated_at" (json.into UpdatedAt set_UpdatedAt (json.storeTime localOffset));
    json.Field "closed_at" (json.into ClosedAt set_ClosedAt (json.storePtr time.zero (json.storeTime localOffset))) ].

Definition store (localOffset : Z -> Z) : json.decoder t :=
  json.storeStruct "planetscale.DeployRequest" (fields localOffset).
End DeployRequest.

(** The envelope of a list: [DeployRequests []*DeployRequest `json:"data"`]. *)
Module deployRequestsResponse.
Record t : Type := mk {
  DeployRequests : option (list (option DeployRequest.t))
}.

Definition zero : t := mk None.

Definition set_DeployRequests (x : option (list (option DeployRequest.t)))
    (r : t) : t := mk x.

Definition fields (localOffset : Z -> Z) : list (json.field t) :=
  [ json.Field "data"
      (json.into DeployRequests set_DeployRequests
         (json.storeSlice "[]*planetscale.DeployRequest" None
            (json.storePtr DeployRequest.zero
               (DeployRequest.store localOffset)))) ].

Definition store (localOffset : Z -> Z) : json.decoder t :=
  json.storeStruct "planetscale.deployRequestsResponse" (fields localOffset).
End deployRequestsResponse.

(** *** The request structs, with their tags *)

Module PerformDeployRequest.
Record t : Type := mk {
  Organization : string;
  Database : string;
  Number : N
}.
Definition reflect (r : t) : json.goStruct :=
  [ json.StructField "Organization" (Some "-") (json.VString (Organization r));
    json.StructField "Database" (Some "-") (json.VString (Database r));
    json.StructField "Number" (Some "-") (json.VUint64 (Number r)) ].
End PerformDeployRequest.

Module GetDeployRequestRequest.
Record t : Type := mk {
  Organization : string;
  Database : string;
  Number : N
}.
Definition reflect (r : t) : json.goStruct :=
  [ json.StructField "Organization" (Some "-") (json.VString (Organization r));
    json.StructField "Database" (Some "-") (json.VString (Database r));
    json.StructField "Number" (Some "-") (json.VUint64 (Number r)) ].
End GetDeployRequestRequest.

Module ListDeployRequestsRequest.
Record t : Type := mk {
  Organization : string;
  Database : string
}.
Definition reflect (r : t) : json.goStruct :=
  [ json.StructField "Organization" None (json.VString (Organization r));
    json.StructField "Database" None (json.VString (Database r)) ].
End ListDeployRequestsRequest.

Module CancelDeployRequest.
Record t : Type := mk {
  Organization : string;
  Database : string;
  Number : N
}.
Definition reflect (r : t) : json.goStruct :=
  [ json.StructField "Organization" (Some "-") (json.VString (Organization r));
    json.StructField "Database" (Some "-") (json.VString (Database r));
    json.StructField "Number" (Some "-") (json.VUint64 (Number r)) ].
End CancelDeployRequest.

Module CreateDeployRequestRequest.
Record t : Type := mk {
  Organization : string;
  Database : string;
  Branch : string;
  IntoBranch : string;
  Notes : string
}.
Definition reflect (r : t) : json.goStruct :=
  [ json.StructField "Organization" (Some "-") (json.VString (Organization r));
    json.StructField "Database" (Some "-") (json.VString (Database r));
    json.StructField "Branch" (Some "branch") (json.VString (Branch r));
    json.StructField "IntoBranch" (Some "into_branch") (json.VString (IntoBranch r));
    json.StructField "Notes" (Some "notes") (json.VString (Notes r)) ].
End CreateDeployRequestRequest.

Module ReviewDeployRequestRequest.
Record t : Type := mk {
  Organization : string;
  Database : string;
  Number : N;
  Body : string;
  State : string
}.
Definition reflect (r : t) : json.goStruct :=
  [ json.StructField "Organization" (Some "-") (json.VString (Organization r));
    json.StructField "Database" (Some "-") (json.VString (Database r));
    json.StructField "Number" (Some "-") (json.VUint64 (Number r));
    json.StructField "Body" (Some "body") (json.VString (Body r));
    json.StructField "State" (Some "state") (json.VString (State r)) ].
End ReviewDeployRequestRequest.

Module CloseDeployRequestRequest.
Record t : Type := mk {
  Organization : string;
  Database : string;
  Number : N
}.
Definition reflect (r : t) : json.goStruct :=
  [ json.StructField "Organization" (Some "-") (json.VString (Organization r));
    json.StructField "Database" (Some "-") (json.VString (Database r));
    json.StructField "Number" (Some "-") (json.VUint64 (Number r)) ].
End CloseDeployRequestRequest.

Module CloseRequest.
Record t : Type := mk {
  State : string
}.
Definition reflect (r : t) : json.goStruct :=
  [ json.StructField "State" (Some "state") (json.VString (State r)) ].
End CloseRequest.

(** *** The client, as the services use it *)

Section Client.

(** [*http.Request]: built by the client, opaque to the services. *)
Variable Request : Type.

(** The calls a service makes: [client.newRequest(method, path, body)]
    with a nil body or a request struct, [client.Do(ctx, req)], and
    [res.Body.Close()]. [newRequest] and [Do] answer with a value or with
    a non-nil error. The context is part of the client's state. *)
Inductive call : Type -> Type :=
| newRequest (method path : string) (body : option json.goStruct)
    : call (Request + error)
| Do (req : Request) : call (http.Response + error)
| BodyClose (res : http.Response) : call unit.

(** A service method: it returns, panics, or makes a call and goes on
    with the answer. *)
Inductive prog (R : Type) : Type :=
| Return (r : R)
| Panic (msg : string)
| Call (X : Type) (c : call X) (k : X -> prog R).
Arguments Panic {R}.
Arguments Call {R X}.

(** [defer c]: the call is made when the function is left, by a return
    or by a panic. *)
Fixpoint defer {R} (c : call unit) (p : prog R) : prog R :=
  match p with
  | Return r => Call c (fun _ => Return r)
  | Panic msg => Call c (fun _ => Panic msg)
  | Call c' k => Call c' (fun x => defer c (k x))
  end.

(** A call together with the answer it got. *)
Inductive event : Type :=
| Event (X : Type) (c : call X) (answer : X).

Inductive outcome (R : Type) : Type :=
| Returned (r : R)
| Panicked (msg : string).
Arguments Panicked {R}.

(** Running a method against a client: a client is a state and an
    answer to every call. *)
Section Run.

Variable State : Type.
Variable client : forall X : Type, call X -> State -> X * State.

Fixpoint run {R} (p : prog R) (s : State) : outcome R * list event * State :=
  match p with
  | Return r => (Returned r, [], s)
  | Panic msg => (Panicked msg, [], s)
  | Call c k =>
      let '(x, s1) := client c s in
      let '(o, tr, s2) := run (k x) s1 in
      (o, Event c x :: tr, s2)
  end.

End Run.

(** What a run returned, and the calls it made. *)
Definition outcomeOf {R State} (r : outcome R * list event * State) : outcome R :=
  fst (fst r).

Definition traceOf {R State} (r : outcome R * list event * State) : list event :=
  snd (fst r).

Definition isDo (e : event) : bool :=
  match e with
  | Event (Do _) _ => true
  | Event _ _ => false
  end.

(** The HTTP round trips of a trace are its calls of [Do]. *)
Definition roundTrips (tr : list event) : nat := List.length (filter isDo tr).

(** The trace of one exchange: the request is built from [method],
    [path] and [body]; if that fails nothing else happens; otherwise the
    request built is sent, once; if a response comes, its body is closed
    in the end. *)
Inductive exchange (method path : string) (body : option json.goStruct)
    : list event -> Prop :=
| exchange_unbuilt (err : error) :
    exchange method path body
      [Event (newRequest method path body) (inr err)]
| exchange_failed (req : Request) (err : error) :
    exchange method path body
      [Event (newRequest method path body) (inl req);
       Event (Do req) (inr err)]
| exchange_answered (req : Request) (res : http.Response) :
    exchange method path body
      [Event (newRequest method path body) (inl req);
       Event (Do req) (inl res);
       Event (BodyClose res) tt].

(** The request of the trace was built: its first call is a
    [newRequest] that answered with a request. *)
Definition built (tr : list event) : bool :=
  match tr with
  | Event c x :: _ =>
      match c in call X return X -> bool with
      | newRequest _ _ _ => fun x =>
          match x with
          | inl _ => true
          | inr _ => false
          end
      | Do _ => fun _ => false
      | BodyClose _ => fun _ => false
      end x
  | [] => false
  end.

(** The bodies handed to [newRequest] in the trace. *)
Fixpoint bodies (tr : list event) : list (option json.goStruct) :=
  match tr with
  | Event c _ :: tr' =>
      match c with
      | newRequest _ _ body => body :: bodies tr'
      | Do _ => bodies tr'
      | BodyClose _ => bodies tr'
      end
  | [] => []
  end.

(** The verb and the path handed to [newRequest] in the trace. *)
Fixpoint requested (tr : list event) : list (string * string) :=
  match tr with
  | Event c _ :: tr' =>
      match c with
      | newRequest method path _ => (method, path) :: requested tr'
      | Do _ => requested tr'
      | BodyClose _ => requested tr'
      end
  | [] => []
  end.

(** The responses with which [Do] answered in the trace. *)
Fixpoint responses (tr : list event) : list http.Response :=
  match tr with
  | Event c x :: tr' =>
      match c in call X return X -> list http.Response with
      | Do _ => fun x =>
          match x with
          | inl res => res :: responses tr'
          | inr _ => responses tr'
          end
      | newRequest _ _ _ => fun _ => responses tr'
      | BodyClose _ => fun _ => responses tr'
      end x
  | [] => []
  end.

(** The responses whose body was closed in the trace. *)
Fixpoint closed (tr : list event) : list http.Response :=
  match tr with
  | Event c _ :: tr' =>
      match c with
      | BodyClose res => res :: closed tr'
      | newRequest _ _ _ => closed tr'
      | Do _ => closed tr'
      end
  | [] => []
  end.

(** The errors with which [Do] answered in the trace. *)
Fixpoint transportErrors (tr : list event) : list error :=
  match tr with
  | Event c x :: tr' =>
      match c in call X return X -> list error with
      | Do _ => fun x =>
          match x with
          | inr err => err :: transportErrors tr'
          | inl _ => transportErrors tr'
          end
      | newRequest _ _ _ => fun _ => transportErrors tr'
      | BodyClose _ => fun _ => transportErrors tr'
      end x
  | [] => []
  end.

End Client.

Arguments Return {Request R}.
Arguments Panic {Request R}.
Arguments Call {Request R X}.
Arguments newRequest {Request}.
Arguments Do {Request}.
Arguments BodyClose {Request}.
Arguments Event {Request X}.
Arguments exchange {Request}.
Arguments built {Request}.
Arguments transportErrors {Request}.
Arguments bodies {Request}.
Arguments requested {Request}.
Arguments closed {Request}.
Arguments responses {Request}.
Arguments roundTrips {Request}.
Arguments outcomeOf {Request R State}.
Arguments traceOf {Request R State}.
Arguments run {Request State} client {R}.
Arguments Returned {R}.
Arguments Panicked {R}.

Declare Scope prog_scope.
Delimit Scope prog_scope with prog.
Notation "x <- c ;; k" := (Call c (fun x => k))
  (at level 61, c at next level, right associativity) : prog_scope.

(** The panic of the runtime for [p.f] with [p] nil. *)
Definition nilDereference : string :=
  "runtime error: invalid memory address or nil pointer dereference".

(** *** The deploy requests service (deploy_requests.go) *)

(** A method takes the request struct its argument points to (the
    pointer is dereferenced first thing; a nil request is not a case of
    the model), and the client is the one the service was made with. *)
Module deployRequestsService.

Section Service.

Variable Request : Type.

(** [databasesAPIPath(org)] is declared in databases.go. *)
Variable databasesAPIPath : string -> string.

(** The offset of the process's time zone at a Unix time. *)
Variable localOffset : Z -> Z.

Local Open Scope prog_scope.

Definition deployRequestsAPIPath (org db : string) : string :=
  fmt.Sprintf "%s/%s/deploy-requests" [fmt.Str (databasesAPIPath org); fmt.Str db].

(** [deployRequestAPIPath] gets the base path for accessing a single
    deploy request. *)
Definition deployRequestAPIPath (org db : string) (number : N) : string :=
  fmt.Sprintf "%s/%s/deploy-requests/%d"
    [fmt.Str (databasesAPIPath org); fmt.Str db; fmt.Uint number].

Definition deployRequestActionAPIPath (org db : string) (number : N)
    (path : string) : string :=
  fmt.Sprintf "%s/%s" [fmt.Str (deployRequestAPIPath org db number); fmt.Str path].

(** What a method returns: a pointer or slice, and an [error]. *)
Local Abbreviation result A := (option A * option error)%type.

(** [Get] fetches a single deploy request. *)
Definition Get (getReq : GetDeployRequestRequest.t)
    : prog Request (result DeployRequest.t) :=
  r <- newRequest http.MethodGet
         (deployRequestAPIPath (GetDeployRequestRequest.Organization getReq)
            (GetDeployRequestRequest.Database getReq)
            (GetDeployRequestRequest.Number getReq)) None ;;
  match r with
  | inr err => Return (None, Wrap (Some err) "error creating http request")
  | inl req =>
      r <- Do req ;;
      match r with
      | inr err => Return (None, Some err)
      | inl res =>
          defer (BodyClose res)
            (let dr := DeployRequest.zero in
             match json.Decode (DeployRequest.store localOffset) (http.Body res) dr with
             | inr err => Return (None, Some err)
             | inl dr => Return (Some dr, None)
             end)
      end
  end.

(** [Close] closes a deploy request. *)
Definition Close (closeReq : CloseDeployRequestRequest.t)
    : prog Request (result DeployRequest.t) :=
  let updateReq := CloseRequest.mk "closed" in
  r <- newRequest http.MethodPatch
         (deployRequestAPIPath (CloseDeployRequestRequest.Organization closeReq)
            (CloseDeployRequestRequest.Database closeReq)
            (CloseDeployRequestRequest.Number closeReq))
         (Some (CloseRequest.reflect updateReq)) ;;
  match r with
  | inr err => Return (None, Wrap (Some err) "error creating http request")
  | inl req =>
      r <- Do req ;;
      match r with
      | inr err => Return (None, Some err)
      | inl res =>
          defer (BodyClose res)
            (let dr := DeployRequest.zero in
             match json.Decode (DeployRequest.store localOffset) (http.Body res) dr with
             | inr err => Return (None, Some err)
             | inl dr => Return (Some dr, None)
             end)
      end
  end.

(** [Deploy] approves and executes a specific deploy request. *)
Definition Deploy (deployReq : PerformDeployRequest.t)
    : prog Request (result DeployRequest.t) :=
  let path := deployRequestActionAPIPath
                (PerformDeployRequest.Organization deployReq)
                (PerformDeployRequest.Database deployReq)
                (PerformDeployRequest.Number deployReq) "deploy" in
  r <- newRequest http.MethodPost path (Some (PerformDeployRequest.reflect deployReq)) ;;
  match r with
  | inr err => Return (None, Wrap (Some err) "error creating http request")
  | inl req =>
      r <- Do req ;;
      match r with
      | inr err => Return (None, Some err)
      | inl res =>
          defer (BodyClose res)
            (let dr := DeployRequest.zero in
             match json.Decode (DeployRequest.store localOffset) (http.Body res) dr with
             | inr err => Return (None, Some err)
             | inl dr => Return (Some dr, None)
             end)
      end
  end.

Definition Create (createReq : CreateDeployRequestRequest.t)
    : prog Request (result DeployRequest.t) :=
  let path := deployRequestsAPIPath
                (CreateDeployRequestRequest.Organization createReq)
                (CreateDeployRequestRequest.Database createReq) in
  r <- newRequest http.MethodPost path
         (Some (CreateDeployRequestRequest.reflect createReq)) ;;
  match r with
  | inr err => Return (None, Some err)
  | inl req =>
      r <- Do req ;;
      match r with
      | inr err => Return (None, Some err)
      | inl res =>
          defer (BodyClose res)
            (let dr := DeployRequest.zero in
             match json.Decode (DeployRequest.store localOffset) (http.Body res) dr with
             | inr err => Return (None, Some err)
             | inl dr => Return (Some dr, None)
             end)
      end
  end.

(** [CancelDeploy] cancels a queued deploy request. *)
Definition CancelDeploy (deployReq : CancelDeployRequest.t)
    : prog Request (result DeployRequest.t) :=
  let path := deployRequestActionAPIPath
                (CancelDeployRequest.Organization deployReq)
                (CancelDeployRequest.Database deployReq)
                (CancelDeployRequest.Number deployReq) "cancel" in
  r <- newRequest http.MethodPost path (Some (CancelDeployRequest.reflect deployReq)) ;;
  match r with
  | inr err => Return (None, Wrap (Some err) "error creating http request")
  | inl req =>
      r <- Do req ;;
      match r with
      | inr err => Return (None, Some err)
      | inl res =>
          defer (BodyClose res)
            (let dr := DeployRequest.zero in
             match json.Decode (DeployRequest.store localOffset) (http.Body res) dr with
             | inr err => Return (None, Some err)
             | inl dr => Return (Some dr, None)
             end)
      end
  end.

(** [List]: the envelope is decoded through a pointer to the pointer
    [deployRequests] ([Decode(&deployRequests)]), so a body [null] makes
    [deployRequests] nil and the field access that follows panics. The
    slice returned is nil or a list of pointers. *)
Definition List (listReq : ListDeployRequestsRequest.t)
    : prog Request (result (list (option DeployRequest.t))) :=
  r <- newRequest http.MethodGet
         (deployRequestsAPIPath (ListDeployRequestsRequest.Organization listReq)
            (ListDeployRequestsRequest.Database listReq)) None ;;
  match r with
  | inr err => Return (None, Wrap (Some err) "error creating http request")
  | inl req =>
      r <- Do req ;;
      match r with
      | inr err => Return (None, Some err)
      | inl res =>
          defer (BodyClose res)
            (let deployRequests := Some deployRequestsResponse.zero in
             match json.Decode
                     (json.storePtr deployRequestsResponse.zero
                        (deployRequestsResponse.store localOffset))
                     (http.Body res) deployRequests with
             | inr err => Return (None, Some err)
             | inl None => Panic nilDereference
             | inl (Some resp) =>
                 Return (deployRequestsResponse.DeployRequests resp, None)
             end)
      end
  end.

Definition CreateReview (reviewReq : ReviewDeployRequestRequest.t)
    : prog Request (result DeployRequestReview.t) :=
  r <- newRequest http.MethodGet
         (deployRequestActionAPIPath
            (ReviewDeployRequestRequest.Organization reviewReq)
            (ReviewDeployRequestRequest.Database reviewReq)
            (ReviewDeployRequestRequest.Number reviewReq) "reviews")
         (Some (ReviewDeployRequestRequest.reflect reviewReq)) ;;
  match r with
  | inr err => Return (None, Wrap (Some err) "error creating http request")
  | inl req =>
      r <- Do req ;;
      match r with
      | inr err => Return (None, Some err)
      | inl res =>
          defer (BodyClose res)
            (let drr := DeployRequestReview.zero in
             match json.Decode DeployRequestReview.store (http.Body res) drr with
             | inr err => Return (None, Some err)
             | inl drr => Return (Some drr, None)
             end)
      end
  end.

End Service.

End deployRequestsService.

(** *** The branch passwords service *)

(** passwords.go is not among the sources at hand; its test
    passwords_test.go is. The service below follows the specification
    and that test. *)

(** Modelled from the spec: the record [DatabaseBranchPassword] of
    passwords.go, "a credential scoped to one branch of one database.
    Fields: name, public id, username, role, plaintext secret, created
    timestamp", with the member names of the bodies in the test: [id] for
    the public id, [display_name] for the name, [username], [role],
    [plain_text], [created_at]. *)
Module DatabaseBranchPassword.
Record t : Type := mk {
  Name : string;
  PublicID : string;
  UserName : string;
  CreatedAt : time.Time;
  Role : string;
  PlainText : string
}.

Definition zero : t := mk "" "" "" time.zero "" "".

Definition set_Name (x : string) (r : t) : t :=
  mk x (PublicID r) (UserName r) (CreatedAt r) (Role r) (PlainText r).
Definition set_PublicID (x : string) (r : t) : t :=
  mk (Name r) x (UserName r) (CreatedAt r) (Role r) (PlainText r).
Definition set_UserName (x : string) (r : t) : t :=
  mk (Name r) (PublicID r) x (CreatedAt r) (Role r) (PlainText r).
Definition set_CreatedAt (x : time.Time) (r : t) : t :=
  mk (Name r) (PublicID r) (UserName r) x (Role r) (PlainText r).
Definition set_Role (x : string) (r : t) : t :=
  mk (Name r) (PublicID r) (UserName r) (CreatedAt r) x (PlainText r).
Definition set_PlainText (x : string) (r : t) : t :=
  mk (Name r) (PublicID r) (UserName r) (CreatedAt r) (Role r) x.

Definition fields (localOffset : Z -> Z) : list (json.field t) :=
  [ json.Field "id" (json.into PublicID set_PublicID json.storeString);
    json.Field "display_name" (json.into Name set_Name json.storeString);
    json.Field "username" (json.into UserName set_UserName json.storeString);
    json.Field "role" (json.into Role set_Role json.storeString);
    json.Field "created_at"
      (json.into CreatedAt set_CreatedAt (json.storeTime localOffset));
    json.Field "plain_text" (json.into PlainText set_PlainText json.storeString) ].

Definition store (localOffset : Z -> Z) : json.decoder t :=
  json.storeStruct "planetscale.DatabaseBranchPassword" (fields localOffset).
End DatabaseBranchPassword.

(** Modelled from the spec: the envelope of a list of passwords, "list
    endpoints wrap the sequence in an envelope object with a [data] key
    holding the ordered sequence". *)
Module passwordsResponse.
Record t : Type := mk {
  Passwords : option (list (option DatabaseBranchPassword.t))
}.

Definition zero : t := mk None.

Definition set_Passwords (x : option (list (option DatabaseBranchPassword.t)))
    (r : t) : t := mk x.

Definition fields (localOffset : Z -> Z) : list (json.field t) :=
  [ json.Field "data"
      (json.into Passwords set_Passwords
         (json.storeSlice "[]*planetscale.DatabaseBranchPassword" None
            (json.storePtr DatabaseBranchPassword.zero
               (DatabaseBranchPassword.store localOffset)))) ].

Definition store (localOffset : Z -> Z) : json.decoder t :=
  json.storeStruct "planetscale.passwordsResponse" (fields localOffset).
End passwordsResponse.

(** Modelled from the spec: the request structs of the passwords
    service, with the fields the test fills in; they name the path and
    are tagged out of the body ("fields tagged [json:-] are path
    parameters, not body fields"). *)
Module DatabaseBranchPasswordRequest.
Record t : Type := mk {
  Organization : string;
  Database : string;
  Branch : string
}.
Definition reflect (r : t) : json.goStruct :=
  [ json.StructField "Organization" (Some "-") (json.VString (Organization r));
    json.StructField "Database" (Some "-") (json.VString (Database r));
    json.StructField "Branch" (Some "-") (json.VString (Branch r)) ].
End DatabaseBranchPasswordRequest.

Module ListDatabaseBranchPasswordRequest.
Record t : Type := mk {
  Organization : string;
  Database : string;
  Branch : string
}.
End ListDatabaseBranchPasswordRequest.

Module GetDatabaseBranchPasswordRequest.
Record t : Type := mk {
  Organization : string;
  Database : string;
  Branch : string;
  PasswordId : string
}.
End GetDatabaseBranchPasswordRequest.

Module passwordsService.

Section Service.

Variable Request : Type.

(** The collection path of the passwords of a branch; the specification
    gives its family ("analogous [/passwords] resource family") and not
    its text. *)
Variable passwordsAPIPath : string -> string -> string -> string.

Variable localOffset : Z -> Z.

Local Open Scope prog_scope.

(** Modelled from the spec: the single-resource path of a password,
    "single-resource path = collection path + [/{id}]". *)
Definition passwordAPIPath (org db branch passwordId : string) : string :=
  fmt.Sprintf "%s/%s" [fmt.Str (passwordsAPIPath org db branch); fmt.Str passwordId].

Local Abbreviation result A := (option A * option error)%type.

(** Modelled from the spec: [Create] of passwords.go. "Every operation
    is a straight-line sequence: build URL, marshal body, send, unmarshal
    response, return", with one round trip, and each service is
    "structurally identical" to the others: the method is written as
    [Create] of the deploy requests service is, on the collection path of
    passwords. *)
Definition Create (createReq : DatabaseBranchPasswordRequest.t)
    : prog Request (result DatabaseBranchPassword.t) :=
  let path := passwordsAPIPath
                (DatabaseBranchPasswordRequest.Organization createReq)
                (DatabaseBranchPasswordRequest.Database createReq)
                (DatabaseBranchPasswordRequest.Branch createReq) in
  r <- newRequest http.MethodPost path
         (Some (DatabaseBranchPasswordRequest.reflect createReq)) ;;
  match r with
  | inr err => Return (None, Wrap (Some err) "error creating http request")
  | inl req =>
      r <- Do req ;;
      match r with
      | inr err => Return (None, Some err)
      | inl res =>
          defer (BodyClose res)
            (let password := DatabaseBranchPassword.zero in
             match json.Decode (DatabaseBranchPassword.store localOffset)
                     (http.Body res) password with
             | inr err => Return (None, Some err)
             | inl password => Return (Some password, None)
             end)
      end
  end.

(** Modelled from the spec: [List] of passwords.go, "ordered sequence",
    read from the [data] member of the envelope. *)
Definition List (listReq : ListDatabaseBranchPasswordRequest.t)
    : prog Request (result (list (option DatabaseBranchPassword.t))) :=
  r <- newRequest http.MethodGet
         (passwordsAPIPath
            (ListDatabaseBranchPasswordRequest.Organization listReq)
            (ListDatabaseBranchPasswordRequest.Database listReq)
            (ListDatabaseBranchPasswordRequest.Branch listReq)) None ;;
  match r with
  | inr err => Return (None, Wrap (Some err) "error creating http request")
  | inl req =>
      r <- Do req ;;
      match r with
      | inr err => Return (None, Some err)
      | inl res =>
          defer (BodyClose res)
            (let passwordsResp := passwordsResponse.zero in
             match json.Decode (passwordsResponse.store localOffset)
                     (http.Body res) passwordsResp with
             | inr err => Return (None, Some err)
             | inl passwordsResp =>
                 Return (passwordsResponse.Passwords passwordsResp, None)
             end)
      end
  end.

(** Modelled from the spec: [Get] of passwords.go, "single password". *)
Definition Get (getReq : GetDatabaseBranchPasswordRequest.t)
    : prog Request (result DatabaseBranchPassword.t) :=
  r <- newRequest http.MethodGet
         (passwordAPIPath
            (GetDatabaseBranchPasswordRequest.Organization getReq)
            (GetDatabaseBranchPasswordRequest.Database getReq)
            (GetDatabaseBranchPasswordRequest.Branch getReq)
            (GetDatabaseBranchPasswordRequest.PasswordId getReq)) None ;;
  match r with
  | inr err => Return (None, Wrap (Some err) "error creating http request")
  | inl req =>
      r <- Do req ;;
      match r with
      | inr err => Return (None, Some err)
      | inl res =>
          defer (BodyClose res)
            (let password := DatabaseBranchPassword.zero in
             match json.Decode (DatabaseBranchPassword.store localOffset)
                     (http.Body res) password with
             | inr err => Return (None, Some err)
             | inl password => Return (Some password, None)
             end)
      end
  end.

End Service.

End passwordsService.

(** *** The two interfaces *)

(** [DeployRequestsService]: the methods of the interface, each with its
    request and the type its result points to. *)
Module DeployRequestsService.
Inductive method : Type -> Type :=
| List (listReq : ListDeployRequestsRequest.t)
    : method (list (option DeployRequest.t))
| Create (createReq : CreateDeployRequestRequest.t) : method DeployRequest.t
| Get (getReq : GetDeployRequestRequest.t) : method DeployRequest.t
| Deploy (deployReq : PerformDeployRequest.t) : method DeployRequest.t
| CancelDeploy (deployReq : CancelDeployRequest.t) : method DeployRequest.t
| Close (closeReq : CloseDeployRequestRequest.t) : method DeployRequest.t
| CreateReview (reviewReq : ReviewDeployRequestRequest.t)
    : method DeployRequestReview.t.

(** The methods that return a pointer to a record; [List] returns a
    slice. *)
Definition returnsPointer {A} (m : method A) : bool :=
  match m with
  | List _ => false
  | _ => true
  end.
End DeployRequestsService.

(** What a method that returns a pointer decodes the body of the
    response into: the zero value of the record its result points to,
    with the decoder of that type. *)
Definition target (localOffset : Z -> Z) {A} (m : DeployRequestsService.method A)
    : option (A * json.decoder A) :=
  match m in DeployRequestsService.method A return option (A * json.decoder A) with
  | DeployRequestsService.List _ => None
  | DeployRequestsService.Create _ =>
      Some (DeployRequest.zero, DeployRequest.store localOffset)
  | DeployRequestsService.Get _ =>
      Some (DeployRequest.zero, DeployRequest.store localOffset)
  | DeployRequestsService.Deploy _ =>
      Some (DeployRequest.zero, DeployRequest.store localOffset)
  | DeployRequestsService.CancelDeploy _ =>
      Some (DeployRequest.zero, DeployRequest.store localOffset)
  | DeployRequestsService.Close _ =>
      Some (DeployRequest.zero, DeployRequest.store localOffset)
  | DeployRequestsService.CreateReview _ =>
      Some (DeployRequestReview.zero, DeployRequestReview.store)
  end.

(** What the request of a method names: the method itself, the
    organization and the database, and the number of the deploy request
    for the methods that have one. *)
Definition nameOf {A} (m : DeployRequestsService.method A) : string :=
  match m with
  | DeployRequestsService.List _ => "List"
  | DeployRequestsService.Create _ => "Create"
  | DeployRequestsService.Get _ => "Get"
  | DeployRequestsService.Deploy _ => "Deploy"
  | DeployRequestsService.CancelDeploy _ => "CancelDeploy"
  | DeployRequestsService.Close _ => "Close"
  | DeployRequestsService.CreateReview _ => "CreateReview"
  end.

Definition databaseOf {A} (m : DeployRequestsService.method A) : string * string :=
  match m with
  | DeployRequestsService.List r =>
      (ListDeployRequestsRequest.Organization r, ListDeployRequestsRequest.Database r)
  | DeployRequestsService.Create r =>
      (CreateDeployRequestRequest.Organization r, CreateDeployRequestRequest.Database r)
  | DeployRequestsService.Get r =>
      (GetDeployRequestRequest.Organization r, GetDeployRequestRequest.Database r)
  | DeployRequestsService.Deploy r =>
      (PerformDeployRequest.Organization r, PerformDeployRequest.Database r)
  | DeployRequestsService.CancelDeploy r =>
      (CancelDeployRequest.Organization r, CancelDeployRequest.Database r)
  | DeployRequestsService.Close r =>
      (CloseDeployRequestRequest.Organization r, CloseDeployRequestRequest.Database r)
  | DeployRequestsService.CreateReview r =>
      (ReviewDeployRequestRequest.Organization r, ReviewDeployRequestRequest.Database r)
  end.

Definition numberOf {A} (m : DeployRequestsService.method A) : option N :=
  match m with
  | DeployRequestsService.List _ => None
  | DeployRequestsService.Create _ => None
  | DeployRequestsService.Get r => Some (GetDeployRequestRequest.Number r)
  | DeployRequestsService.Deploy r => Some (PerformDeployRequest.Number r)
  | DeployRequestsService.CancelDeploy r => Some (CancelDeployRequest.Number r)
  | DeployRequestsService.Close r => Some (CloseDeployRequestRequest.Number r)
  | DeployRequestsService.CreateReview r => Some (ReviewDeployRequestRequest.Number r)
  end.

(** [var _ DeployRequestsService = &deployRequestsService{}]: the
    service implements the interface with its methods. *)
Definition invoke (Request : Type) (databasesAPIPath : string -> string)
    (localOffset : Z -> Z) {A} (m : DeployRequestsService.method A)
    : prog Request (option A * option error) :=
  match m with
  | DeployRequestsService.List r =>
      deployRequestsService.List Request databasesAPIPath localOffset r
  | DeployRequestsService.Create r =>
      deployRequestsService.Create Request databasesAPIPath localOffset r
  | DeployRequestsService.Get r =>
      deployRequestsService.Get Request databasesAPIPath localOffset r
  | DeployRequestsService.Deploy r =>
      deployRequestsService.Deploy Request databasesAPIPath localOffset r
  | DeployRequestsService.CancelDeploy r =>
      deployRequestsService.CancelDeploy Request databasesAPIPath localOffset r
  | DeployRequestsService.Close r =>
      deployRequestsService.Close Request databasesAPIPath localOffset r
  | DeployRequestsService.CreateReview r =>
      deployRequestsService.CreateReview Request databasesAPIPath r
  end.

(** Modelled from the spec: the operations of the passwords service,
    "[Create(org, db, branch)], [List(org, db, branch)],
    [Get(org, db, branch, passwordId)]". *)
Module PasswordsService.
Inductive method : Type -> Type :=
| Create (createReq : DatabaseBranchPasswordRequest.t)
    : method DatabaseBranchPassword.t
| List (listReq : ListDatabaseBranchPasswordRequest.t)
    : method (list (option DatabaseBranchPassword.t))
| Get (getReq : GetDatabaseBranchPasswordRequest.t)
    : method DatabaseBranchPassword.t.
End PasswordsService.

Definition invokePasswords (Request : Type)
    (passwordsAPIPath : string -> string -> string -> string)
    (localOffset : Z -> Z) {A} (m : PasswordsService.method A)
    : prog Request (option A * option error) :=
  match m with
  | PasswordsService.Create r =>
      passwordsService.Create Request passwordsAPIPath localOffset r
  | PasswordsService.List r =>
      passwordsService.List Request passwordsAPIPath localOffset r
  | PasswordsService.Get r =>
      passwordsService.Get Request passwordsAPIPath localOffset r
  end.

(** *** The course of a method *)

(** Every method goes the same way: it has the client build one request,
    has it sent, and makes its result of the response. A [course] names
    the three things asked of [newRequest], what becomes of an error of
    [newRequest], and what is made of a response; [follow] is the run of
    such a course. That [invoke] and [invokePasswords] run as their
    courses are followed is proved below ([run_invoke],
    [run_invokePasswords]). *)
Section Course.

Variable Request : Type.

Record course (A : Type) : Type := Course {
  verb : string;
  path : string;
  payload : option json.goStruct;
  buildError : error -> error;
  finish : http.Response -> outcome (option A * option error)
}.

(** The body decoded into a zero record, and a pointer to it returned. *)
Definition decoded {A} (zero : A) (d : json.decoder A) (res : http.Response)
    : outcome (option A * option error) :=
  match json.Decode d (http.Body res) zero with
  | inr err => Returned (None, Some err)
  | inl x => Returned (Some x, None)
  end.

(** [errors.Wrap(err, "error creating http request")] for a non-nil [err]. *)
Definition wrapped (err : error) : error :=
  withMessage err "error creating http request".

Section Follow.

Variable State : Type.
Variable client : forall X : Type, call Request X -> State -> X * State.

Definition follow {A} (c : course A) (s : State)
    : outcome (option A * option error) * list (event Request) * State :=
  let build := newRequest (verb c) (path c) (payload c) in
  match client build s with
  | (inr err, s1) =>
      (Returned (None, Some (buildError c err)), [Event build (inr err)], s1)
  | (inl req, s1) =>
      match client (Do req) s1 with
      | (inr err, s2) =>
          (Returned (None, Some err),
           [Event build (inl req); Event (Do req) (inr err)], s2)
      | (inl res, s2) =>
          (finish c res,
           [Event build (inl req); Event (Do req) (inl res);
            Event (BodyClose res) tt],
           snd (client (BodyClose res) s2))
      end
  end.

End Follow.

Variable databasesAPIPath : string -> string.
Variable passwordsAPIPath : string -> string -> string -> string.
Variable localOffset : Z -> Z.

(** What [List] makes of a response. *)
Definition listed (res : http.Response)
    : outcome (option (list (option DeployRequest.t)) * option error) :=
  match json.Decode
          (json.storePtr deployRequestsResponse.zero
             (deployRequestsResponse.store localOffset))
          (http.Body res) (Some deployRequestsResponse.zero) with
  | inr err => Returned (None, Some err)
  | inl None => Panicked nilDereference
  | inl (Some resp) => Returned (deployRequestsResponse.DeployRequests resp, None)
  end.

Definition courseOf {A} (m : DeployRequestsService.method A) : course A :=
  match m in DeployRequestsService.method A return course A with
  | DeployRequestsService.List r =>
      Course http.MethodGet
        (deployRequestsService.deployRequestsAPIPath databasesAPIPath
           (ListDeployRequestsRequest.Organization r)
           (ListDeployRequestsRequest.Database r))
        None wrapped listed
  | DeployRequestsService.Create r =>
      Course http.MethodPost
        (deployRequestsService.deployRequestsAPIPath databasesAPIPath
           (CreateDeployRequestRequest.Organization r)
           (CreateDeployRequestRequest.Database r))
        (Some (CreateDeployRequestRequest.reflect r)) (fun err => err)
        (decoded DeployRequest.zero (DeployRequest.store localOffset))
  | DeployRequestsService.Get r =>
      Course http.MethodGet
        (deployRequestsService.deployRequestAPIPath databasesAPIPath
           (GetDeployRequestRequest.Organization r)
           (GetDeployRequestRequest.Database r)
           (GetDeployRequestRequest.Number r))
        None wrapped
        (decoded DeployRequest.zero (DeployRequest.store localOffset))
  | DeployRequestsService.Deploy r =>
      Course http.MethodPost
        (deployRequestsService.deployRequestActionAPIPath databasesAPIPath
           (PerformDeployRequest.Organization r)
           (PerformDeployRequest.Database r)
           (PerformDeployRequest.Number r) "deploy")
        (Some (PerformDeployRequest.reflect r)) wrapped
        (decoded DeployRequest.zero (DeployRequest.store localOffset))
  | DeployRequestsService.CancelDeploy r =>
      Course http.MethodPost
        (deployRequestsService.deployRequestActionAPIPath databasesAPIPath
           (CancelDeployRequest.Organization r)
           (CancelDeployRequest.Database r)
           (CancelDeployRequest.Number r) "cancel")
        (Some (CancelDeployRequest.reflect r)) wrapped
        (decoded DeployRequest.zero (DeployRequest.store localOffset))
  | DeployRequestsService.Close r =>
      Course http.MethodPatch
        (deployRequestsService.deployRequestAPIPath databasesAPIPath
           (CloseDeployRequestRequest.Organization r)
           (CloseDeployRequestRequest.Database r)
           (CloseDeployRequestRequest.Number r))
        (Some (CloseRequest.reflect (CloseRequest.mk "closed"))) wrapped
        (decoded DeployRequest.zero (DeployRequest.store localOffset))
  | DeployRequestsService.CreateReview r =>
      Course http.MethodGet
        (deployRequestsService.deployRequestActionAPIPath databasesAPIPath
           (ReviewDeployRequestRequest.Organization r)
           (ReviewDeployRequestRequest.Database r)
           (ReviewDeployRequestRequest.Number r) "reviews")
        (Some (ReviewDeployRequestRequest.reflect r)) wrapped
        (decoded DeployRequestReview.zero DeployRequestReview.store)
  end.

(** What [List] of the passwords service makes of a response. *)
Definition listedPasswords (res : http.Response)
    : outcome (option (list (option DatabaseBranchPassword.t)) * option error) :=
  match json.Decode (passwordsResponse.store localOffset) (http.Body res)
          passwordsResponse.zero with
  | inr err => Returned (None, Some err)
  | inl resp => Returned (passwordsResponse.Passwords resp, None)
  end.

Definition coursePasswords {A} (m : PasswordsService.method A) : course A :=
  match m in PasswordsService.method A return course A with
  | PasswordsService.Create r =>
      Course http.MethodPost
        (passwordsAPIPath
           (DatabaseBranchPasswordRequest.Organization r)
           (DatabaseBranchPasswordRequest.Database r)
           (DatabaseBranchPasswordRequest.Branch r))
        (Some (DatabaseBranchPasswordRequest.reflect r)) wrapped
        (decoded DatabaseBranchPassword.zero
           (DatabaseBranchPassword.store localOffset))
  | PasswordsService.List r =>
      Course http.MethodGet
        (passwordsAPIPath
           (ListDatabaseBranchPasswordRequest.Organization r)
           (ListDatabaseBranchPasswordRequest.Database r)
           (ListDatabaseBranchPasswordRequest.Branch r))
        None wrapped listedPasswords
  | PasswordsService.Get r =>
      Course http.MethodGet
        (passwordsService.passwordAPIPath passwordsAPIPath
           (GetDatabaseBranchPasswordRequest.Organization r)
           (GetDatabaseBranchPasswordRequest.Database r)
           (GetDatabaseBranchPasswordRequest.Branch r)
           (GetDatabaseBranchPasswordRequest.PasswordId r))
        None wrapped
        (decoded DatabaseBranchPassword.zero
           (DatabaseBranchPassword.store localOffset))
  end.

End Course.

Arguments follow {Request State} client {A}.

(** *** Path parameters *)

(** The fields of the request structs that name the resource. *)
Definition isPathParameter (goName : string) : bool :=
  existsb (String.eqb goName) ["Organization"; "Database"; "Number"].

(** In a body, every field that names the resource is left out of the
    JSON object. *)
Definition pathParametersOmitted (body : option json.goStruct) : bool :=
  match body with
  | None => true
  | Some g =>
      forallb
        (fun f =>
           implb (isPathParameter (json.goName f))
             match json.memberName f with
             | None => true
             | Some _ => false
             end) g
  end.

(** *** A server that reports nothing *)

(** The member name goes to the field [data]. *)
Definition isData (rawKey : string) : bool :=
  match json.unquote rawKey with
  | Some key => String.eqb (json.foldName key) "DATA"
  | None => false
  end.

Definition unquotes (rawKey : string) : bool :=
  match json.unquote rawKey with
  | Some _ => true
  | None => false
  end.

(** The body reports an empty sequence: it is an object with exactly
    one member that goes to [data], and that member is the empty array. *)
Definition reportsNone (body : string) : bool :=
  match json.readValue body with
  | inl (json.Object members) =>
      match filter (fun m => isData (fst m)) members with
      | [(_, json.Array [])] => true
      | _ => false
      end
  | _ => false
  end.

(** The body reports no sequence at all: it is an object with no
    member that goes to [data], or whose one such member is [null]. *)
Definition reportsNil (body : string) : bool :=
  match json.readValue body with
  | inl (json.Object members) =>
      match filter (fun m => isData (fst m)) members with
      | [] => true
      | [(_, json.Null)] => true
      | _ => false
      end
  | _ => false
  end.

(** *** Bodies that name nothing, and the elements of a list *)

(** The member name matches no field of the table. *)
Definition unrecognised {T} (fields : list (json.field T)) (rawKey : string) : bool :=
  match json.unquote rawKey with
  | Some key =>
      match json.findField fields key with
      | None => true
      | Some _ => false
      end
  | None => false
  end.

(** The body is [null], or an object none of whose members matches a
    field of the table. *)
Definition blank {T} (fields : list (json.field T)) (body : string) : bool :=
  match json.readValue body with
  | inl json.Null => true
  | inl (json.Object members) =>
      forallb (fun m => unrecognised fields (fst m)) members
  | _ => false
  end.

(** The table of fields of the record a method decodes; [List] decodes
    an envelope and has none of its own. *)
Definition recordFields (localOffset : Z -> Z) {A}
    (m : DeployRequestsService.method A) : list (json.field A) :=
  match m in DeployRequestsService.method A return list (json.field A) with
  | DeployRequestsService.List _ => []
  | DeployRequestsService.Create _ => DeployRequest.fields localOffset
  | DeployRequestsService.Get _ => DeployRequest.fields localOffset
  | DeployRequestsService.Deploy _ => DeployRequest.fields localOffset
  | DeployRequestsService.CancelDeploy _ => DeployRequest.fields localOffset
  | DeployRequestsService.Close _ => DeployRequest.fields localOffset
  | DeployRequestsService.CreateReview _ => DeployRequestReview.fields
  end.

(** The elements of the array of the one member of the body that goes
    to [data]. *)
Definition dataOf (body : string) : option (list json.value) :=
  match json.readValue body with
  | inl (json.Object members) =>
      match filter (fun m => isData (fst m)) members with
      | [(_, json.Array elems)] => Some elems
      | _ => None
      end
  | _ => None
  end.

(** No member of the object has the name [name], in any spelling. *)
Definition absent (name : string) (members : list (string * json.value)) : bool :=
  forallb
    (fun m =>
       match json.unquote (fst m) with
       | Some key => negb (String.eqb (json.foldName key) (json.foldName name))
       | None => true
       end) members.

(** Every field of the deploy request [r] whose name no member of the
    object has is as it is in [old]. *)
Definition keptWhereAbsent (members : list (string * json.value))
    (r old : DeployRequest.t) : Prop :=
  (absent "id" members = true -> DeployRequest.ID r = DeployRequest.ID old)
  /\ (absent "branch" members = true ->
      DeployRequest.Branch r = DeployRequest.Branch old)
  /\ (absent "into_branch" members = true ->
      DeployRequest.IntoBranch r = DeployRequest.IntoBranch old)
  /\ (absent "number" members = true ->
      DeployRequest.Number r = DeployRequest.Number old)
  /\ (absent "deployability_errors" members = true ->
      DeployRequest.DeployabilityErrors r = DeployRequest.DeployabilityErrors old)
  /\ (absent "deployment_state" members = true ->
      DeployRequest.DeploymentState r = DeployRequest.DeploymentState old)
  /\ (absent "state" members = true ->
      DeployRequest.State r = DeployRequest.State old)
  /\ (absent "ready" members = true ->
      DeployRequest.Ready r = DeployRequest.Ready old)
  /\ (absent "approved" members = true ->
      DeployRequest.Approved r = DeployRequest.Approved old)
  /\ (absent "deployed" members = true ->
      DeployRequest.Deployed r = DeployRequest.Deployed old)
  /\ (absent "notes" members = true ->
      DeployRequest.Notes r = DeployRequest.Notes old)
  /\ (absent "created_at" members = true ->
      DeployRequest.CreatedAt r = DeployRequest.CreatedAt old)
  /\ (absent "updated_at" members = true ->
      DeployRequest.UpdatedAt r = DeployRequest.UpdatedAt old)
  /\ (absent "closed_at" members = true ->
      DeployRequest.ClosedAt r = DeployRequest.ClosedAt old).

(** An element of a list is nil exactly where the array has [null]. *)
Definition nilWhereNull {A} (v : json.value) (p : option A) : Prop :=
  v = json.Null <-> p = None.

(** The entry of the list that an element of the array gives: what
    the element decodes to through a fresh pointer to a deploy request,
    with no error; nil for [null]. *)
Definition entryOf (localOffset : Z -> Z) (v : json.value)
    (p : option DeployRequest.t) : Prop :=
  json.storePtr DeployRequest.zero (DeployRequest.store localOffset) v None None =
  json.Done p None.

(** A body that says the number of a deploy request and nothing else. *)
Definition numbered (n : N) : string :=
  (json.text "{'number':" ++ fmt.fmtInteger n ++ "}")%string.

(** *** A client for examples *)

(** A client with no state of its own: its requests record what
    [newRequest] was given; building fails with [buildError] if there is
    one, and every request is answered with [answer]. *)
Module scripted.
Definition Request : Type := (string * string * option json.goStruct)%type.

Definition client (buildError : option error) (answer : http.Response + error)
    : forall X : Type, call Request X -> unit -> X * unit :=
  fun X c s =>
    match c in call _ X return X * unit with
    | newRequest method path body =>
        (match buildError with
         | Some err => inr err
         | None => inl (method, path, body)
         end, s)
    | Do _ => (answer, s)
    | BodyClose _ => (tt, s)
    end.

(** A server that answers [200] with the given body. *)
Definition serving (body : string) : forall X : Type, call Request X -> unit -> X * unit :=
  client None (inl (http.mkResponse 200 body)).

(** [databasesAPIPath] for examples. *)
Definition databasesAPIPath (org : string) : string :=
  fmt.Sprintf "organizations/%s/databases" [fmt.Str org].

(** The collection path of passwords for examples. *)
Definition passwordsAPIPath (org db branch : string) : string :=
  fmt.Sprintf "%s/%s/branches/%s/passwords"
    [fmt.Str (databasesAPIPath org); fmt.Str db; fmt.Str branch].

(** The local zone of the examples is UTC. *)
Definition localOffset (unix : Z) : Z := 0%Z.

(** An error of the transport. *)
Definition refused : error :=
  New "dial tcp 127.0.0.1:443: connect: connection refused".

(** Requests for the deploy request 1 of database [db] of [org]. *)
Definition getReq : GetDeployRequestRequest.t :=
  GetDeployRequestRequest.mk "org" "db" 1.

Definition listReq : ListDeployRequestsRequest.t :=
  ListDeployRequestsRequest.mk "org" "db".

Definition closeReq : CloseDeployRequestRequest.t :=
  CloseDeployRequestRequest.mk "org" "db" 1.

Definition passwordReq : DatabaseBranchPasswordRequest.t :=
  DatabaseBranchPasswordRequest.mk "my-org" "my-db" "my-branch".

Definition listPasswordsReq : ListDatabaseBranchPasswordRequest.t :=
  ListDatabaseBranchPasswordRequest.mk "my-org" "planetscale-go-test-db" "my-branch".

(** The body of an empty list. *)
Definition emptyList : string := json.text "{'data':[]}".
End scripted.

(** *** The bodies of the scenarios *)

(** The body with which the server answers the creation of a password. *)
Definition createdBody : string :=
  json.text "{'id':'x','username':'x','role':'writer','plain_text':'secret','display_name':'x','created_at':'2021-01-14T10:19:23.000Z'}".

(** The timestamp of the server, as a JSON string, and a deploy request
    that carries it in its three timestamps. *)
Definition stamp : string := json.text "'2021-01-14T10:19:23.000Z'".

Definition stamped : string :=
  json.text "{'created_at':'2021-01-14T10:19:23.000Z','updated_at':'2021-01-14T10:19:23.000Z','closed_at':'2021-01-14T10:19:23.000Z'}".

End planetscale.

(* ===================================================================== *)
(** * Properties                                                          *)
(* ===================================================================== *)

(** ** Strings and decimal numerals *)

Section FmtFacts.

Import fmt.
Local Open Scope N_scope.

Lemma append_assoc (a b c : string) : ((a ++ b) ++ c = a ++ (b ++ c))%string.
Proof. induction a as [|x a IH]; simpl; [reflexivity | now rewrite IH]. Qed.

Lemma append_nil_r (a : string) : (a ++ "" = a)%string.
Proof. induction a as [|x a IH]; simpl; [reflexivity | now rewrite IH]. Qed.

Lemma digitValue_digit (d : N) : d < 10 -> digitValue (digit d) = Some d.
Proof.
  intros H. unfold digitValue, digit.
  rewrite N_ascii_embedding by lia.
  replace ((48 <=? 48 + d) && (48 + d <=? 57))%bool with true.
  - f_equal. lia.
  - symmetry. apply andb_true_iff. split; apply N.leb_le; lia.
Qed.

Lemma digit_zero (d : N) : d < 10 -> digit d = "0"%char -> d = 0.
Proof.
  intros H E. unfold digit in E.
  apply (f_equal N_of_ascii) in E. rewrite N_ascii_embedding in E by lia.
  change (N_of_ascii "0") with 48 in E. lia.
Qed.

(** The digits are written in front of the buffer. *)
Lemma fmtDigits_buf (fuel : nat) : forall u buf,
  fmtDigits fuel u buf = (fmtDigits fuel u "" ++ buf)%string.
Proof.
  induction fuel as [|fuel IH]; intros u buf; simpl.
  - reflexivity.
  - destruct (10 <=? u).
    + rewrite IH. rewrite (IH _ (String _ "")).
      rewrite append_assoc. reflexivity.
    + reflexivity.
Qed.

Lemma decimalValueFrom_app (s t : string) : forall acc,
  decimalValueFrom acc (s ++ t) =
  match decimalValueFrom acc s with
  | Some a => decimalValueFrom a t
  | None => None
  end.
Proof.
  induction s as [|c s IH]; intros acc; simpl.
  - reflexivity.
  - destruct (digitValue c); [apply IH | reflexivity].
Qed.

(** With a buffer wide enough the digits written have the value of the
    number. *)
Lemma fmtDigits_value (fuel : nat) : forall u,
  u < 10 ^ N.of_nat fuel ->
  decimalValueFrom 0 (fmtDigits fuel u "") = Some u.
Proof.
  induction fuel as [|fuel IH]; intros u Hu.
  - simpl in Hu. assert (u = 0) by lia. subst. reflexivity.
  - cbn [fmtDigits]. destruct (10 <=? u) eqn:E.
    + apply N.leb_le in E.
      rewrite fmtDigits_buf, decimalValueFrom_app.
      rewrite IH.
      * cbn [decimalValueFrom]. rewrite digitValue_digit by (apply N.mod_lt; lia).
        cbn [decimalValueFrom]. f_equal.
        pose proof (N.div_mod u 10). lia.
      * rewrite Nnat.Nat2N.inj_succ, N.pow_succ_r' in Hu.
        apply N.Div0.div_lt_upper_bound. lia.
    + apply N.leb_gt in E. cbn [decimalValueFrom].
      rewrite digitValue_digit by lia. cbn. f_equal.
Qed.

Lemma fmtDigits_head (fuel : nat) : forall u buf,
  0 < u < 10 ^ N.of_nat fuel ->
  exists d rest, 0 < d < 10 /\ fmtDigits fuel u buf = String (digit d) rest.
Proof.
  induction fuel as [|fuel IH]; intros u buf [Hpos Hu].
  - simpl in Hu. lia.
  - cbn [fmtDigits]. destruct (10 <=? u) eqn:E.
    + apply N.leb_le in E. apply IH. split.
      * apply N.div_str_pos. lia.
      * rewrite Nnat.Nat2N.inj_succ, N.pow_succ_r' in Hu.
        apply N.Div0.div_lt_upper_bound. lia.
    + apply N.leb_gt in E. exists u, buf. split; [lia | reflexivity].
Qed.

(** The buffer of [fmtInteger] is wide enough for its number. *)
Lemma fmtInteger_fuel (u : N) : u < 10 ^ N.of_nat (S (N.to_nat (N.log2 u))).
Proof.
  rewrite Nnat.Nat2N.inj_succ, Nnat.N2Nat.id.
  destruct (N.eq_dec u 0) as [->|Hnz]; [reflexivity|].
  apply N.lt_le_trans with (2 ^ N.succ (N.log2 u)).
  - apply N.log2_spec. lia.
  - apply N.pow_le_mono_l. lia.
Qed.

(** [%d] prints the decimal string of its operand. *)
Lemma fmtInteger_decimalOf (u : N) : decimalOf u (fmtInteger u).
Proof.
  split.
  - unfold decimalValue, fmtInteger.
    destruct (fmtDigits (S (N.to_nat (N.log2 u))) u "") eqn:E.
    + exfalso. revert E. cbn [fmtDigits]. destruct (10 <=? u).
      * rewrite fmtDigits_buf.
        destruct (fmtDigits (N.to_nat (N.log2 u)) (u / 10) ""); discriminate.
      * discriminate.
    + rewrite <- E. apply fmtDigits_value, fmtInteger_fuel.
  - destruct (N.eq_dec u 0) as [->|Hnz].
    + left. reflexivity.
    + right. unfold fmtInteger.
      destruct (fmtDigits_head (S (N.to_nat (N.log2 u))) (u := u) "")
        as (d & rest & Hd & E).
      * split; [lia | apply fmtInteger_fuel].
      * exists (digit d), rest. split; [exact E|].
        intros Hz. apply digit_zero in Hz; lia.
Qed.

End FmtFacts.

Section DecimalUnique.
Import fmt.
Local Open Scope N_scope.

Lemma digitValue_lt (c : ascii) (d : N) : digitValue c = Some d -> d < 10.
Proof.
  unfold digitValue.
  destruct ((48 <=? N_of_ascii c) && (N_of_ascii c <=? 57))%bool eqn:E; [|discriminate].
  apply andb_true_iff in E. destruct E as [E1 E2].
  apply N.leb_le in E1, E2. intros H. inversion H. lia.
Qed.

Lemma digitValue_inj (c c' : ascii) (d : N) :
  digitValue c = Some d -> digitValue c' = Some d -> c = c'.
Proof.
  unfold digitValue.
  destruct ((48 <=? N_of_ascii c) && (N_of_ascii c <=? 57))%bool eqn:E; [|discriminate].
  destruct ((48 <=? N_of_ascii c') && (N_of_ascii c' <=? 57))%bool eqn:E'; [|discriminate].
  apply andb_true_iff in E, E'. destruct E as [E1 _], E' as [E1' _].
  apply N.leb_le in E1, E1'. intros H H'. inversion H. inversion H'.
  rewrite <- (ascii_N_embedding c), <- (ascii_N_embedding c'). f_equal. lia.
Qed.

(** The value of a digit string lies in the window of its length. *)
Lemma decimalValueFrom_bounds (s : string) : forall acc v,
  decimalValueFrom acc s = Some v ->
  acc * 10 ^ N.of_nat (String.length s) <= v
  /\ v < (acc + 1) * 10 ^ N.of_nat (String.length s).
Proof.
  induction s as [|c s IH]; intros acc v H; cbn [decimalValueFrom] in H.
  - inversion H; subst. simpl. lia.
  - destruct (digitValue c) as [d|] eqn:Ed; [|discriminate].
    apply digitValue_lt in Ed. apply IH in H.
    cbn [String.length]. rewrite Nnat.Nat2N.inj_succ, N.pow_succ_r'.
    set (P := 10 ^ N.of_nat (String.length s)) in *.
    destruct H as [H1 H2].
    replace ((10 * acc + d) * P) with (10 * acc * P + d * P) in H1 by ring.
    replace ((10 * acc + d + 1) * P) with (10 * acc * P + (d + 1) * P) in H2 by ring.
    replace (acc * (10 * P)) with (10 * acc * P) by ring.
    replace ((acc + 1) * (10 * P)) with (10 * acc * P + 10 * P) by ring.
    assert ((d + 1) * P <= 10 * P) by (apply N.mul_le_mono_r; lia).
    lia.
Qed.

Lemma decimalValueFrom_inj (s : string) : forall t acc acc' v,
  String.length s = String.length t ->
  decimalValueFrom acc s = Some v -> decimalValueFrom acc' t = Some v ->
  acc = acc' /\ s = t.
Proof.
  induction s as [|c s IH]; intros [|c' t] acc acc' v Hlen H H'; try discriminate.
  - simpl in H, H'. split; [congruence | reflexivity].
  - cbn [decimalValueFrom] in H, H'.
    destruct (digitValue c) as [d|] eqn:Ed; [|discriminate].
    destruct (digitValue c') as [d'|] eqn:Ed'; [|discriminate].
    simpl in Hlen. injection Hlen as Hlen.
    destruct (IH t _ _ v Hlen H H') as [Hacc ->].
    pose proof (digitValue_lt _ Ed). pose proof (digitValue_lt _ Ed').
    assert (acc = acc') by lia. assert (d = d') by lia. subst.
    split; [reflexivity|]. f_equal. eapply digitValue_inj; eauto.
Qed.

(** A number has one decimal string. *)
Lemma decimalOf_unique (n : N) (s t : string) :
  decimalOf n s -> decimalOf n t -> s = t.
Proof.
  assert (Hlead : forall s, decimalOf n s -> s <> "0"%string ->
            10 ^ N.of_nat (String.length s) <= 10 * n /\ n < 10 ^ N.of_nat (String.length s)).
  { intros u [Hv [->|(c & rest & -> & Hc)]] Hne; [congruence|].
    unfold decimalValue in Hv. cbn [decimalValueFrom] in Hv.
    destruct (digitValue c) as [d|] eqn:Ed; [|discriminate].
    assert (d <> 0).
    { intros ->. apply Hc. unfold digitValue in Ed.
      destruct ((48 <=? N_of_ascii c) && (N_of_ascii c <=? 57))%bool eqn:E; [|discriminate].
      apply andb_true_iff in E. destruct E as [E1 _]. apply N.leb_le in E1.
      inversion Ed. rewrite <- (ascii_N_embedding c).
      replace (N_of_ascii c) with 48 by lia. reflexivity. }
    pose proof (digitValue_lt _ Ed).
    apply decimalValueFrom_bounds in Hv.
    cbn [String.length]. rewrite Nnat.Nat2N.inj_succ, N.pow_succ_r'.
    set (P := 10 ^ N.of_nat (String.length rest)) in *.
    destruct Hv as [H1 H2].
    replace ((10 * 0 + d) * P) with (d * P) in H1 by ring.
    replace ((10 * 0 + d + 1) * P) with ((d + 1) * P) in H2 by ring.
    assert (1 * P <= d * P) by (apply N.mul_le_mono_r; lia).
    assert ((d + 1) * P <= 10 * P) by (apply N.mul_le_mono_r; lia).
    lia. }
  assert (Hzero : decimalOf n "0" -> n = 0).
  { intros [Hv _]. vm_compute in Hv. congruence. }
  intros Hs Ht.
  destruct (string_dec s "0") as [->|Hs0]; destruct (string_dec t "0") as [->|Ht0].
  - reflexivity.
  - apply Hzero in Hs. subst n. destruct (Hlead t Ht Ht0) as [H1 _].
    pose proof (N.pow_nonzero 10 (N.of_nat (String.length t))). lia.
  - apply Hzero in Ht. subst n. destruct (Hlead s Hs Hs0) as [H1 _].
    pose proof (N.pow_nonzero 10 (N.of_nat (String.length s))). lia.
  - destruct (Hlead s Hs Hs0) as [H1 H2]. destruct (Hlead t Ht Ht0) as [H1' H2'].
    assert (Hlen : String.length s = String.length t).
    { destruct (Nat.lt_trichotomy (String.length s) (String.length t)) as [L|[L|L]];
        [|exact L|].
      - exfalso.
        assert (10 * 10 ^ N.of_nat (String.length s) <= 10 ^ N.of_nat (String.length t)).
        { rewrite <- N.pow_succ_r'. apply N.pow_le_mono_r; lia. }
        lia.
      - exfalso.
        assert (10 * 10 ^ N.of_nat (String.length t) <= 10 ^ N.of_nat (String.length s)).
        { rewrite <- N.pow_succ_r'. apply N.pow_le_mono_r; lia. }
        lia. }
    destruct Hs as [Hv _], Ht as [Hv' _]. unfold decimalValue in Hv, Hv'.
    destruct s; [discriminate|]. destruct t; [discriminate|].
    exact (proj2 (decimalValueFrom_inj _ _ _ _ Hlen Hv Hv')).
Qed.
End DecimalUnique.

(** ** Path construction *)

Section Paths.

Import planetscale.deployRequestsService.

Variable databasesAPIPath : string -> string.

Lemma deployRequestActionAPIPath_eq (org db : string) (number : N) (path : string) :
  deployRequestActionAPIPath databasesAPIPath org db number path =
  (deployRequestAPIPath databasesAPIPath org db number ++ "/" ++ path)%string.
Proof.
  unfold deployRequestActionAPIPath. simpl.
  rewrite append_nil_r. reflexivity.
Qed.

Lemma deployRequestAPIPath_eq (org db : string) (number : N) :
  deployRequestAPIPath databasesAPIPath org db number =
  (deployRequestsAPIPath databasesAPIPath org db ++ "/" ++ fmt.fmtInteger number)%string.
Proof.
  unfold deployRequestAPIPath, deployRequestsAPIPath. simpl.
  rewrite append_nil_r, append_assoc. simpl.
  rewrite append_assoc. reflexivity.
Qed.

(** C1. For every organization [o], database [d], number [n] and verb
    [v], the action path is the single-resource path followed by [/] and
    [v], and the single-resource path is the collection path followed by
    [/] and the decimal string of [n]. *)
Theorem path_builders_concatenate (o d : string) (n : N) (v : string) :
  deployRequestActionAPIPath databasesAPIPath o d n v =
    (deployRequestAPIPath databasesAPIPath o d n ++ "/" ++ v)%string
  /\ exists dec : string,
       fmt.decimalOf n dec
       /\ deployRequestAPIPath databasesAPIPath o d n =
          (deployRequestsAPIPath databasesAPIPath o d ++ "/" ++ dec)%string.
Proof.
  split.
  - apply deployRequestActionAPIPath_eq.
  - exists (fmt.fmtInteger n). split.
    + apply fmtInteger_decimalOf.
    + apply deployRequestAPIPath_eq.
Qed.

End Paths.

(** ** The methods run as their courses are followed *)

Section Runs.

Import errors planetscale.

Variable Request : Type.
Variable databasesAPIPath : string -> string.
Variable passwordsAPIPath : string -> string -> string -> string.
Variable localOffset : Z -> Z.
Variable State : Type.
Variable client : forall X : Type, call Request X -> State -> X * State.

Local Arguments json.Decode : simpl never.
Local Arguments deployRequestsService.deployRequestAPIPath : simpl never.
Local Arguments deployRequestsService.deployRequestsAPIPath : simpl never.
Local Arguments deployRequestsService.deployRequestActionAPIPath : simpl never.
Local Arguments passwordsService.passwordAPIPath : simpl never.

(** Case analysis on the next answer of the client or of the decoder. *)
Ltac answer :=
  match goal with
  | |- context [client ?c ?s] =>
      let x := fresh "x" in
      let s' := fresh "s" in
      destruct (client c s) as [x s'] eqn:?; try destruct x
  | |- context [json.Decode ?d ?b ?o] =>
      let x := fresh "x" in
      destruct (json.Decode d b o) as [x|?] eqn:?;
      try match type of x with option _ => destruct x end
  end; simpl.

Lemma run_invoke A (m : DeployRequestsService.method A) (s : State) :
  run client (invoke Request databasesAPIPath localOffset m) s =
  follow client (courseOf databasesAPIPath localOffset m) s.
Proof.
  destruct m;
    cbv [follow courseOf verb path payload buildError finish decoded listed wrapped];
    simpl; repeat answer; congruence.
Qed.

Lemma run_invokePasswords A (m : PasswordsService.method A) (s : State) :
  run client (invokePasswords Request passwordsAPIPath localOffset m) s =
  follow client (coursePasswords passwordsAPIPath localOffset m) s.
Proof.
  destruct m;
    cbv [follow coursePasswords verb path payload buildError finish decoded
         listedPasswords wrapped];
    simpl; repeat answer; congruence.
Qed.

(** *** What following a course does *)

Section FollowFacts.

Variable A : Type.
Variable c : course A.
Variable s : State.

Lemma follow_exchange :
  exchange (verb c) (path c) (payload c) (traceOf (follow client c s)).
Proof.
  unfold follow, traceOf.
  destruct (client (newRequest _ _ _) s) as [[req|err] s1]; simpl.
  - destruct (client (Do req) s1) as [[res|err] s2]; simpl; constructor.
  - constructor.
Qed.

Lemma follow_answered (res : http.Response) :
  In res (responses (traceOf (follow client c s))) ->
  responses (traceOf (follow client c s)) = [res]
  /\ outcomeOf (follow client c s) = finish c res.
Proof.
  unfold follow, traceOf, outcomeOf.
  destruct (client (newRequest _ _ _) s) as [[req|err] s1]; simpl.
  - destruct (client (Do req) s1) as [[res'|err] s2]; simpl.
    + intros [<-|[]]. split; reflexivity.
    + intros [].
  - intros [].
Qed.

Lemma follow_unanswered :
  responses (traceOf (follow client c s)) = [] ->
  exists err, outcomeOf (follow client c s) = Returned (None, Some err).
Proof.
  unfold follow, traceOf, outcomeOf.
  destruct (client (newRequest _ _ _) s) as [[req|err] s1]; simpl.
  - destruct (client (Do req) s1) as [[res'|err] s2]; simpl.
    + discriminate.
    + intros _. eexists. reflexivity.
  - intros _. eexists. reflexivity.
Qed.

Lemma follow_transport_failure (err : error) :
  In err (transportErrors (traceOf (follow client c s))) ->
  outcomeOf (follow client c s) = Returned (None, Some err)
  /\ exists req,
       traceOf (follow client c s) =
       [Event (newRequest (verb c) (path c) (payload c)) (inl req);
        Event (Do req) (inr err)].
Proof.
  unfold follow, traceOf, outcomeOf.
  destruct (client (newRequest _ _ _) s) as [[req|err'] s1]; simpl.
  - destruct (client (Do req) s1) as [[res'|err'] s2]; simpl.
    + intros [].
    + intros [<-|[]]. split; [reflexivity | exists req; reflexivity].
  - intros [].
Qed.

End FollowFacts.

(** An exchange is at most one round trip, and one when the request was
    built. *)
Lemma exchange_roundTrips method path body (tr : list (event Request)) :
  exchange method path body tr ->
  roundTrips tr = (if built tr then 1 else 0)%nat.
Proof. intros []; reflexivity. Qed.

Lemma exchange_at_most_once method path body (tr : list (event Request)) :
  exchange method path body tr -> (roundTrips tr <= 1)%nat.
Proof. intros []; simpl; unfold roundTrips; simpl; lia. Qed.

(** ** The claims about the calls made *)

(** C2. For every input, [CreateReview] makes its one request with the
    verb GET, against the [reviews] action path of the deploy request,
    and what comes back is decoded as a [DeployRequestReview]. *)
Theorem CreateReview_issues_GET (reviewReq : ReviewDeployRequestRequest.t)
    (s : State) :
  let r := run client
             (deployRequestsService.CreateReview Request databasesAPIPath reviewReq) s in
  let single :=
    deployRequestsService.deployRequestAPIPath databasesAPIPath
      (ReviewDeployRequestRequest.Organization reviewReq)
      (ReviewDeployRequestRequest.Database reviewReq)
      (ReviewDeployRequestRequest.Number reviewReq) in
  http.MethodGet = "GET"
  /\ exchange "GET" (single ++ "/reviews")
       (Some (ReviewDeployRequestRequest.reflect reviewReq)) (traceOf r)
  /\ roundTrips (traceOf r) = (if built (traceOf r) then 1 else 0)%nat
  /\ match responses (traceOf r) with
     | res :: _ =>
         outcomeOf r = decoded DeployRequestReview.zero DeployRequestReview.store res
     | [] => exists err, outcomeOf r = Returned (None, Some err)
     end.
Proof.
  intros r single. subst r single.
  change (deployRequestsService.CreateReview Request databasesAPIPath reviewReq)
    with (invoke Request databasesAPIPath localOffset
            (DeployRequestsService.CreateReview reviewReq)).
  rewrite run_invoke.
  set (c := courseOf databasesAPIPath localOffset
              (DeployRequestsService.CreateReview reviewReq)).
  pose proof (follow_exchange c s) as Hex.
  split; [reflexivity|].
  split.
  { pose proof (deployRequestActionAPIPath_eq databasesAPIPath
                  (ReviewDeployRequestRequest.Organization reviewReq)
                  (ReviewDeployRequestRequest.Database reviewReq)
                  (ReviewDeployRequestRequest.Number reviewReq) "reviews") as Hpath.
    simpl in Hpath. rewrite <- Hpath. exact Hex. }
  split.
  { eapply exchange_roundTrips; exact Hex. }
  destruct (responses (traceOf (follow client c s))) as [|res rest] eqn:E.
  - apply follow_unanswered; exact E.
  - apply (follow_answered c s res). rewrite E. left; reflexivity.
Qed.

(** C9. Every operation of both services makes at most one HTTP round
    trip per call, and exactly one when the request could be built. *)
Theorem one_round_trip_per_call :
  (forall A (m : DeployRequestsService.method A) (s : State),
     let tr := traceOf (run client (invoke Request databasesAPIPath localOffset m) s) in
     (roundTrips tr <= 1)%nat
     /\ roundTrips tr = (if built tr then 1 else 0)%nat)
  /\ (forall A (m : PasswordsService.method A) (s : State),
        let tr := traceOf (run client
                             (invokePasswords Request passwordsAPIPath localOffset m) s) in
        (roundTrips tr <= 1)%nat
        /\ roundTrips tr = (if built tr then 1 else 0)%nat).
Proof.
  split; intros A m s tr; subst tr.
  - rewrite run_invoke. split.
    + eapply exchange_at_most_once, follow_exchange.
    + eapply exchange_roundTrips, follow_exchange.
  - rewrite run_invokePasswords. split.
    + eapply exchange_at_most_once, follow_exchange.
    + eapply exchange_roundTrips, follow_exchange.
Qed.

(** C4. For every input, [Close] builds one request with the verb PATCH
    on the single-resource path of the deploy request, with the fixed
    body whose only member is [state], set to [closed]; the request
    built is sent once; and what [Close] returns is the [DeployRequest]
    decoded from the body of the response. *)
Theorem Close_sends_fixed_patch (closeReq : CloseDeployRequestRequest.t)
    (s : State) :
  let r := run client
             (deployRequestsService.Close Request databasesAPIPath localOffset closeReq) s in
  let single :=
    deployRequestsService.deployRequestAPIPath databasesAPIPath
      (CloseDeployRequestRequest.Organization closeReq)
      (CloseDeployRequestRequest.Database closeReq)
      (CloseDeployRequestRequest.Number closeReq) in
  let update := CloseRequest.reflect (CloseRequest.mk "closed") in
  http.MethodPatch = "PATCH"
  /\ json.Marshal update = [("state", json.VString "closed")]
  /\ exchange "PATCH" single (Some update) (traceOf r)
  /\ roundTrips (traceOf r) = (if built (traceOf r) then 1 else 0)%nat
  /\ match responses (traceOf r) with
     | res :: _ =>
         outcomeOf r =
         match json.Decode (DeployRequest.store localOffset) (http.Body res)
                 DeployRequest.zero with
         | inl dr => Returned (Some dr, None)
         | inr err => Returned (None, Some err)
         end
     | [] => exists err, outcomeOf r = Returned (None, Some err)
     end.
Proof.
  intros r single update. subst r single update.
  change (deployRequestsService.Close Request databasesAPIPath localOffset closeReq)
    with (invoke Request databasesAPIPath localOffset
            (DeployRequestsService.Close closeReq)).
  rewrite run_invoke.
  set (c := courseOf databasesAPIPath localOffset (DeployRequestsService.Close closeReq)).
  pose proof (follow_exchange c s) as Hex.
  split; [reflexivity|].
  split; [reflexivity|].
  split; [exact Hex|].
  split.
  { eapply exchange_roundTrips; exact Hex. }
  destruct (responses (traceOf (follow client c s))) as [|res rest] eqn:E.
  - apply follow_unanswered; exact E.
  - destruct (follow_answered c s res) as [_ Hout].
    + rewrite E. left; reflexivity.
    + rewrite Hout. unfold c, courseOf, finish, decoded.
      destruct (json.Decode _ _ _); reflexivity.
Qed.

(** C7, as amended. For every operation of the deploy requests service,
    an error with which the transport answers is returned to the caller
    as it is, with a nil result and with no prefix added; the request was
    sent once and nothing else was done. *)
Theorem transport_failure_returned_unchanged A
    (m : DeployRequestsService.method A) (s : State) (err : error) :
  let r := run client (invoke Request databasesAPIPath localOffset m) s in
  In err (transportErrors (traceOf r)) ->
  outcomeOf r = Returned (None, Some err)
  /\ roundTrips (traceOf r) = 1%nat
  /\ exists method path body req,
       traceOf r =
       [Event (newRequest method path body) (inl req); Event (Do req) (inr err)].
Proof.
  intros r. subst r. rewrite run_invoke. intros Hin.
  destruct (follow_transport_failure _ _ _ Hin) as [Hout [req Htr]].
  split; [exact Hout|]. split.
  - rewrite Htr. reflexivity.
  - do 3 eexists. exists req. exact Htr.
Qed.

(** C8. No field tagged [json:"-"] gives a member of the JSON object of
    a request body; in every body handed to the client the fields
    [Organization], [Database] and [Number] are so tagged; and [Create]
    puts [Organization] and [Database] into the path of its request,
    whose body has exactly the members [branch], [into_branch] and
    [notes]. *)
Theorem path_parameters_stay_out_of_body :
  (forall (g : json.goStruct) (n : string) (v : json.goValue),
     In (n, v) (json.Marshal g) <->
     exists f, In f g /\ json.tag f <> Some "-"
               /\ json.memberName f = Some n /\ json.content f = v)
  /\ (forall A (m : DeployRequestsService.method A) (s : State),
        forallb pathParametersOmitted
          (bodies (traceOf (run client
                              (invoke Request databasesAPIPath localOffset m) s)))
        = true)
  /\ (forall (createReq : CreateDeployRequestRequest.t) (s : State),
        let body := CreateDeployRequestRequest.reflect createReq in
        exchange "POST"
          (deployRequestsService.deployRequestsAPIPath databasesAPIPath
             (CreateDeployRequestRequest.Organization createReq)
             (CreateDeployRequestRequest.Database createReq))
          (Some body)
          (traceOf (run client
                      (deployRequestsService.Create Request databasesAPIPath
                         localOffset createReq) s))
        /\ json.Marshal body =
           [("branch", json.VString (CreateDeployRequestRequest.Branch createReq));
            ("into_branch", json.VString (CreateDeployRequestRequest.IntoBranch createReq));
            ("notes", json.VString (CreateDeployRequestRequest.Notes createReq))]).
Proof.
  split; [|split].
  - intros g n v. induction g as [|f g IH]; simpl.
    + split; [intros [] | intros (f & [] & _)].
    + destruct (json.memberName f) as [n'|] eqn:E.
      * simpl. rewrite IH. split.
        -- intros [Heq|(f' & Hin & Hrest)].
           ++ inversion Heq; subst. exists f. split; [now left|].
              split; [|split; [exact E | reflexivity]].
              intros Htag. unfold json.memberName in E. rewrite Htag in E.
              discriminate.
           ++ exists f'. split; [now right | exact Hrest].
        -- intros (f' & [<-|Hin] & Htag & Hn & Hv).
           ++ left. congruence.
           ++ right. exists f'. auto.
      * rewrite IH. split.
        -- intros (f' & Hin & Hrest). exists f'. split; [now right | exact Hrest].
        -- intros (f' & [<-|Hin] & Htag & Hn & Hv).
           ++ congruence.
           ++ exists f'. auto.
  - intros A m s. rewrite run_invoke.
    pose proof (follow_exchange (courseOf databasesAPIPath localOffset m) s) as Hex.
    destruct Hex; destruct m; reflexivity.
  - intros createReq s body. subst body.
    change (deployRequestsService.Create Request databasesAPIPath localOffset createReq)
      with (invoke Request databasesAPIPath localOffset
              (DeployRequestsService.Create createReq)).
    rewrite run_invoke. split; [|reflexivity].
    exact (follow_exchange
             (courseOf databasesAPIPath localOffset
                (DeployRequestsService.Create createReq)) s).
Qed.

(** C10, as amended. A method that returns a pointer returns either a
    nil pointer with an error, when the request could not be built or was
    not answered or the body of the response did not decode, or the
    record decoded from the body with a nil error: never both and never
    neither. [List] returns a nil slice with an error in the same cases
    of failure; when the envelope decodes it returns the slice of the
    envelope, which may be nil, with a nil error. *)
Theorem result_or_error A (m : DeployRequestsService.method A)
    (zero : A) (d : json.decoder A) (s : State)
    (listReq : ListDeployRequestsRequest.t) (s' : State) :
  let r := run client (invoke Request databasesAPIPath localOffset m) s in
  let l := run client
             (deployRequestsService.List Request databasesAPIPath localOffset
                listReq) s' in
  target localOffset m = Some (zero, d) ->
  ((exists v e, outcomeOf r = Returned (v, e)
                /\ ((v = None /\ e <> None) \/ (v <> None /\ e = None)))
   /\ match responses (traceOf r) with
      | [] => exists err, outcomeOf r = Returned (None, Some err)
      | res :: _ =>
          outcomeOf r =
          match json.Decode d (http.Body res) zero with
          | inl x => Returned (Some x, None)
          | inr err => Returned (None, Some err)
          end
      end)
  /\ match responses (traceOf l) with
     | [] => exists err, outcomeOf l = Returned (None, Some err)
     | res :: _ =>
         match json.Decode
                 (json.storePtr deployRequestsResponse.zero
                    (deployRequestsResponse.store localOffset))
                 (http.Body res) (Some deployRequestsResponse.zero) with
         | inr err => outcomeOf l = Returned (None, Some err)
         | inl (Some resp) =>
             outcomeOf l =
             Returned (deployRequestsResponse.DeployRequests resp, None)
         | inl None => True
         end
     end.
Proof.
  intros r l Htarget. subst r l. split.
  - rewrite run_invoke.
    set (c := courseOf databasesAPIPath localOffset m).
    assert (Hcases :
      match responses (traceOf (follow client c s)) with
      | [] => exists err, outcomeOf (follow client c s) = Returned (None, Some err)
      | res :: _ =>
          outcomeOf (follow client c s) =
          match json.Decode d (http.Body res) zero with
          | inl x => Returned (Some x, None)
          | inr err => Returned (None, Some err)
          end
      end).
    { destruct (responses (traceOf (follow client c s))) as [|res rest] eqn:E.
      - apply follow_unanswered; exact E.
      - destruct (follow_answered c s res) as [_ Hout].
        + rewrite E. left; reflexivity.
        + rewrite Hout.
          destruct m; simpl in Htarget; inversion Htarget; subst;
            cbn [c courseOf finish]; unfold decoded;
            destruct (json.Decode _ _ _); reflexivity. }
    split; [|exact Hcases].
    destruct (responses (traceOf (follow client c s))) as [|res rest].
    + destruct Hcases as [err ->]. exists None, (Some err). split; [reflexivity|].
      left. split; [reflexivity | discriminate].
    + rewrite Hcases. destruct (json.Decode d (http.Body res) zero) as [x|err].
      * exists (Some x), None. split; [reflexivity|].
        right. split; [discriminate | reflexivity].
      * exists None, (Some err). split; [reflexivity|].
        left. split; [reflexivity | discriminate].
  - change (deployRequestsService.List Request databasesAPIPath localOffset listReq)
      with (invoke Request databasesAPIPath localOffset
              (DeployRequestsService.List listReq)).
    rewrite run_invoke.
    set (c := courseOf databasesAPIPath localOffset (DeployRequestsService.List listReq)).
    destruct (responses (traceOf (follow client c s'))) as [|res rest] eqn:E.
    + apply follow_unanswered; exact E.
    + destruct (follow_answered c s' res) as [_ Hout].
      * rewrite E. left; reflexivity.
      * rewrite Hout. unfold c, courseOf, finish, listed.
        destruct (json.Decode _ _ _) as [[resp|]|err]; auto.
Qed.

End Runs.

(** ** The scanner *)

Section ScanFacts.

Import json.

Lemma skipSpace_length (s : string) : String.length (skipSpace s) <= String.length s.
Proof.
  induction s as [|c s IH]; simpl; [lia|].
  destruct (isSpace c); simpl; lia.
Qed.

Lemma mapScan_Ok {A B} (f : A -> B) (r : scan A) (b : B) (tl : string) :
  mapScan f r = Ok b tl -> exists a, r = Ok a tl /\ b = f a.
Proof. destruct r; simpl; intros H; inversion H; eauto. Qed.

Lemma mapScan_OutOfFuel {A B} (f : A -> B) (r : scan A) :
  mapScan f r = OutOfFuel -> r = OutOfFuel.
Proof. destruct r; simpl; intros H; congruence. Qed.

Lemma scanString_length (s : string) : forall st raw tl,
  scanString st s = Ok raw tl -> String.length tl < String.length s.
Proof.
  induction s as [|c s IH]; intros st raw tl H; simpl in H; [discriminate|].
  assert (Hstep : forall st' raw', mapScan (String c) (scanString st' s) = Ok raw' tl ->
                  String.length tl < S (String.length s)).
  { intros st' raw' H'. apply mapScan_Ok in H'. destruct H' as (a & Ha & _).
    apply IH in Ha. lia. }
  simpl. destruct st.
  - destruct (Ascii.eqb c "034").
    + inversion H; subst. lia.
    + destruct (Ascii.eqb c "\"); [eapply Hstep; eauto|].
      destruct (N_of_ascii c <? 32)%N; [discriminate | eapply Hstep; eauto].
  - destruct (isEscape c); [eapply Hstep; eauto|].
    destruct (Ascii.eqb c "u"); [eapply Hstep; eauto | discriminate].
  - destruct (isHex c); [eapply Hstep; eauto | discriminate].
Qed.

Lemma scanString_fuel (s : string) : forall st, scanString st s <> OutOfFuel.
Proof.
  induction s as [|c s IH]; intros st H; simpl in H; [discriminate|].
  assert (Hstep : forall st', mapScan (String c) (scanString st' s) <> OutOfFuel).
  { intros st' H'. apply mapScan_OutOfFuel in H'. eapply IH; eauto. }
  destruct st.
  - destruct (Ascii.eqb c "034"); [discriminate|].
    destruct (Ascii.eqb c "\"); [eapply Hstep; eauto|].
    destruct (N_of_ascii c <? 32)%N; [discriminate | eapply Hstep; eauto].
  - destruct (isEscape c); [eapply Hstep; eauto|].
    destruct (Ascii.eqb c "u"); [eapply Hstep; eauto | discriminate].
  - destruct (isHex c); [eapply Hstep; eauto | discriminate].
Qed.

Lemma scanNumber_length (s : string) : forall st lit tl,
  scanNumber st s = Ok lit tl -> String.length tl <= String.length s.
Proof.
  induction s as [|c s IH]; intros st lit tl H; simpl in H.
  - destruct (numberDone st); inversion H; subst; simpl; lia.
  - destruct (numberStep st c).
    + apply mapScan_Ok in H. destruct H as (a & Ha & _). apply IH in Ha. simpl; lia.
    + destruct (numberDone st); inversion H; subst; simpl; lia.
Qed.

Lemma scanNumber_fuel (s : string) : forall st, scanNumber st s <> OutOfFuel.
Proof.
  induction s as [|c s IH]; intros st H; simpl in H.
  - destruct (numberDone st); discriminate.
  - destruct (numberStep st c).
    + apply mapScan_OutOfFuel in H. eapply IH; eauto.
    + destruct (numberDone st); discriminate.
Qed.

Lemma scanLiteral_length (expect : string) : forall s tl,
  scanLiteral expect s = Ok tt tl -> String.length tl <= String.length s.
Proof.
  induction expect as [|e expect IH]; intros s tl H; simpl in H.
  - inversion H; subst; lia.
  - destruct s as [|c s]; [discriminate|].
    destruct (Ascii.eqb c e); [|discriminate]. apply IH in H. simpl; lia.
Qed.

Lemma scanLiteral_fuel (expect : string) : forall s, scanLiteral expect s <> OutOfFuel.
Proof.
  induction expect as [|e expect IH]; intros s H; simpl in H; [discriminate|].
  destruct s as [|c s]; [discriminate|].
  destruct (Ascii.eqb c e); [eapply IH; eauto | discriminate].
Qed.

End ScanFacts.

Section ScanFuel.

Import json.

Local Abbreviation len := String.length.

Lemma after_length (c : ascii) (s tl : string) :
  after c s = Some tl -> len s = S (len tl).
Proof.
  destruct s as [|c' s]; simpl; [discriminate|].
  destruct (Ascii.eqb c' c); intros H; inversion H; reflexivity.
Qed.

(** What a scan leaves is shorter than what it was given. *)
Lemma scan_shrinks (fuel : nat) :
  (forall s v tl, scanValue fuel s = Ok v tl -> len tl < len s)
  /\ (forall s vs tl, scanElements fuel s = Ok vs tl -> len tl < len s)
  /\ (forall s ms tl, scanMembers fuel s = Ok ms tl -> len tl < len s).
Proof.
  induction fuel as [|fuel (IHv & IHe & IHm)].
  - repeat split; intros; discriminate.
  - split; [|split].
    + intros s v tl H. cbn [scanValue] in H.
      pose proof (skipSpace_length s) as Hs.
      destruct (skipSpace s) as [|c rest]; [discriminate|]. simpl in Hs.
      destruct (Ascii.eqb c "{").
      { pose proof (skipSpace_length rest) as Hr.
        destruct (after "}" (skipSpace rest)) as [rest'|] eqn:Ea.
        - apply after_length in Ea. inversion H; subst. lia.
        - apply mapScan_Ok in H. destruct H as (a & Ha & _). apply IHm in Ha. lia. }
      destruct (Ascii.eqb c "[").
      { pose proof (skipSpace_length rest) as Hr.
        destruct (after "]" (skipSpace rest)) as [rest'|] eqn:Ea.
        - apply after_length in Ea. inversion H; subst. lia.
        - apply mapScan_Ok in H. destruct H as (a & Ha & _). apply IHe in Ha. lia. }
      destruct (Ascii.eqb c "034").
      { apply mapScan_Ok in H. destruct H as (a & Ha & _).
        apply scanString_length in Ha. lia. }
      destruct (Ascii.eqb c "-").
      { apply mapScan_Ok in H. destruct H as (a & Ha & _).
        apply scanNumber_length in Ha. lia. }
      destruct (Ascii.eqb c "0").
      { apply mapScan_Ok in H. destruct H as (a & Ha & _).
        apply scanNumber_length in Ha. lia. }
      destruct (Ascii.eqb c "t").
      { apply mapScan_Ok in H. destruct H as ([] & Ha & _).
        apply scanLiteral_length in Ha. lia. }
      destruct (Ascii.eqb c "f").
      { apply mapScan_Ok in H. destruct H as ([] & Ha & _).
        apply scanLiteral_length in Ha. lia. }
      destruct (Ascii.eqb c "n").
      { apply mapScan_Ok in H. destruct H as ([] & Ha & _).
        apply scanLiteral_length in Ha. lia. }
      destruct (bytes.isDigit c); [|discriminate].
      apply mapScan_Ok in H. destruct H as (a & Ha & _).
      apply scanNumber_length in Ha. lia.
    + intros s vs tl H. cbn [scanElements] in H.
      destruct (scanValue fuel s) as [v tl0| | |] eqn:Ev; try discriminate.
      apply IHv in Ev. pose proof (skipSpace_length tl0) as Hs.
      destruct (skipSpace tl0) as [|c tl']; [discriminate|]. simpl in Hs.
      destruct (Ascii.eqb c ",").
      { apply mapScan_Ok in H. destruct H as (a & Ha & _). apply IHe in Ha. lia. }
      destruct (Ascii.eqb c "]"); [|discriminate].
      inversion H; subst. lia.
    + intros s ms tl H. cbn [scanMembers] in H.
      pose proof (skipSpace_length s) as Hs.
      destruct (skipSpace s) as [|q rest]; [discriminate|]. simpl in Hs.
      destruct (negb (Ascii.eqb q "034")); [discriminate|].
      destruct (scanString InString rest) as [key tl0| | |] eqn:Ek; try discriminate.
      apply scanString_length in Ek. pose proof (skipSpace_length tl0) as Hs0.
      destruct (skipSpace tl0) as [|c tl1]; [discriminate|]. simpl in Hs0.
      destruct (negb (Ascii.eqb c ":")); [discriminate|].
      destruct (scanValue fuel tl1) as [v tl2| | |] eqn:Ev; try discriminate.
      apply IHv in Ev. pose proof (skipSpace_length tl2) as Hs2.
      destruct (skipSpace tl2) as [|c' tl3]; [discriminate|]. simpl in Hs2.
      destruct (Ascii.eqb c' ",").
      { apply mapScan_Ok in H. destruct H as (a & Ha & _). apply IHm in Ha. lia. }
      destruct (Ascii.eqb c' "}"); [|discriminate].
      inversion H; subst. lia.
Qed.

(** With twice the length of the input and one more, the scan of a
    value does not run out of fuel. *)
Lemma scan_fuel (fuel : nat) :
  (forall s, 2 * len s + 1 <= fuel -> scanValue fuel s <> OutOfFuel)
  /\ (forall s, 2 * len s + 2 <= fuel -> scanElements fuel s <> OutOfFuel)
  /\ (forall s, 2 * len s + 2 <= fuel -> scanMembers fuel s <> OutOfFuel).
Proof.
  induction fuel as [|fuel (IHv & IHe & IHm)].
  - repeat split; intros; lia.
  - split; [|split].
    + intros s Hf H. cbn [scanValue] in H.
      pose proof (skipSpace_length s) as Hs.
      destruct (skipSpace s) as [|c rest]; [discriminate|]. simpl in Hs.
      destruct (Ascii.eqb c "{").
      { pose proof (skipSpace_length rest) as Hr.
        destruct (after "}" (skipSpace rest)) as [rest'|]; [discriminate|].
        apply mapScan_OutOfFuel in H. revert H. apply IHm. lia. }
      destruct (Ascii.eqb c "[").
      { destruct (after "]" (skipSpace rest)) as [rest'|]; [discriminate|].
        apply mapScan_OutOfFuel in H. revert H. apply IHe. lia. }
      destruct (Ascii.eqb c "034").
      { apply mapScan_OutOfFuel in H. revert H. apply scanString_fuel. }
      destruct (Ascii.eqb c "-").
      { apply mapScan_OutOfFuel in H. revert H. apply scanNumber_fuel. }
      destruct (Ascii.eqb c "0").
      { apply mapScan_OutOfFuel in H. revert H. apply scanNumber_fuel. }
      destruct (Ascii.eqb c "t").
      { apply mapScan_OutOfFuel in H. revert H. apply scanLiteral_fuel. }
      destruct (Ascii.eqb c "f").
      { apply mapScan_OutOfFuel in H. revert H. apply scanLiteral_fuel. }
      destruct (Ascii.eqb c "n").
      { apply mapScan_OutOfFuel in H. revert H. apply scanLiteral_fuel. }
      destruct (bytes.isDigit c); [|discriminate].
      apply mapScan_OutOfFuel in H. revert H. apply scanNumber_fuel.
    + intros s Hf H. cbn [scanElements] in H.
      destruct (scanValue fuel s) as [v tl0| | |] eqn:Ev; try discriminate.
      * apply (proj1 (scan_shrinks fuel)) in Ev.
        pose proof (skipSpace_length tl0) as Hs.
        destruct (skipSpace tl0) as [|c tl']; [discriminate|]. simpl in Hs.
        destruct (Ascii.eqb c ",").
        { apply mapScan_OutOfFuel in H. revert H. apply IHe. lia. }
        destruct (Ascii.eqb c "]"); discriminate.
      * revert Ev. apply IHv. lia.
    + intros s Hf H. cbn [scanMembers] in H.
      pose proof (skipSpace_length s) as Hs.
      destruct (skipSpace s) as [|q rest]; [discriminate|]. simpl in Hs.
      destruct (negb (Ascii.eqb q "034")); [discriminate|].
      destruct (scanString InString rest) as [key tl0| | |] eqn:Ek; try discriminate.
      * apply scanString_length in Ek. pose proof (skipSpace_length tl0) as Hs0.
        destruct (skipSpace tl0) as [|c tl1]; [discriminate|]. simpl in Hs0.
        destruct (negb (Ascii.eqb c ":")); [discriminate|].
        destruct (scanValue fuel tl1) as [v tl2| | |] eqn:Ev; try discriminate.
        -- apply (proj1 (scan_shrinks fuel)) in Ev.
           pose proof (skipSpace_length tl2) as Hs2.
           destruct (skipSpace tl2) as [|c' tl3]; [discriminate|]. simpl in Hs2.
           destruct (Ascii.eqb c' ",").
           { apply mapScan_OutOfFuel in H. revert H. apply IHm. lia. }
           destruct (Ascii.eqb c' "}"); discriminate.
        -- revert Ev. apply IHv. lia.
      * revert Ek. apply scanString_fuel.
Qed.

(** [readValue] never runs out of fuel. *)
Lemma readValue_fuel (body : string) :
  scanValue (2 * len body + 2) body <> OutOfFuel.
Proof. apply (proj1 (scan_fuel _)). lia. Qed.

End ScanFuel.

Section UnquoteFacts.

Import json.

Local Abbreviation len := String.length.

Lemma scanString_escaped (s : string) : forall st raw tl,
  scanString st s = Ok raw tl -> escaped st raw = true.
Proof.
  induction s as [|c s IH]; intros st raw tl H; simpl in H; [discriminate|].
  assert (Hstep : forall st' raw', mapScan (String c) (scanString st' s) = Ok raw' tl ->
                  exists a, raw' = String c a /\ escaped st' a = true).
  { intros st' raw' H'. apply mapScan_Ok in H'. destruct H' as (a & Ha & ->).
    exists a. split; [reflexivity | eapply IH; eauto]. }
  destruct st.
  - destruct (Ascii.eqb c "034") eqn:Eq.
    + inversion H; subst. reflexivity.
    + destruct (Ascii.eqb c "\") eqn:Eb.
      * apply Hstep in H. destruct H as (a & -> & Ha). simpl. rewrite Eq, Eb. exact Ha.
      * destruct (N_of_ascii c <? 32)%N eqn:Ec; [discriminate|].
        apply Hstep in H. destruct H as (a & -> & Ha). simpl. rewrite Eq, Eb, Ec. exact Ha.
  - destruct (isEscape c) eqn:Ee.
    + apply Hstep in H. destruct H as (a & -> & Ha). simpl. rewrite Ee. exact Ha.
    + destruct (Ascii.eqb c "u") eqn:Eu; [|discriminate].
      apply Hstep in H. destruct H as (a & -> & Ha). simpl. rewrite Ee, Eu. exact Ha.
  - destruct (isHex c) eqn:Eh; [|discriminate].
    apply Hstep in H. destruct H as (a & -> & Ha). simpl. rewrite Eh. exact Ha.
Qed.

Lemma isEscape_unescape (e : ascii) :
  isEscape e = true -> exists b, unescape e = Some b.
Proof.
  unfold isEscape, unescape. simpl.
  destruct (Ascii.eqb e "034"), (Ascii.eqb e "\"), (Ascii.eqb e "/"),
    (Ascii.eqb e "'"), (Ascii.eqb e "b"), (Ascii.eqb e "f"), (Ascii.eqb e "n"),
    (Ascii.eqb e "r"), (Ascii.eqb e "t"); simpl; intros H;
    try discriminate; eauto.
Qed.

Lemma emit_some (out : string) (r : option string) :
  (exists str, r = Some str) -> exists str, option_map (append out) r = Some str.
Proof. intros [str ->]. simpl. eauto. Qed.

(** A byte of a multi-byte encoding is no quote, backslash or control
    byte. *)
Lemma escaped_high (c : ascii) (r : string) :
  (128 <= N_of_ascii c)%N ->
  escaped InString (String c r) = escaped InString r.
Proof.
  intros H. simpl.
  destruct (Ascii.eqb c "034") eqn:Eq.
  { apply Ascii.eqb_eq in Eq. subst c. simpl in H. lia. }
  destruct (Ascii.eqb c "\") eqn:Eb.
  { apply Ascii.eqb_eq in Eb. subst c. simpl in H. lia. }
  destruct (N_of_ascii c <? 32)%N eqn:Ec; [|reflexivity].
  apply N.ltb_lt in Ec. lia.
Qed.

Lemma inRange_high (lo hi : N) (c : ascii) :
  (128 <= lo)%N -> utf8.inRange lo hi c = true -> (128 <= N_of_ascii c)%N.
Proof.
  unfold utf8.inRange. intros Hlo H. apply andb_true_iff in H.
  destruct H as [H _]. apply N.leb_le in H. lia.
Qed.

(** Past a well-formed encoding of several bytes, the rest is as well
    escaped. *)
Lemma escaped_validLen (c0 : ascii) (rest : string) :
  (128 <= N_of_ascii c0)%N ->
  escaped InString (String c0 rest) = true ->
  match utf8.validLen (String c0 rest) with
  | O => True
  | S n =>
      escaped InString (bytes.drop (S n) (String c0 rest)) = true
      /\ len (bytes.drop (S n) (String c0 rest)) < len (String c0 rest)
  end.
Proof.
  intros Hc H. rewrite escaped_high in H by exact Hc.
  unfold utf8.validLen.
  destruct (N_of_ascii c0 <? 128)%N eqn:E0; [apply N.ltb_lt in E0; lia|].
  destruct ((194 <=? N_of_ascii c0) && (N_of_ascii c0 <=? 223))%N.
  { destruct rest as [|c1 r1]; [exact I|].
    destruct (utf8.cont c1) eqn:E1; [|exact I].
    apply inRange_high in E1; [|lia].
    rewrite escaped_high in H by exact E1.
    simpl. split; [exact H | lia]. }
  destruct ((224 <=? N_of_ascii c0) && (N_of_ascii c0 <=? 239))%N.
  { destruct rest as [|c1 [|c2 r2]]; try exact I.
    match goal with |- context [utf8.inRange ?lo ?hi c1] =>
      destruct (utf8.inRange lo hi c1) eqn:E1 end; [|exact I].
    destruct (utf8.cont c2) eqn:E2; [|exact I]. cbn [andb].
    apply inRange_high in E1; [|destruct (N_of_ascii c0 =? 224)%N; lia].
    apply inRange_high in E2; [|lia].
    rewrite escaped_high in H by exact E1.
    rewrite escaped_high in H by exact E2.
    simpl. split; [exact H | lia]. }
  destruct ((240 <=? N_of_ascii c0) && (N_of_ascii c0 <=? 244))%N; [|exact I].
  destruct rest as [|c1 [|c2 [|c3 r3]]]; try exact I.
  match goal with |- context [utf8.inRange ?lo ?hi c1] =>
    destruct (utf8.inRange lo hi c1) eqn:E1 end; [|exact I].
  destruct (utf8.cont c2) eqn:E2; [|exact I].
  destruct (utf8.cont c3) eqn:E3; [|exact I]. cbn [andb].
  apply inRange_high in E1; [|destruct (N_of_ascii c0 =? 240)%N; lia].
  apply inRange_high in E2; [|lia].
  apply inRange_high in E3; [|lia].
  rewrite escaped_high in H by exact E1.
  rewrite escaped_high in H by exact E2.
  rewrite escaped_high in H by exact E3.
  simpl. split; [exact H | lia].
Qed.

(** [getu4] answers on a backslash, a [u] and four hexadecimal digits. *)
Lemma getu4_Some (s : string) (r : N) :
  getu4 s = Some r ->
  exists h1 h2 h3 h4 tl,
    s = String "\" (String "u" (String h1 (String h2 (String h3 (String h4 tl)))))
    /\ isHex h1 && isHex h2 && isHex h3 && isHex h4 = true.
Proof.
  unfold getu4.
  destruct s as [|c0 [|c1 [|h1 [|h2 [|h3 [|h4 tl]]]]]]; try discriminate.
  destruct (Ascii.eqb c0 "\") eqn:E0; [|discriminate].
  destruct (Ascii.eqb c1 "u") eqn:E1; [|discriminate].
  apply Ascii.eqb_eq in E0, E1. subst c0 c1. cbn [andb].
  destruct (isHex h1 && isHex h2 && isHex h3 && isHex h4) eqn:Eh; [|discriminate].
  intros _. exists h1, h2, h3, h4, tl. split; [reflexivity | exact Eh].
Qed.

Lemma escaped_u4 (h1 h2 h3 h4 : ascii) (tl : string) :
  escaped InString
    (String "\" (String "u" (String h1 (String h2 (String h3 (String h4 tl))))))
  = isHex h1 && (isHex h2 && (isHex h3 && (isHex h4 && escaped InString tl))).
Proof. reflexivity. Qed.

(** The raw bytes of a scanned string literal always unquote. *)
Lemma unquoteFrom_escaped (fuel : nat) : forall raw,
  len raw <= fuel -> escaped InString raw = true ->
  exists str, unquoteFrom fuel raw = Some str.
Proof.
  induction fuel as [|fuel IH]; intros raw Hlen Hesc.
  - destruct raw; [simpl; eauto | simpl in Hlen; lia].
  - destruct raw as [|c rest]; [simpl; eauto|].
    simpl in Hlen. cbn [unquoteFrom].
    destruct (Ascii.eqb c "\") eqn:Eb.
    + apply Ascii.eqb_eq in Eb. subst c.
      destruct rest as [|e rest']; [discriminate|].
      destruct (Ascii.eqb e "u") eqn:Eu.
      * apply Ascii.eqb_eq in Eu. subst e.
        destruct rest' as [|h1 [|h2 [|h3 [|h4 tl]]]];
          try (simpl in Hesc; repeat rewrite andb_false_r in Hesc; discriminate).
        rewrite escaped_u4 in Hesc.
        repeat (apply andb_true_iff in Hesc; destruct Hesc as [? Hesc]).
        unfold getu4 at 1. cbn [Ascii.eqb Bool.eqb andb].
        replace (isHex h1 && isHex h2 && isHex h3 && isHex h4) with true
          by (symmetry; repeat (apply andb_true_iff; split); assumption).
        cbn [bytes.drop]. simpl in Hlen.
        destruct (isSurrogate _).
        -- destruct (getu4 tl) as [rr1|] eqn:Eg.
           ++ destruct (_ =? 65533)%N.
              ** apply emit_some, IH; [lia | exact Hesc].
              ** apply getu4_Some in Eg.
                 destruct Eg as (k1 & k2 & k3 & k4 & tl' & -> & Hk).
                 rewrite escaped_u4 in Hesc.
                 repeat (apply andb_true_iff in Hesc; destruct Hesc as [? Hesc]).
                 cbn [bytes.drop]. apply emit_some, IH; [simpl in Hlen; lia | exact Hesc].
           ++ apply emit_some, IH; [lia | exact Hesc].
        -- apply emit_some, IH; [lia | exact Hesc].
      * simpl in Hesc. rewrite Eu in Hesc.
        destruct (isEscape e) eqn:Ee; [|discriminate].
        destruct (isEscape_unescape e Ee) as [b ->].
        apply emit_some, IH; [simpl in Hlen; lia | exact Hesc].
    + pose proof Hesc as Hesc'. simpl in Hesc. rewrite Eb in Hesc.
      destruct (Ascii.eqb c "034"); [discriminate|].
      destruct (N_of_ascii c <? 32)%N; [discriminate|]. cbn [orb].
      destruct (N_of_ascii c <? 128)%N eqn:Eh.
      * apply emit_some, IH; [lia | exact Hesc].
      * apply N.ltb_ge in Eh.
        pose proof (escaped_validLen c rest Eh Hesc') as Hv.
        destruct (utf8.validLen (String c rest)) as [|n].
        -- apply emit_some, IH; [lia | exact Hesc].
        -- destruct Hv as [Hv1 Hv2].
           change (len (String c rest)) with (S (len rest)) in Hv2.
           apply emit_some, IH; [lia | exact Hv1].
Qed.

Lemma unquote_scanned (s raw tl : string) :
  scanString InString s = Ok raw tl -> exists str, unquote raw = Some str.
Proof.
  intros H. apply scanString_escaped in H.
  apply unquoteFrom_escaped; [lia | exact H].
Qed.

End UnquoteFacts.

Section Scanned.

Import json.

Lemma scan_wellScanned (fuel : nat) :
  (forall s v tl, scanValue fuel s = Ok v tl -> wellScanned v = true)
  /\ (forall s vs tl, scanElements fuel s = Ok vs tl -> forallb wellScanned vs = true)
  /\ (forall s ms tl, scanMembers fuel s = Ok ms tl ->
        forallb (fun m => escaped InString (fst m) && wellScanned (snd m)) ms = true).
Proof.
  induction fuel as [|fuel (IHv & IHe & IHm)].
  - repeat split; intros; discriminate.
  - split; [|split].
    + intros s v tl H. cbn [scanValue] in H.
      destruct (skipSpace s) as [|c rest]; [discriminate|].
      destruct (Ascii.eqb c "{").
      { destruct (after "}" (skipSpace rest)) as [rest'|].
        - inversion H; subst. reflexivity.
        - apply mapScan_Ok in H. destruct H as (a & Ha & ->).
          apply IHm in Ha. exact Ha. }
      destruct (Ascii.eqb c "[").
      { destruct (after "]" (skipSpace rest)) as [rest'|].
        - inversion H; subst. reflexivity.
        - apply mapScan_Ok in H. destruct H as (a & Ha & ->).
          apply IHe in Ha. exact Ha. }
      destruct (Ascii.eqb c "034").
      { apply mapScan_Ok in H. destruct H as (a & Ha & ->).
        apply scanString_escaped in Ha. exact Ha. }
      repeat match type of H with
             | (if ?b then _ else _) = _ =>
                 destruct b;
                 [apply mapScan_Ok in H; destruct H as (a & Ha & ->); reflexivity|]
             end.
      discriminate.
    + intros s vs tl H. cbn [scanElements] in H.
      destruct (scanValue fuel s) as [v tl0| | |] eqn:Ev; try discriminate.
      apply IHv in Ev.
      destruct (skipSpace tl0) as [|c tl']; [discriminate|].
      destruct (Ascii.eqb c ",").
      { apply mapScan_Ok in H. destruct H as (a & Ha & ->). apply IHe in Ha.
        simpl. rewrite Ev, Ha. reflexivity. }
      destruct (Ascii.eqb c "]"); [|discriminate].
      inversion H; subst. simpl. rewrite Ev. reflexivity.
    + intros s ms tl H. cbn [scanMembers] in H.
      destruct (skipSpace s) as [|q rest]; [discriminate|].
      destruct (negb (Ascii.eqb q "034")); [discriminate|].
      destruct (scanString InString rest) as [key tl0| | |] eqn:Ek; try discriminate.
      apply scanString_escaped in Ek.
      destruct (skipSpace tl0) as [|c tl1]; [discriminate|].
      destruct (negb (Ascii.eqb c ":")); [discriminate|].
      destruct (scanValue fuel tl1) as [v tl2| | |] eqn:Ev; try discriminate.
      apply IHv in Ev.
      destruct (skipSpace tl2) as [|c' tl3]; [discriminate|].
      destruct (Ascii.eqb c' ",").
      { apply mapScan_Ok in H. destruct H as (a & Ha & ->). apply IHm in Ha.
        simpl. rewrite Ek, Ev, Ha. reflexivity. }
      destruct (Ascii.eqb c' "}"); [|discriminate].
      inversion H; subst. simpl. rewrite Ek, Ev. reflexivity.
Qed.

Lemma readValue_wellScanned (body : string) (v : value) :
  readValue body = inl v -> wellScanned v = true.
Proof.
  unfold readValue. destruct (skipSpace body); [discriminate|].
  destruct (scanValue _ body) as [v' rest| | |] eqn:E; try discriminate.
  apply (proj1 (scan_wellScanned _)) in E. intros H.
  inversion H; subst. exact E.
Qed.

(** The member names of a scanned object unquote. *)
Lemma readValue_names_unquote (body : string) (members : list (string * value)) :
  readValue body = inl (Object members) ->
  forallb (fun m => match unquote (fst m) with Some _ => true | None => false end)
    members = true.
Proof.
  intros H. apply readValue_wellScanned in H. simpl in H.
  apply forallb_forall. intros m Hin.
  rewrite forallb_forall in H. specialize (H m Hin).
  apply andb_true_iff in H. destruct H as [H _].
  destruct (unquoteFrom_escaped (fuel := String.length (fst m)) (fst m)) as [str Hs];
    [lia | exact H |].
  unfold unquote. rewrite Hs. reflexivity.
Qed.

End Scanned.

(** ** Decoding the bodies of responses *)

Section Envelopes.

Import errors planetscale.

Variable T : Type.
Variable A : Type.
Variable get : T -> option (list A).
Variable set : option (list A) -> T -> T.
Variable type : string.
Variable zero : A.
Variable d : json.decoder A.

Let dataField : json.field T :=
  json.Field "data" (json.into get set (json.storeSlice type zero d)).

(** A one-field table finds its field under every spelling of [data]. *)
Lemma findField_data (key : string) :
  json.findField [dataField] key =
  if String.eqb (json.foldName key) "DATA" then Some dataField else None.
Proof.
  unfold json.findField. cbn [find].
  change (json.name dataField) with "data".
  change (json.foldName "data") with "DATA".
  destruct (String.eqb "data" key) eqn:E.
  - apply String.eqb_eq in E. subst key. reflexivity.
  - rewrite (String.eqb_sym "DATA").
    destruct (String.eqb (json.foldName key) "DATA"); reflexivity.
Qed.

Lemma storeMembers_data_only (members : list (string * json.value)) :
  forallb (fun m => unquotes (fst m)) members = true ->
  forall (t : T) (saved : option error),
    json.storeMembers [dataField] members t saved =
    json.storeMembers [dataField] (filter (fun m => isData (fst m)) members) t saved.
Proof.
  induction members as [|[k v] members IH]; intros Hq t saved.
  - reflexivity.
  - simpl in Hq. apply andb_true_iff in Hq. destruct Hq as [Hk Hq].
    cbn [json.storeMembers filter fst]. unfold isData, unquotes in *.
    destruct (json.unquote k) as [key|] eqn:Ek; [|discriminate].
    rewrite findField_data.
    destruct (String.eqb (json.foldName key) "DATA") eqn:Ef.
    + cbn [json.storeMembers]. rewrite Ek, findField_data, Ef.
      destruct (json.store dataField v t saved); simpl; [apply IH; exact Hq | reflexivity].
    + apply IH; exact Hq.
Qed.

Lemma storeMembers_empty_array (k : string) (t : T) (saved : option error) :
  isData k = true ->
  json.storeMembers [dataField] [(k, json.Array [])] t saved =
  json.Done (set (Some []) t) saved.
Proof.
  unfold isData. intros Hk. cbn [json.storeMembers].
  destruct (json.unquote k) as [key|]; [|discriminate].
  rewrite findField_data, Hk. reflexivity.
Qed.

Lemma storeStruct_reportsNone (name body : string) (t : T) :
  reportsNone body = true ->
  exists members,
    json.readValue body = inl (json.Object members)
    /\ forall saved,
         json.storeStruct name [dataField] (json.Object members) t saved =
         json.Done (set (Some []) t) saved.
Proof.
  unfold reportsNone. intros H.
  destruct (json.readValue body) as [[| | | | |members]|] eqn:Er; try discriminate.
  pose proof (readValue_names_unquote body Er) as Hq.
  exists members. split; [reflexivity|]. intros saved.
  cbn [json.storeStruct]. rewrite storeMembers_data_only by exact Hq.
  destruct (filter (fun m => isData (fst m)) members) as [|[k v] rest] eqn:Ef;
    [discriminate|].
  destruct v as [| | | |[|]|]; try discriminate.
  destruct rest; [|discriminate].
  apply storeMembers_empty_array.
  assert (Hin : In (k, json.Array []) (filter (fun m => isData (fst m)) members))
    by (rewrite Ef; now left).
  apply filter_In in Hin. exact (proj2 Hin).
Qed.

Lemma storeStruct_reportsNil (name body : string) (t : T) :
  reportsNil body = true ->
  get t = None ->
  (forall a t0, get (set a t0) = a) ->
  exists members t',
    json.readValue body = inl (json.Object members)
    /\ get t' = None
    /\ forall saved,
         json.storeStruct name [dataField] (json.Object members) t saved =
         json.Done t' saved.
Proof.
  unfold reportsNil. intros H Hget Hgs.
  destruct (json.readValue body) as [[| | | | |members]|] eqn:Er; try discriminate.
  pose proof (readValue_names_unquote body Er) as Hq.
  exists members.
  destruct (filter (fun m => isData (fst m)) members) as [|[k v] rest] eqn:Ef.
  - exists t. split; [reflexivity|]. split; [exact Hget|]. intros saved.
    cbn [json.storeStruct]. rewrite storeMembers_data_only by exact Hq.
    rewrite Ef. reflexivity.
  - destruct v; try discriminate. destruct rest; [|discriminate].
    exists (set None t). split; [reflexivity|]. split; [apply Hgs|]. intros saved.
    cbn [json.storeStruct]. rewrite storeMembers_data_only by exact Hq.
    rewrite Ef.
    assert (Hin : In (k, json.Null) (filter (fun m => isData (fst m)) members))
      by (rewrite Ef; now left).
    apply filter_In in Hin. destruct Hin as [_ Hk]. cbn [fst] in Hk.
    unfold isData in Hk. cbn [json.storeMembers].
    destruct (json.unquote k) as [key|]; [|discriminate].
    rewrite findField_data, Hk. reflexivity.
Qed.

End Envelopes.

Section Decoding.

Import errors planetscale.

Variable Request : Type.
Variable databasesAPIPath : string -> string.
Variable passwordsAPIPath : string -> string -> string -> string.
Variable localOffset : Z -> Z.
Variable State : Type.
Variable client : forall X : Type, call Request X -> State -> X * State.

(** C3, as amended. When the body of the response is an object whose
    [data] member is the empty array, and in particular the body
    [{"data":[]}], [List] returns a sequence that is empty and not nil,
    with no error, and so does [List] of the passwords service. When
    the object has no [data] member, or its [data] member is [null], as
    in [{}] and [{"data":null}], [List] returns a nil sequence, of
    length zero too, with no error. *)
Theorem List_of_none_is_empty :
  (forall (listReq : ListDeployRequestsRequest.t) (s : State) (res : http.Response),
     let r := run client
                (deployRequestsService.List Request databasesAPIPath localOffset
                   listReq) s in
     In res (responses (traceOf r)) ->
     (reportsNone (http.Body res) = true -> outcomeOf r = Returned (Some [], None))
     /\ (reportsNil (http.Body res) = true -> outcomeOf r = Returned (None, None)))
  /\ (forall (listPasswordsReq : ListDatabaseBranchPasswordRequest.t) (s' : State)
             (res' : http.Response),
        let r' := run client
                    (passwordsService.List Request passwordsAPIPath localOffset
                       listPasswordsReq) s' in
        In res' (responses (traceOf r')) ->
        reportsNone (http.Body res') = true ->
        outcomeOf r' = Returned (Some [], None))
  /\ reportsNone (json.text "{'data':[]}") = true
  /\ reportsNil "{}" = true
  /\ reportsNil (json.text "{'data':null}") = true.
Proof.
  split; [|split; [|repeat split]].
  - intros listReq s res r Hres. subst r.
    change (deployRequestsService.List Request databasesAPIPath localOffset listReq)
      with (invoke Request databasesAPIPath localOffset
              (DeployRequestsService.List listReq)) in *.
    rewrite run_invoke in *.
    apply follow_answered in Hres. destruct Hres as [_ ->].
    cbn [courseOf finish]. unfold listed, json.Decode. split; intros Hnone.
    + destruct (storeStruct_reportsNone
                  deployRequestsResponse.DeployRequests
                  deployRequestsResponse.set_DeployRequests
                  "[]*planetscale.DeployRequest" None
                  (json.storePtr DeployRequest.zero (DeployRequest.store localOffset))
                  "planetscale.deployRequestsResponse" (http.Body res)
                  deployRequestsResponse.zero Hnone) as (members & -> & Hstore).
      cbn [json.storePtr].
      unfold deployRequestsResponse.store, deployRequestsResponse.fields.
      rewrite Hstore. reflexivity.
    + destruct (storeStruct_reportsNil
                  deployRequestsResponse.DeployRequests
                  deployRequestsResponse.set_DeployRequests
                  "[]*planetscale.DeployRequest" None
                  (json.storePtr DeployRequest.zero (DeployRequest.store localOffset))
                  "planetscale.deployRequestsResponse" (http.Body res)
                  deployRequestsResponse.zero Hnone eq_refl
                  (fun a t0 => eq_refl)) as (members & t' & -> & Hnil & Hstore).
      cbn [json.storePtr].
      unfold deployRequestsResponse.store, deployRequestsResponse.fields.
      rewrite Hstore. cbn [json.bindResult]. rewrite Hnil. reflexivity.
  - intros listPasswordsReq s' res' r' Hres' Hnone'. subst r'.
    change (passwordsService.List Request passwordsAPIPath localOffset listPasswordsReq)
      with (invokePasswords Request passwordsAPIPath localOffset
              (PasswordsService.List listPasswordsReq)) in *.
    rewrite run_invokePasswords in *.
    apply follow_answered in Hres'. destruct Hres' as [_ ->].
    cbn [coursePasswords finish]. unfold listedPasswords, json.Decode.
    destruct (storeStruct_reportsNone
                passwordsResponse.Passwords
                passwordsResponse.set_Passwords
                "[]*planetscale.DatabaseBranchPassword" None
                (json.storePtr DatabaseBranchPassword.zero
                   (DatabaseBranchPassword.store localOffset))
                "planetscale.passwordsResponse" (http.Body res')
                passwordsResponse.zero Hnone') as (members & -> & Hstore).
    unfold passwordsResponse.store, passwordsResponse.fields.
    rewrite Hstore. reflexivity.
Qed.


(** C5. When the server answers with the body of the scenario,
    [Create] of the passwords service returns, with no error, the record
    with the name [x], the role [writer], the plain text [secret] and the
    creation time January 14, 2021, 10:19:23.000 UTC. *)
Theorem Passwords_Create_returns_record
    (createReq : DatabaseBranchPasswordRequest.t) (s : State)
    (res : http.Response) :
  let r := run client
             (passwordsService.Create Request passwordsAPIPath localOffset createReq) s in
  In res (responses (traceOf r)) ->
  http.Body res = createdBody ->
  outcomeOf r =
  Returned
    (Some {| DatabaseBranchPassword.Name := "x";
             DatabaseBranchPassword.PublicID := "x";
             DatabaseBranchPassword.UserName := "x";
             DatabaseBranchPassword.CreatedAt := time.Date 2021 1 14 10 19 23 0;
             DatabaseBranchPassword.Role := "writer";
             DatabaseBranchPassword.PlainText := "secret" |},
     None).
Proof.
  intros r. subst r.
  change (passwordsService.Create Request passwordsAPIPath localOffset createReq)
    with (invokePasswords Request passwordsAPIPath localOffset
            (PasswordsService.Create createReq)).
  rewrite run_invokePasswords. intros Hres Hbody.
  apply follow_answered in Hres. destruct Hres as [_ ->].
  cbn [coursePasswords finish]. unfold decoded. rewrite Hbody.
  vm_compute. reflexivity.
Qed.

Lemma Decode_stamp (old : time.Time) :
  json.Decode (json.storeTime localOffset) stamp old
  = inl (time.Date 2021 1 14 10 19 23 0).
Proof. vm_compute. reflexivity. Qed.

Lemma Decode_stamped (old : DeployRequest.t) :
  json.Decode (DeployRequest.store localOffset) stamped old
  = inl (DeployRequest.set_ClosedAt (Some (time.Date 2021 1 14 10 19 23 0))
           (DeployRequest.set_UpdatedAt (time.Date 2021 1 14 10 19 23 0)
              (DeployRequest.set_CreatedAt (time.Date 2021 1 14 10 19 23 0) old))).
Proof. destruct old. vm_compute. reflexivity. Qed.

(** C6. The timestamp ["2021-01-14T10:19:23.000Z"] of the server
    decodes to January 14, 2021, 10:19:23.000 UTC, that is 1610619563
    seconds after the Unix epoch, whatever the variable held before; so
    decoding the same payload once more, any number of times, gives that
    same instant, alone or as a timestamp of a deploy request. *)
Theorem timestamp_decodes_idempotently :
  let t := time.Date 2021 1 14 10 19 23 0 in
  t = time.mkTime 1610619563 0 time.UTC
  /\ time.parseRFC3339 localOffset "2021-01-14T10:19:23.000Z" = Some t
  /\ (forall (n : nat) (old : time.Time),
        json.DecodeTimes (json.storeTime localOffset) stamp (S n) old = inl t)
  /\ (forall (n : nat) (old : DeployRequest.t),
        exists dr,
          json.DecodeTimes (DeployRequest.store localOffset) stamped (S n) old = inl dr
          /\ DeployRequest.CreatedAt dr = t
          /\ DeployRequest.UpdatedAt dr = t
          /\ DeployRequest.ClosedAt dr = Some t).
Proof.
  intros t. subst t. split; [reflexivity|]. split; [reflexivity|]. split.
  - induction n as [|n IH]; intros old.
    + cbn [json.DecodeTimes]. rewrite Decode_stamp. reflexivity.
    + change (json.DecodeTimes (json.storeTime localOffset) stamp (S (S n)) old)
        with (match json.Decode (json.storeTime localOffset) stamp old with
              | inl x' => json.DecodeTimes (json.storeTime localOffset) stamp (S n) x'
              | inr e => inr e
              end).
      rewrite Decode_stamp. apply IH.
  - induction n as [|n IH]; intros old.
    + cbn [json.DecodeTimes]. rewrite Decode_stamped. eexists. split; [reflexivity|].
      split; [reflexivity|]. split; reflexivity.
    + change (json.DecodeTimes (DeployRequest.store localOffset) stamped (S (S n)) old)
        with (match json.Decode (DeployRequest.store localOffset) stamped old with
              | inl x' => json.DecodeTimes (DeployRequest.store localOffset) stamped (S n) x'
              | inr e => inr e
              end).
      rewrite Decode_stamped. apply IH.
Qed.

End Decoding.

(** ** Runs against the client of the examples *)

Section Examples.

Import errors planetscale planetscale.scripted.

(** C7, as stated, fails: [Get] against a transport that refuses the
    connection returns the error of the transport itself, which is not
    that error wrapped with a prefix, whatever the prefix. *)
Lemma transport_failure_not_wrapped :
  let r := run (scripted.client None (inr refused))
             (deployRequestsService.Get scripted.Request scripted.databasesAPIPath
                scripted.localOffset getReq) tt in
  transportErrors (traceOf r) = [refused]
  /\ outcomeOf r = Returned (None, Some refused)
  /\ forall prefix : string,
       outcomeOf r <> Returned (None, Wrap (Some refused) prefix).
Proof.
  split; [reflexivity|]. split; [reflexivity|].
  intros prefix H. vm_compute in H. discriminate H.
Qed.

Lemma transport_failure_returned_unchanged_witness :
  let r := run (scripted.client None (inr refused))
             (invoke scripted.Request scripted.databasesAPIPath scripted.localOffset
                (DeployRequestsService.Get getReq)) tt in
  In refused (transportErrors (traceOf r))
  /\ (outcomeOf r = Returned (None, Some refused)
      /\ roundTrips (traceOf r) = 1%nat
      /\ exists method path body req,
           traceOf r =
           [Event (newRequest method path body) (inl req);
            Event (Do req) (inr refused)]).
Proof.
  split.
  - left. reflexivity.
  - apply (transport_failure_returned_unchanged
             scripted.databasesAPIPath scripted.localOffset
             (scripted.client None (inr refused))
             (DeployRequestsService.Get getReq) tt refused).
    left. reflexivity.
Defined.

(** C3, as stated, fails: a server that reports no deploy request by
    a [data] member that is [null] makes [List] return a nil sequence,
    where the claim has a sequence that is not nil. *)
Lemma List_of_none_may_be_nil :
  reportsNone (json.text "{'data':null}") = false
  /\ outcomeOf
       (run (scripted.serving (json.text "{'data':null}"))
          (deployRequestsService.List scripted.Request scripted.databasesAPIPath
             scripted.localOffset listReq) tt)
     = Returned (None, None).
Proof. split; vm_compute; reflexivity. Qed.

(** C10, as stated, fails for [List]: when the envelope has no [data]
    member the slice returned is nil and so is the error. *)
Lemma List_returns_nil_without_error :
  outcomeOf
    (run (scripted.serving "{}")
       (deployRequestsService.List scripted.Request scripted.databasesAPIPath
          scripted.localOffset listReq) tt)
  = Returned (None, None).
Proof. vm_compute. reflexivity. Qed.

(** A body [null] makes the pointer to the envelope nil, and [List]
    panics on reading its field. *)
Lemma List_panics_on_null :
  outcomeOf
    (run (scripted.serving "null")
       (deployRequestsService.List scripted.Request scripted.databasesAPIPath
          scripted.localOffset listReq) tt)
  = Panicked nilDereference.
Proof. vm_compute. reflexivity. Qed.

Lemma result_or_error_witness :
  let r := run (scripted.serving "{}")
             (invoke scripted.Request scripted.databasesAPIPath scripted.localOffset
                (DeployRequestsService.Get getReq)) tt in
  let l := run (scripted.serving "{}")
             (deployRequestsService.List scripted.Request scripted.databasesAPIPath
                scripted.localOffset listReq) tt in
  target scripted.localOffset (DeployRequestsService.Get getReq)
  = Some (DeployRequest.zero, DeployRequest.store scripted.localOffset)
  /\ (((exists v e, outcomeOf r = Returned (v, e)
                    /\ ((v = None /\ e <> None) \/ (v <> None /\ e = None)))
       /\ match responses (traceOf r) with
          | [] => exists err, outcomeOf r = Returned (None, Some err)
          | res :: _ =>
              outcomeOf r =
              match json.Decode (DeployRequest.store scripted.localOffset)
                      (http.Body res) DeployRequest.zero with
              | inl x => Returned (Some x, None)
              | inr err => Returned (None, Some err)
              end
          end)
      /\ match responses (traceOf l) with
         | [] => exists err, outcomeOf l = Returned (None, Some err)
         | res :: _ =>
             match json.Decode
                     (json.storePtr deployRequestsResponse.zero
                        (deployRequestsResponse.store scripted.localOffset))
                     (http.Body res) (Some deployRequestsResponse.zero) with
             | inr err => outcomeOf l = Returned (None, Some err)
             | inl (Some resp) =>
                 outcomeOf l =
                 Returned (deployRequestsResponse.DeployRequests resp, None)
             | inl None => True
             end
         end).
Proof.
  split.
  - reflexivity.
  - apply (result_or_error scripted.databasesAPIPath scripted.localOffset
             (scripted.serving "{}") (DeployRequestsService.Get getReq)
             tt listReq tt).
    reflexivity.
Defined.

Lemma List_of_none_is_empty_witness :
  let res := http.mkResponse 200 scripted.emptyList in
  let bare := http.mkResponse 200 "{}" in
  let r := run (scripted.serving scripted.emptyList)
             (deployRequestsService.List scripted.Request scripted.databasesAPIPath
                scripted.localOffset listReq) tt in
  let n := run (scripted.serving "{}")
             (deployRequestsService.List scripted.Request scripted.databasesAPIPath
                scripted.localOffset listReq) tt in
  let r' := run (scripted.serving scripted.emptyList)
              (passwordsService.List scripted.Request scripted.passwordsAPIPath
                 scripted.localOffset listPasswordsReq) tt in
  (In res (responses (traceOf r))
   /\ reportsNone (http.Body res) = true
   /\ outcomeOf r = Returned (Some [], None))
  /\ (In bare (responses (traceOf n))
      /\ reportsNil (http.Body bare) = true
      /\ outcomeOf n = Returned (None, None))
  /\ (In res (responses (traceOf r'))
      /\ reportsNone (http.Body res) = true
      /\ outcomeOf r' = Returned (Some [], None)).
Proof.
  intros res bare r n r'.
  pose proof (List_of_none_is_empty scripted.databasesAPIPath
                scripted.passwordsAPIPath scripted.localOffset
                (scripted.serving scripted.emptyList)) as (Hlist & Hpasswords & _).
  pose proof (List_of_none_is_empty scripted.databasesAPIPath
                scripted.passwordsAPIPath scripted.localOffset
                (scripted.serving "{}")) as (Hnil & _).
  assert (Hin : In res (responses (traceOf r))) by (left; reflexivity).
  assert (Hin' : In res (responses (traceOf r'))) by (left; reflexivity).
  assert (Hinn : In bare (responses (traceOf n))) by (left; reflexivity).
  assert (Hnone : reportsNone (http.Body res) = true) by reflexivity.
  assert (Hnothing : reportsNil (http.Body bare) = true) by reflexivity.
  split; [|split].
  - split; [exact Hin|]. split; [exact Hnone|].
    exact (proj1 (Hlist listReq tt res Hin) Hnone).
  - split; [exact Hinn|]. split; [exact Hnothing|].
    exact (proj2 (Hnil listReq tt bare Hinn) Hnothing).
  - split; [exact Hin'|]. split; [exact Hnone|].
    exact (Hpasswords listPasswordsReq tt res Hin' Hnone).
Defined.

Lemma Passwords_Create_returns_record_witness :
  let res := http.mkResponse 200 createdBody in
  let r := run (scripted.serving createdBody)
             (passwordsService.Create scripted.Request scripted.passwordsAPIPath
                scripted.localOffset passwordReq) tt in
  In res (responses (traceOf r))
  /\ http.Body res = createdBody
  /\ outcomeOf r =
     Returned
       (Some {| DatabaseBranchPassword.Name := "x";
                DatabaseBranchPassword.PublicID := "x";
                DatabaseBranchPassword.UserName := "x";
                DatabaseBranchPassword.CreatedAt := time.Date 2021 1 14 10 19 23 0;
                DatabaseBranchPassword.Role := "writer";
                DatabaseBranchPassword.PlainText := "secret" |},
        None).
Proof.
  split; [left; reflexivity|].
  split; [reflexivity|].
  apply (Passwords_Create_returns_record scripted.passwordsAPIPath
           scripted.localOffset (scripted.serving createdBody)
           passwordReq tt (http.mkResponse 200 createdBody)).
  - left; reflexivity.
  - reflexivity.
Defined.

End Examples.

(* ===================================================================== *)
(** * Further properties of the service                                   *)
(* ===================================================================== *)

(** ** Strings of digits in paths *)

Section PathFacts.

Import fmt.
Local Open Scope string_scope.

Lemma append_cancel_l (a x y : string) : a ++ x = a ++ y -> x = y.
Proof.
  induction a as [|c a IH]; simpl; intros H; [exact H|].
  inversion H. auto.
Qed.

Lemma length_append (a b : string) :
  String.length (a ++ b) = (String.length a + String.length b)%nat.
Proof. induction a; simpl; congruence. Qed.

(** Two strings of digits, each followed by a slash: the digits are the
    same and so is what follows. *)
Lemma digits_then_slash (s : string) : forall t acc acc' v v' x y,
  decimalValueFrom acc s = Some v ->
  decimalValueFrom acc' t = Some v' ->
  s ++ String "/" x = t ++ String "/" y ->
  s = t /\ x = y.
Proof.
  induction s as [|c s IH]; intros [|c' t] acc acc' v v' x y Hs Ht H; simpl in *.
  - inversion H. auto.
  - inversion H; subst. discriminate.
  - inversion H; subst. discriminate.
  - inversion H; subst.
    destruct (digitValue c') as [d|]; [|discriminate].
    destruct (IH t _ _ _ _ _ _ Hs Ht H2) as [-> ->]. auto.
Qed.

(** A string of digits has no slash in it. *)
Lemma digits_end (s : string) : forall t acc acc' v v' y,
  decimalValueFrom acc s = Some v ->
  decimalValueFrom acc' t = Some v' ->
  s = t ++ String "/" y -> False.
Proof.
  induction s as [|c s IH]; intros [|c' t] acc acc' v v' y Hs Ht H; simpl in *;
    try discriminate.
  - inversion H; subst. discriminate.
  - inversion H; subst.
    destruct (digitValue c') as [d|]; [|discriminate].
    eapply IH; eauto.
Qed.

Lemma fmtInteger_digits (n : N) : decimalValueFrom 0 (fmtInteger n) = Some n.
Proof.
  destruct (fmtInteger_decimalOf n) as [H _]. unfold decimalValue in H.
  destruct (fmtInteger n); [discriminate | exact H].
Qed.

Lemma fmtInteger_inj (n n' : N) : fmtInteger n = fmtInteger n' -> n = n'.
Proof.
  intros H. pose proof (fmtInteger_digits n) as Hn.
  rewrite H, fmtInteger_digits in Hn. congruence.
Qed.

End PathFacts.

Section MorePaths.

Import planetscale.deployRequestsService.
Local Open Scope string_scope.

Variable databasesAPIPath : string -> string.

Lemma deployRequestAPIPath_inj (o d : string) (n n' : N) :
  deployRequestAPIPath databasesAPIPath o d n =
  deployRequestAPIPath databasesAPIPath o d n' -> n = n'.
Proof.
  rewrite !deployRequestAPIPath_eq. intros H.
  apply append_cancel_l in H. simpl in H. inversion H.
  now apply fmtInteger_inj.
Qed.

Lemma deployRequestActionAPIPath_inj (o d : string) (n n' : N) (v v' : string) :
  deployRequestActionAPIPath databasesAPIPath o d n v =
  deployRequestActionAPIPath databasesAPIPath o d n' v' -> n = n' /\ v = v'.
Proof.
  rewrite !deployRequestActionAPIPath_eq, !deployRequestAPIPath_eq. intros H.
  rewrite !append_assoc in H. apply append_cancel_l in H. simpl in H.
  inversion H as [H1].
  destruct (@digits_then_slash _ _ _ _ _ _ _ _ (fmtInteger_digits n)
              (fmtInteger_digits n') H1) as [E1 E2].
  split; [now apply fmtInteger_inj | exact E2].
Qed.

Lemma resource_is_no_action (o d : string) (n n' : N) (v : string) :
  deployRequestAPIPath databasesAPIPath o d n <>
  deployRequestActionAPIPath databasesAPIPath o d n' v.
Proof.
  rewrite !deployRequestActionAPIPath_eq, !deployRequestAPIPath_eq. intros H.
  rewrite !append_assoc in H. apply append_cancel_l in H. simpl in H.
  inversion H as [H1].
  exact (@digits_end _ _ _ _ _ _ _ (fmtInteger_digits n) (fmtInteger_digits n') H1).
Qed.

Lemma collection_is_no_resource (o d : string) (n : N) :
  deployRequestsAPIPath databasesAPIPath o d <>
  deployRequestAPIPath databasesAPIPath o d n.
Proof.
  rewrite deployRequestAPIPath_eq. intros H.
  apply (f_equal String.length) in H.
  rewrite length_append in H. simpl in H. lia.
Qed.

Lemma collection_is_no_action (o d : string) (n : N) (v : string) :
  deployRequestsAPIPath databasesAPIPath o d <>
  deployRequestActionAPIPath databasesAPIPath o d n v.
Proof.
  rewrite deployRequestActionAPIPath_eq, deployRequestAPIPath_eq. intros H.
  apply (f_equal String.length) in H.
  rewrite !length_append in H. simpl in H. lia.
Qed.

(** X6. Within one database the paths tell the resources apart: the
    path of a deploy request determines its number, an action path
    determines the number and the verb, and no path of one of the three
    kinds (collection, deploy request, action) is a path of another
    kind. *)
Theorem paths_tell_resources_apart (o d : string) (n n' : N) (v v' : string) :
  (deployRequestAPIPath databasesAPIPath o d n =
   deployRequestAPIPath databasesAPIPath o d n' <-> n = n')
  /\ (deployRequestActionAPIPath databasesAPIPath o d n v =
      deployRequestActionAPIPath databasesAPIPath o d n' v' <-> n = n' /\ v = v')
  /\ deployRequestAPIPath databasesAPIPath o d n <>
     deployRequestActionAPIPath databasesAPIPath o d n' v
  /\ deployRequestsAPIPath databasesAPIPath o d <>
     deployRequestAPIPath databasesAPIPath o d n
  /\ deployRequestsAPIPath databasesAPIPath o d <>
     deployRequestActionAPIPath databasesAPIPath o d n v.
Proof.
  split; [|split; [|split; [|split]]].
  - split; [apply deployRequestAPIPath_inj | intros ->; reflexivity].
  - split; [apply deployRequestActionAPIPath_inj | intros [-> ->]; reflexivity].
  - apply resource_is_no_action.
  - apply collection_is_no_resource.
  - apply collection_is_no_action.
Qed.

End MorePaths.

(** ** Numbers in a body *)

Section NumberFacts.

Import fmt json errors planetscale.
Local Open Scope string_scope.

Lemma digitValue_isDigit (c : ascii) (d : N) :
  digitValue c = Some d -> bytes.isDigit c = true.
Proof.
  unfold digitValue, bytes.isDigit. cbv zeta.
  destruct ((48 <=? N_of_ascii c) && (N_of_ascii c <=? 57))%N;
    [reflexivity | discriminate].
Qed.

(** A run of digits before a closing brace is read as one number. *)
Lemma scanNumber_digits (ds : string) : forall acc v,
  decimalValueFrom acc ds = Some v ->
  scanNumber Int (ds ++ "}") = Ok ds "}".
Proof.
  induction ds as [|c ds IH]; intros acc v H.
  - reflexivity.
  - cbn [decimalValueFrom] in H.
    destruct (digitValue c) as [d|] eqn:Ed; [|discriminate].
    cbn [append scanNumber]. unfold numberStep.
    rewrite (digitValue_isDigit _ Ed). rewrite (IH _ _ H). reflexivity.
Qed.

Lemma digit_cases (d : N) : (d < 10)%N ->
  d = 0%N \/ d = 1%N \/ d = 2%N \/ d = 3%N \/ d = 4%N \/ d = 5%N
  \/ d = 6%N \/ d = 7%N \/ d = 8%N \/ d = 9%N.
Proof. lia. Qed.

Lemma scanValue_decimal (g : nat) (n : N) :
  scanValue (S g) (fmtInteger n ++ "}") = Ok (Number (fmtInteger n)) "}".
Proof.
  pose proof (fmtInteger_digits n) as Hv.
  destruct (fmtInteger_decimalOf n) as [_ [E|(c & rest & E & Hc)]].
  - rewrite E. reflexivity.
  - rewrite E in *. cbn [decimalValueFrom] in Hv.
    destruct (digitValue c) as [d|] eqn:Ed; [|discriminate].
    assert (Hs : scanNumber Int (rest ++ "}") = Ok rest "}")
      by (eapply scanNumber_digits; exact Hv).
    assert (Hd : (d < 10)%N) by (eapply digitValue_lt; exact Ed).
    assert (Hcd : c = digit d).
    { pose proof (digitValue_digit Hd) as Ed'.
      eapply digitValue_inj; [exact Ed | exact Ed']. }
    subst c.
    destruct (digit_cases Hd) as [->|[->|[->|[->|[->|[->|[->|[->|[->| ->]]]]]]]]];
      try (exfalso; apply Hc; reflexivity);
      cbn [append]; cbn -[scanNumber append]; rewrite Hs; reflexivity.
Qed.

Lemma scanValue_numbered (g : nat) (n : N) :
  scanValue (S (S (S g))) (numbered n) =
  Ok (Object [("number", Number (fmtInteger n))]) "".
Proof.
  unfold numbered.
  change (text "{'number':")
    with (String "{" (String "034" ("number" ++ String "034" ":"))).
  cbn [append]. cbn [scanValue]. cbn [skipSpace isSpace].
  cbn -[scanValue scanMembers fmtInteger append].
  cbn [scanMembers]. cbn -[scanValue scanMembers fmtInteger append].
  rewrite scanValue_decimal. reflexivity.
Qed.

Lemma readValue_numbered (n : N) :
  readValue (numbered n) =
  inl (Object [("number", Number (fmtInteger n))]).
Proof.
  unfold readValue.
  replace (2 * String.length (numbered n) + 2)%nat
    with (S (S (S (2 * String.length (numbered n) - 1)))).
  - rewrite scanValue_numbered. reflexivity.
  - unfold numbered.
    change (text "{'number':")
      with (String "{" (String "034" ("number" ++ String "034" ":"))).
    cbn [append String.length]. lia.
Qed.

(** The number printed in a path is the number read from a body, up to
    the range of [uint64]. *)
Lemma Decode_numbered (localOffset : Z -> Z) (n : N) (old : DeployRequest.t) :
  Decode (DeployRequest.store localOffset) (numbered n) old =
  if (n <? 2 ^ 64)%N then inl (DeployRequest.set_Number n old)
  else inr (UnmarshalTypeError ("number " ++ fmtInteger n) "uint64").
Proof.
  unfold Decode. rewrite readValue_numbered.
  unfold DeployRequest.store. cbn [storeStruct storeMembers].
  change (unquote "number") with (Some "number").
  assert (Hf : findField (DeployRequest.fields localOffset) "number" =
               Some (Field "number"
                       (into DeployRequest.Number DeployRequest.set_Number
                          storeUint64))) by reflexivity.
  cbv beta iota. rewrite Hf. cbn [store]. unfold into, storeUint64.
  destruct (fmtInteger_decimalOf n) as [-> _].
  destruct (n <? 2 ^ 64)%N; reflexivity.
Qed.

End NumberFacts.

(** ** Bodies whose first value is [null] *)

Section NullFacts.

Import json.
Local Open Scope string_scope.

Lemma scanLiteral_prefix (expect : string) : forall s tl,
  scanLiteral expect s = Ok tt tl -> s = expect ++ tl.
Proof.
  induction expect as [|e expect IH]; intros s tl H; simpl in H.
  - inversion H; reflexivity.
  - destruct s as [|c s]; [discriminate|].
    destruct (Ascii.eqb c e) eqn:Ec; [|discriminate].
    apply Ascii.eqb_eq in Ec. subst c. simpl. f_equal. apply IH, H.
Qed.

(** The first value of a body is [null] exactly when the body, after
    leading white space, begins with the four bytes of [null]. *)
Lemma readValue_null (body : string) :
  readValue body = inl Null <-> exists rest, skipSpace body = "null" ++ rest.
Proof.
  unfold readValue.
  replace (2 * String.length body + 2)%nat with (S (2 * String.length body + 1)) by lia.
  cbn [scanValue]. split.
  - intros H. destruct (skipSpace body) as [|c rest] eqn:Es; [discriminate|].
    repeat match type of H with
           | context [if ?b then _ else _] => destruct b eqn:?
           | context [match after ?c ?s with _ => _ end] => destruct (after c s)
           end;
      try match type of H with
          | context [mapScan ?f ?r] => destruct r as [a tl| | |] eqn:Er; cbn [mapScan] in H
          end;
      try discriminate.
    match goal with E : Ascii.eqb c "n" = true |- _ => apply Ascii.eqb_eq in E; subst c end.
    destruct a. apply scanLiteral_prefix in Er. subst rest. exists tl. reflexivity.
  - intros [rest ->]. reflexivity.
Qed.

End NullFacts.

(** ** What a body leaves of a record *)

Section DecodeFacts.

Import errors planetscale.

(** [Decode] through a pointer to a pointer leaves the pointer nil
    exactly for the body [null]. *)
Lemma Decode_storePtr_nil A (zero : A) (d : json.decoder A) (body : string)
    (old : option A) :
  json.Decode (json.storePtr zero d) body old = inl None
  <-> json.readValue body = inl json.Null.
Proof.
  unfold json.Decode. destruct (json.readValue body) as [v|e].
  - destruct v; simpl;
      try (destruct (d _ _ None) as [a [e|]|e]; simpl; split; intros H; discriminate H).
    split; reflexivity.
  - split; intros H; discriminate H.
Qed.

(** Members that match no field are skipped. *)
Lemma storeMembers_unrecognised T (fields : list (json.field T))
    (members : list (string * json.value)) (t : T) (saved : option error) :
  forallb (fun m => unrecognised fields (fst m)) members = true ->
  json.storeMembers fields members t saved = json.Done t saved.
Proof.
  induction members as [|[k v] members IH]; intros H; [reflexivity|].
  simpl in H. apply andb_true_iff in H. destruct H as [Hk H].
  cbn [json.storeMembers]. unfold unrecognised in Hk. cbn [fst] in Hk.
  destruct (json.unquote k) as [key|]; [|discriminate].
  destruct (json.findField fields key); [discriminate|]. apply IH, H.
Qed.

(** A blank body leaves the record as it was, with no error. *)
Lemma Decode_blank T (name : string) (fields : list (json.field T))
    (body : string) (t : T) :
  blank fields body = true ->
  json.Decode (json.storeStruct name fields) body t = inl t.
Proof.
  unfold blank, json.Decode.
  destruct (json.readValue body) as [[| | | | |members]|]; try discriminate.
  - reflexivity.
  - intros H. cbn [json.storeStruct]. rewrite storeMembers_unrecognised by exact H.
    reflexivity.
Qed.

Lemma findField_In T (fields : list (json.field T)) (key : string) (f : json.field T) :
  json.findField fields key = Some f ->
  In f fields /\ json.foldName (json.name f) = json.foldName key.
Proof.
  unfold json.findField.
  destruct (find (fun f => String.eqb (json.name f) key) fields) as [f'|] eqn:E.
  - intros H; inversion H; subst. apply find_some in E. destruct E as [Hin E].
    apply String.eqb_eq in E. split; [exact Hin | now rewrite E].
  - intros H. apply find_some in H. destruct H as [Hin H].
    apply String.eqb_eq in H. auto.
Qed.

(** What the members of an object leave alone: a part [g] of the record
    that only the field [name] writes, when no member goes to [name]. *)
Lemma storeMembers_frame T B (g : T -> B) (fields : list (json.field T))
    (name : string) :
  (forall f, In f fields ->
             json.foldName (json.name f) <> json.foldName name ->
             forall v t saved t' saved',
               json.store f v t saved = json.Done t' saved' -> g t' = g t) ->
  forall members t saved t' saved',
    absent name members = true ->
    json.storeMembers fields members t saved = json.Done t' saved' ->
    g t' = g t.
Proof.
  intros Hf. induction members as [|[k v] members IH]; intros t saved t' saved' Ha H.
  - simpl in H. inversion H. reflexivity.
  - simpl in Ha. apply andb_true_iff in Ha. destruct Ha as [Hk Ha].
    cbn [json.storeMembers] in H.
    destruct (json.unquote k) as [key|]; [|discriminate].
    apply negb_true_iff, String.eqb_neq in Hk.
    destruct (json.findField fields key) as [f|] eqn:Ef.
    + apply findField_In in Ef. destruct Ef as [Hin Hn].
      destruct (json.store f v t saved) as [t1 saved1|e] eqn:Es; [|discriminate].
      cbn [json.bindResult] in H.
      rewrite (IH _ _ _ _ Ha H).
      eapply Hf; eauto. congruence.
    + eapply IH; eauto.
Qed.

Lemma into_frame T A B (g : T -> B) (get : T -> A) (set : A -> T -> T)
    (d : json.decoder A) :
  (forall a t, g (set a t) = g t) ->
  forall v t saved t' saved',
    json.into get set d v t saved = json.Done t' saved' -> g t' = g t.
Proof.
  intros Hs v t saved t' saved'. unfold json.into.
  destruct (d v (get t) saved); simpl; intros H; inversion H; subst. apply Hs.
Qed.

Variable localOffset : Z -> Z.

(** Every field of the table but the one named leaves [g] alone. *)
Ltac others :=
  intros f Hin Hne; cbn [DeployRequest.fields In] in Hin;
  repeat (destruct Hin as [<-|Hin];
          [first [ cbn [json.store]; apply into_frame; intros; reflexivity
                 | exfalso; apply Hne; reflexivity ]|]);
  destruct Hin.

Lemma DeployRequest_frame (members : list (string * json.value))
    (t t' : DeployRequest.t) (saved saved' : option error) :
  json.storeMembers (DeployRequest.fields localOffset) members t saved =
    json.Done t' saved' ->
  keptWhereAbsent members t' t.
Proof.
  intros H. unfold keptWhereAbsent.
  repeat split; intros Ha;
    (eapply storeMembers_frame; [| exact Ha | exact H]); others.
Qed.

End DecodeFacts.

(** ** The elements of a list *)

Section ListFacts.

Import errors planetscale.

Variable A : Type.
Variable zero : A.
Variable d : json.decoder A.

(** A slice of pointers gets one element per element of the array, nil
    exactly where the array has [null]. *)
Lemma storeElements_pointers (elems : list json.value) :
  forall (old : list (option A)) (saved saved' : option error) (l : list (option A)),
    json.storeElements None (json.storePtr zero d) elems old saved = json.Done l saved' ->
    Forall2 nilWhereNull elems l.
Proof.
  induction elems as [|v elems IH]; intros old saved saved' l H.
  - simpl in H. inversion H. constructor.
  - cbn [json.storeElements] in H.
    destruct (json.storePtr zero d v (hd None old) saved) as [p saved1|e] eqn:Ep;
      [|discriminate].
    cbn [json.bindResult] in H.
    destruct (json.storeElements None (json.storePtr zero d) elems (tl old) saved1)
      as [l' saved2|e] eqn:El; [|discriminate].
    cbn [json.bindResult] in H. inversion H; subst.
    constructor; [|eapply IH; eauto].
    unfold nilWhereNull. unfold json.storePtr in Ep.
    destruct v; try (inversion Ep; subst; split; reflexivity);
      destruct (d _ _ saved) as [a s1|e]; simpl in Ep; inversion Ep; subst;
      split; intros H'; discriminate H'.
Qed.

Variable T : Type.
Variable get : T -> option (list (option A)).
Variable set : option (list (option A)) -> T -> T.
Variable type : string.

(** An envelope whose one [data] member is an array stores the elements
    of the array into a fresh slice. *)
Lemma storeStruct_dataOf (name body : string) (t : T) (elems : list json.value) :
  dataOf body = Some elems ->
  get t = None ->
  exists members,
    json.readValue body = inl (json.Object members)
    /\ forall saved,
         json.storeStruct name
           [json.Field "data"
              (json.into get set (json.storeSlice type None (json.storePtr zero d)))]
           (json.Object members) t saved =
         json.bindResult
           (json.storeElements None (json.storePtr zero d) elems [] saved)
           (fun l saved' => json.Done (set (Some l) t) saved').
Proof.
  unfold dataOf. intros H Hget.
  destruct (json.readValue body) as [[| | | | |members]|] eqn:Er; try discriminate.
  pose proof (readValue_names_unquote body Er) as Hq.
  exists members. split; [reflexivity|]. intros saved.
  cbn [json.storeStruct].
  rewrite (storeMembers_data_only get set type None (json.storePtr zero d) members Hq).
  destruct (filter (fun m => isData (fst m)) members) as [|[k v] rest] eqn:Ef;
    [discriminate|].
  destruct v as [| | | |elems'|]; try discriminate.
  destruct rest; [|discriminate]. inversion H; subst.
  assert (Hin : In (k, json.Array elems) (filter (fun m => isData (fst m)) members))
    by (rewrite Ef; now left).
  apply filter_In in Hin. destruct Hin as [_ Hk]. cbn [fst] in Hk.
  unfold isData in Hk. cbn [json.storeMembers].
  destruct (json.unquote k) as [key|]; [|discriminate].
  rewrite (findField_data get set type None (json.storePtr zero d)), Hk.
  cbn [json.store]. unfold json.into, json.storeSlice. rewrite Hget.
  destruct (json.storeElements None (json.storePtr zero d) elems [] saved); reflexivity.
Qed.

End ListFacts.

(** ** Errors saved while decoding *)

Section KeepsError.

Import errors json planetscale.

Lemma storeString_keeps : keepsError storeString.
Proof.
  intros v old e a saved'. unfold storeString, mismatch.
  destruct v; try (intros H; inversion H; discriminate).
  destruct (unquote raw); intros H; inversion H; discriminate.
Qed.

Lemma storeBool_keeps : keepsError storeBool.
Proof.
  intros v old e a saved'. unfold storeBool, mismatch.
  destruct v; intros H; inversion H; discriminate.
Qed.

Lemma storeUint64_keeps : keepsError storeUint64.
Proof.
  intros v old e a saved'. unfold storeUint64, mismatch.
  destruct v; try (intros H; inversion H; discriminate).
  destruct (fmt.decimalValue lit) as [n|]; [destruct (n <? 2 ^ 64)%N|];
    intros H; inversion H; discriminate.
Qed.

Lemma storeTime_keeps (localOffset : Z -> Z) : keepsError (storeTime localOffset).
Proof.
  intros v old e a saved'. unfold storeTime.
  destruct v; try (intros H; inversion H; discriminate).
  destruct (time.parseRFC3339 localOffset raw); intros H; inversion H; discriminate.
Qed.

Lemma storePtr_keeps A (zero : A) (d : decoder A) :
  keepsError d -> keepsError (storePtr zero d).
Proof.
  intros Hd v old e a saved'. unfold storePtr.
  destruct v; try (intros H; inversion H; discriminate);
    destruct (d _ _ (Some e)) as [a' s'|e'] eqn:Ed; simpl; intros H; inversion H; subst;
    eapply Hd; exact Ed.
Qed.

Lemma into_keeps T A (get : T -> A) (set : A -> T -> T) (d : decoder A) :
  keepsError d -> keepsError (into get set d).
Proof.
  intros Hd v old e a saved'. unfold into.
  destruct (d v (get old) (Some e)) as [a' s'|e'] eqn:Ed; simpl; intros H; inversion H; subst.
  eapply Hd; exact Ed.
Qed.

Lemma storeMembers_keeps T (fields : list (field T)) :
  Forall (fun f => keepsError (store f)) fields ->
  forall members t e t' saved',
    storeMembers fields members t (Some e) = Done t' saved' -> saved' <> None.
Proof.
  intros Hf. induction members as [|[k v] members IH]; intros t e t' saved' H.
  - simpl in H. inversion H. discriminate.
  - cbn [storeMembers] in H.
    destruct (unquote k) as [key|]; [|discriminate].
    destruct (findField fields key) as [f|] eqn:Ef; [|eapply IH; exact H].
    apply findField_In in Ef. destruct Ef as [Hin _].
    rewrite Forall_forall in Hf. specialize (Hf f Hin).
    destruct (store f v t (Some e)) as [t1 s1|e1] eqn:Es; [|discriminate].
    cbn [bindResult] in H. destruct s1 as [e1|].
    + eapply IH; exact H.
    + exfalso. eapply Hf; [exact Es | reflexivity].
Qed.

Lemma storeStruct_keeps T (type : string) (fields : list (field T)) :
  Forall (fun f => keepsError (store f)) fields ->
  keepsError (storeStruct type fields).
Proof.
  intros Hf v old e a saved'. unfold storeStruct, mismatch.
  destruct v; try (intros H; inversion H; discriminate).
  apply storeMembers_keeps, Hf.
Qed.

Lemma DeployRequest_store_keeps (localOffset : Z -> Z) :
  keepsError (DeployRequest.store localOffset).
Proof.
  apply storeStruct_keeps. unfold DeployRequest.fields.
  repeat constructor; cbn [store]; apply into_keeps;
    first [ apply storeString_keeps | apply storeBool_keeps | apply storeUint64_keeps
          | apply storeTime_keeps | apply storePtr_keeps, storeTime_keeps ].
Qed.

Lemma storeElements_keeps A (zero : A) (d : decoder A) :
  keepsError d ->
  forall elems old e l saved',
    storeElements zero d elems old (Some e) = Done l saved' -> saved' <> None.
Proof.
  intros Hd. induction elems as [|v elems IH]; intros old e l saved' H.
  - simpl in H. inversion H. discriminate.
  - cbn [storeElements] in H.
    destruct (d v (hd zero old) (Some e)) as [a s1|e1] eqn:Ed; [|discriminate].
    cbn [bindResult] in H.
    destruct (storeElements zero d elems (tl old) s1) as [l' s2|e2] eqn:El; [|discriminate].
    cbn [bindResult] in H. inversion H; subst.
    destruct s1 as [e1|].
    + eapply IH; exact El.
    + exfalso. eapply Hd; [exact Ed | reflexivity].
Qed.

(** A fresh slice is filled without an error exactly with what each
    element gives on its own, in the order of the elements. *)
Lemma storeElements_each A (zero : A) (d : decoder A) :
  keepsError d ->
  forall elems l,
    storeElements zero d elems [] None = Done l None
    <-> Forall2 (fun v a => d v zero None = Done a None) elems l.
Proof.
  intros Hd. induction elems as [|v elems IH]; intros l.
  - simpl. split.
    + intros H. inversion H. constructor.
    + intros H. inversion H. reflexivity.
  - cbn [storeElements hd tl]. split.
    + intros H.
      destruct (d v zero None) as [a s1|e1] eqn:Ed; [|discriminate].
      cbn [bindResult] in H.
      destruct (storeElements zero d elems [] s1) as [l' s2|e2] eqn:El; [|discriminate].
      cbn [bindResult] in H. inversion H; subst.
      destruct s1 as [e1|].
      * exfalso. eapply storeElements_keeps; [exact Hd | exact El | reflexivity].
      * constructor; [exact Ed | apply IH, El].
    + intros H. inversion H as [|v' a elems' l' Ha Hl]; subst.
      rewrite Ha. cbn [bindResult]. apply IH in Hl. rewrite Hl. reflexivity.
Qed.

End KeepsError.

(** ** What follows the first value of a body *)

Section Trailing.

Import json.
Local Open Scope string_scope.

Variable junk : string.

Lemma skipSpace_append (s : string) (c : ascii) (rest : string) :
  skipSpace s = String c rest -> skipSpace (s ++ junk) = String c (rest ++ junk).
Proof.
  induction s as [|c0 s IH]; simpl; [discriminate|].
  destruct (isSpace c0); [exact IH|]. intros H; inversion H; reflexivity.
Qed.

Lemma scanString_append (s : string) : forall st raw tl,
  scanString st s = Ok raw tl -> scanString st (s ++ junk) = Ok raw (tl ++ junk).
Proof.
  induction s as [|c s IH]; intros st raw tl H; simpl in H; [discriminate|].
  assert (Hstep : forall st', mapScan (String c) (scanString st' s) = Ok raw tl ->
                  mapScan (String c) (scanString st' (s ++ junk)) = Ok raw (tl ++ junk)).
  { intros st' H'. apply mapScan_Ok in H'. destruct H' as (a & Ha & ->).
    rewrite (IH _ _ _ Ha). reflexivity. }
  cbn [append scanString]. destruct st.
  - destruct (Ascii.eqb c "034").
    + inversion H; subst. reflexivity.
    + destruct (Ascii.eqb c "\"); [apply Hstep, H|].
      destruct (N_of_ascii c <? 32)%N; [discriminate | apply Hstep, H].
  - destruct (isEscape c); [apply Hstep, H|].
    destruct (Ascii.eqb c "u"); [apply Hstep, H | discriminate].
  - destruct (isHex c); [apply Hstep, H | discriminate].
Qed.

(** A number that was ended by a byte is ended by that byte whatever
    follows. *)
Lemma scanNumber_append (s : string) : forall st lit c tl,
  scanNumber st s = Ok lit (String c tl) ->
  scanNumber st (s ++ junk) = Ok lit (String c tl ++ junk).
Proof.
  induction s as [|c0 s IH]; intros st lit c tl H; simpl in H.
  - destruct (numberDone st); discriminate.
  - cbn [append scanNumber]. destruct (numberStep st c0).
    + apply mapScan_Ok in H. destruct H as (a & Ha & ->).
      rewrite (IH _ _ _ _ Ha). reflexivity.
    + destruct (numberDone st); inversion H; subst. reflexivity.
Qed.

Lemma scanLiteral_append (expect : string) : forall s tl,
  scanLiteral expect s = Ok tt tl ->
  scanLiteral expect (s ++ junk) = Ok tt (tl ++ junk).
Proof.
  induction expect as [|e expect IH]; intros s tl H; simpl in H.
  - inversion H; subst. reflexivity.
  - destruct s as [|c s]; [discriminate|]. cbn [append scanLiteral].
    destruct (Ascii.eqb c e); [apply IH, H | discriminate].
Qed.

Lemma settled_nonempty (v : value) (c : ascii) (tl : string) : settled v (String c tl).
Proof. destruct v; exact I. Qed.

Lemma scanNumber_settled (st : numberState) (s : string) (f : string -> string)
    (v : value) (tl : string) :
  mapScan (fun l => Number (f l)) (scanNumber st s) = Ok v tl ->
  settled v tl ->
  mapScan (fun l => Number (f l)) (scanNumber st (s ++ junk)) = Ok v (tl ++ junk).
Proof.
  intros H Hs. apply mapScan_Ok in H. destruct H as (a & Ha & ->).
  destruct tl as [|c tl]; [destruct Hs|].
  rewrite (scanNumber_append _ _ Ha). reflexivity.
Qed.

Lemma scanLiteral_mapped (expect s : string) (v v0 : value) (tl : string) :
  mapScan (fun _ : unit => v0) (scanLiteral expect s) = Ok v tl ->
  mapScan (fun _ : unit => v0) (scanLiteral expect (s ++ junk)) = Ok v (tl ++ junk).
Proof.
  intros H. apply mapScan_Ok in H. destruct H as ([] & Ha & ->).
  rewrite (scanLiteral_append _ _ Ha). reflexivity.
Qed.

(** A scan that succeeded succeeds with the same value when bytes are
    added after the input and fuel is added. *)
Lemma scan_append (fuel : nat) :
  (forall fuel' s v tl, fuel <= fuel' -> scanValue fuel s = Ok v tl -> settled v tl ->
                        scanValue fuel' (s ++ junk) = Ok v (tl ++ junk))
  /\ (forall fuel' s vs tl, fuel <= fuel' -> scanElements fuel s = Ok vs tl ->
                            scanElements fuel' (s ++ junk) = Ok vs (tl ++ junk))
  /\ (forall fuel' s ms tl, fuel <= fuel' -> scanMembers fuel s = Ok ms tl ->
                            scanMembers fuel' (s ++ junk) = Ok ms (tl ++ junk)).
Proof.
  induction fuel as [|fuel (IHv & IHe & IHm)].
  - repeat split; intros; discriminate.
  - split; [|split].
    + intros [|fuel'] s v tl Hf H Hs; [lia|]. cbn [scanValue] in H |- *.
      destruct (skipSpace s) as [|c rest] eqn:Ess; [discriminate|].
      rewrite (skipSpace_append _ Ess).
      destruct (Ascii.eqb c "{").
      { destruct (skipSpace rest) as [|c1 r1] eqn:Er.
        - simpl in H. apply mapScan_Ok in H. destruct H as (ms & Hm & ->).
          destruct fuel as [|fuel0]; [discriminate|]. cbn [scanMembers] in Hm.
          rewrite Er in Hm. discriminate.
        - rewrite (skipSpace_append _ Er). simpl in H |- *.
          destruct (Ascii.eqb c1 "}").
          + inversion H; subst. reflexivity.
          + apply mapScan_Ok in H. destruct H as (ms & Hm & ->).
            rewrite (IHm fuel' _ _ _ ltac:(lia) Hm). reflexivity. }
      destruct (Ascii.eqb c "[").
      { destruct (skipSpace rest) as [|c1 r1] eqn:Er.
        - simpl in H. apply mapScan_Ok in H. destruct H as (vs & Hm & ->).
          destruct fuel as [|fuel0]; [discriminate|]. cbn [scanElements] in Hm.
          destruct fuel0 as [|fuel1]; [discriminate|]. cbn [scanValue] in Hm.
          rewrite Er in Hm. discriminate.
        - rewrite (skipSpace_append _ Er). simpl in H |- *.
          destruct (Ascii.eqb c1 "]").
          + inversion H; subst. reflexivity.
          + apply mapScan_Ok in H. destruct H as (vs & Hm & ->).
            rewrite (IHe fuel' _ _ _ ltac:(lia) Hm). reflexivity. }
      destruct (Ascii.eqb c "034").
      { apply mapScan_Ok in H. destruct H as (a & Ha & ->).
        rewrite (scanString_append _ _ Ha). reflexivity. }
      destruct (Ascii.eqb c "-"); [apply scanNumber_settled; assumption|].
      destruct (Ascii.eqb c "0"); [apply scanNumber_settled; assumption|].
      destruct (Ascii.eqb c "t"); [apply scanLiteral_mapped; assumption|].
      destruct (Ascii.eqb c "f"); [apply scanLiteral_mapped; assumption|].
      destruct (Ascii.eqb c "n"); [apply scanLiteral_mapped; assumption|].
      destruct (bytes.isDigit c); [|discriminate].
      apply scanNumber_settled; assumption.
    + intros [|fuel'] s vs tl Hf H; [lia|]. cbn [scanElements] in H |- *.
      destruct (scanValue fuel s) as [v tl0| | |] eqn:Ev; try discriminate.
      destruct (skipSpace tl0) as [|c tl'] eqn:Es; [discriminate|].
      assert (Hset : settled v tl0).
      { destruct tl0; [discriminate Es | apply settled_nonempty]. }
      rewrite (IHv fuel' _ _ _ ltac:(lia) Ev Hset), (skipSpace_append _ Es).
      destruct (Ascii.eqb c ",").
      { apply mapScan_Ok in H. destruct H as (a & Ha & ->).
        rewrite (IHe fuel' _ _ _ ltac:(lia) Ha). reflexivity. }
      destruct (Ascii.eqb c "]"); inversion H; subst. reflexivity.
    + intros [|fuel'] s ms tl Hf H; [lia|]. cbn [scanMembers] in H |- *.
      destruct (skipSpace s) as [|q rest] eqn:Ess; [discriminate|].
      rewrite (skipSpace_append _ Ess).
      destruct (negb (Ascii.eqb q "034")); [discriminate|].
      destruct (scanString InString rest) as [key tl0| | |] eqn:Ek; try discriminate.
      rewrite (scanString_append _ _ Ek).
      destruct (skipSpace tl0) as [|c tl1] eqn:Es0; [discriminate|].
      rewrite (skipSpace_append _ Es0).
      destruct (negb (Ascii.eqb c ":")); [discriminate|].
      destruct (scanValue fuel tl1) as [v tl2| | |] eqn:Ev; try discriminate.
      destruct (skipSpace tl2) as [|c' tl3] eqn:Es2; [discriminate|].
      assert (Hset : settled v tl2).
      { destruct tl2; [discriminate Es2 | apply settled_nonempty]. }
      rewrite (IHv fuel' _ _ _ ltac:(lia) Ev Hset), (skipSpace_append _ Es2).
      destruct (Ascii.eqb c' ",").
      { apply mapScan_Ok in H. destruct H as (a & Ha & ->).
        rewrite (IHm fuel' _ _ _ ltac:(lia) Ha). reflexivity. }
      destruct (Ascii.eqb c' "}"); inversion H; subst. reflexivity.
Qed.

(** What follows an object or an array in a body is not read. *)
Lemma readValue_append (body : string) (v : value) :
  readValue body = inl v -> composite v = true ->
  readValue (body ++ junk) = inl v.
Proof.
  unfold readValue. intros H Hc.
  destruct (skipSpace body) as [|c rest] eqn:Es; [discriminate|].
  rewrite (skipSpace_append _ Es).
  destruct (scanValue (2 * String.length body + 2) body) as [v' tl| | |] eqn:Ev;
    try discriminate.
  inversion H; subst v'.
  assert (Hset : settled v tl) by (destruct v; try discriminate Hc; exact I).
  assert (Hf : (2 * String.length body + 2 <= 2 * String.length (body ++ junk) + 2)%nat)
    by (rewrite length_append; lia).
  rewrite (proj1 (scan_append (2 * String.length body + 2)) _ body v tl Hf Ev Hset).
  reflexivity.
Qed.

End Trailing.

(** ** Runs of the methods *)

Section MoreRuns.

Import errors planetscale.

Variable Request : Type.
Variable databasesAPIPath : string -> string.
Variable localOffset : Z -> Z.
Variable State : Type.
Variable client : forall X : Type, call Request X -> State -> X * State.

(** A second client, for runs that are compared. *)
Variable Request' : Type.
Variable State' : Type.
Variable client' : forall X : Type, call Request' X -> State' -> X * State'.

Local Arguments json.Decode : simpl never.
Local Arguments deployRequestsService.deployRequestAPIPath : simpl never.
Local Arguments deployRequestsService.deployRequestsAPIPath : simpl never.
Local Arguments deployRequestsService.deployRequestActionAPIPath : simpl never.

(** A method that returns a pointer decodes the body into its target. *)
Lemma target_finish A (m : DeployRequestsService.method A) (zero : A)
    (d : json.decoder A) (res : http.Response) :
  target localOffset m = Some (zero, d) ->
  finish (courseOf databasesAPIPath localOffset m) res = decoded zero d res.
Proof.
  destruct m; simpl; intros H; inversion H; reflexivity.
Qed.

Lemma requested_follow A (c : course A) (s : State) :
  requested (traceOf (follow client c s)) = [(verb c, path c)].
Proof.
  destruct (follow_exchange client c s); reflexivity.
Qed.

(** X1. Whatever a method does with a response, it closes the body of
    the response, once, as its last call: the bodies closed in a run are
    the responses received, there is at most one, and a run that got a
    response made three calls of which closing the body is the last.
    This holds when the body does not decode and when [List] panics. *)
Theorem every_body_closed_once A (m : DeployRequestsService.method A) (s : State) :
  let tr := traceOf (run client (invoke Request databasesAPIPath localOffset m) s) in
  closed tr = responses tr
  /\ (List.length (responses tr) <= 1)%nat
  /\ match responses tr with
     | res :: _ => List.last tr (Event (BodyClose res) tt) = Event (BodyClose res) tt
                   /\ List.length tr = 3%nat
     | [] => closed tr = []
     end.
Proof.
  intros tr. subst tr. rewrite run_invoke.
  destruct (follow_exchange client (courseOf databasesAPIPath localOffset m) s);
    simpl; repeat split; lia.
Qed.

(** X2. When the client cannot build the request, nothing is sent: the
    run is the one call of [newRequest], which answered with an error
    [err]; no round trip is made; and the method returns a nil result
    with that very error, under the message
    [error creating http request] for every method but [Create], which
    returns it as it is; in both cases the cause of the error returned
    is the cause of [err]. *)
Theorem unbuilt_request_is_not_sent A (m : DeployRequestsService.method A) (s : State) :
  let r := run client (invoke Request databasesAPIPath localOffset m) s in
  built (traceOf r) = false ->
  exists err method path body,
    traceOf r = [Event (newRequest method path body) (inr err)]
    /\ transportErrors (traceOf r) = []
    /\ roundTrips (traceOf r) = 0%nat
    /\ outcomeOf r =
       Returned (None, Some match m with
                            | DeployRequestsService.Create _ => err
                            | _ => withMessage err "error creating http request"
                            end)
    /\ forall e, outcomeOf r = Returned (None, Some e) -> Cause e = Cause err.
Proof.
  intros r. subst r. rewrite run_invoke. unfold follow, traceOf, outcomeOf.
  destruct (client (newRequest _ _ _) s) as [[req|err] s1]; simpl.
  - destruct (client (Do req) s1) as [[res|err] s2]; simpl; discriminate.
  - intros _. exists err. do 3 eexists. split; [reflexivity|]. repeat split.
    + destruct m; reflexivity.
    + intros e He. inversion He; subst. destruct m; reflexivity.
Qed.

(** X3. [List] panics exactly when it got a response whose body, after
    leading white space, begins with the bytes of [null], whatever
    follows them, and then with the nil dereference of the runtime:
    [Decode] is given a pointer to the pointer to the envelope, reads
    the value [null] and makes the inner pointer nil. For every other
    body of a response [List] returns. *)
Theorem List_panics_iff_null (listReq : ListDeployRequestsRequest.t) (s : State) :
  let l := run client
             (deployRequestsService.List Request databasesAPIPath localOffset listReq) s in
  ((exists msg, outcomeOf l = Panicked msg)
   <-> exists res rest,
         responses (traceOf l) = [res]
         /\ json.skipSpace (http.Body res) = ("null" ++ rest)%string)
  /\ (forall msg, outcomeOf l = Panicked msg -> msg = nilDereference).
Proof.
  intros l. subst l.
  change (deployRequestsService.List Request databasesAPIPath localOffset listReq)
    with (invoke Request databasesAPIPath localOffset
            (DeployRequestsService.List listReq)).
  rewrite run_invoke.
  set (c := courseOf databasesAPIPath localOffset (DeployRequestsService.List listReq)).
  assert (Hfin : forall res,
            (exists msg, finish c res = Panicked msg)
            <-> exists rest, json.skipSpace (http.Body res) = ("null" ++ rest)%string).
  { intros res. rewrite <- readValue_null.
    rewrite <- (Decode_storePtr_nil deployRequestsResponse.zero
                  (deployRequestsResponse.store localOffset)
                  (http.Body res) (Some deployRequestsResponse.zero)).
    unfold c, courseOf, finish, listed.
    destruct (json.Decode _ _ _) as [[resp|]|err].
    - split; [intros [msg H]; discriminate | discriminate].
    - split; [reflexivity | eauto].
    - split; [intros [msg H]; discriminate | discriminate]. }
  assert (Hmsg : forall res msg, finish c res = Panicked msg -> msg = nilDereference).
  { intros res msg. unfold c, courseOf, finish, listed.
    destruct (json.Decode _ _ _) as [[resp|]|err]; intros H; inversion H; reflexivity. }
  destruct (responses (traceOf (follow client c s))) as [|res rest] eqn:E.
  - destruct (follow_unanswered client c s E) as [err Hout]. rewrite Hout. split.
    + split; [intros [msg H]; discriminate | intros (res & tl & H & _); discriminate].
    + intros msg H; discriminate.
  - destruct (follow_answered client c s res) as [Hone Hout].
    { rewrite E. left; reflexivity. }
    rewrite E in Hone. rewrite Hout, Hone. split.
    + rewrite Hfin. split.
      * intros [tl H]. exists res, tl. split; [reflexivity | exact H].
      * intros (res' & tl & Heq & H). inversion Heq; subst. exists tl. exact H.
    + apply Hmsg.
Qed.

(** X4. A method that returns a pointer and is answered with a body
    that is [null], or an object none of whose members matches a field
    of the record, returns a pointer to the zero record and no error:
    an answer that says nothing is not told from a record of zeros. *)
Theorem blank_body_gives_zero_record A (m : DeployRequestsService.method A)
    (zero : A) (d : json.decoder A) (s : State) (res : http.Response) :
  let r := run client (invoke Request databasesAPIPath localOffset m) s in
  target localOffset m = Some (zero, d) ->
  In res (responses (traceOf r)) ->
  blank (recordFields localOffset m) (http.Body res) = true ->
  outcomeOf r = Returned (Some zero, None).
Proof.
  intros r Ht Hin Hb. subst r. rewrite run_invoke in *.
  apply follow_answered in Hin. destruct Hin as [_ ->].
  destruct m; simpl in Ht; inversion Ht; subst;
    cbn [courseOf finish recordFields] in *; unfold decoded;
    unfold DeployRequest.store, DeployRequestReview.store;
    rewrite Decode_blank by exact Hb; reflexivity.
Qed.

(** X5. When the one [data] member of the body is an array, [List]
    returns without an error exactly the slice whose entries are, in the
    order of the array, what each element decodes to on its own through
    a fresh pointer: the i-th entry comes from the i-th element, and is
    nil exactly where the element is [null]; the slice has the length of
    the array; and when some element does not decode [List] returns a
    nil slice with an error. No element is dropped, added or moved. *)
Theorem List_keeps_every_element (listReq : ListDeployRequestsRequest.t)
    (s : State) (res : http.Response) (elems : list json.value) :
  let l := run client
             (deployRequestsService.List Request databasesAPIPath localOffset listReq) s in
  In res (responses (traceOf l)) ->
  dataOf (http.Body res) = Some elems ->
  (forall entries,
     outcomeOf l = Returned (Some entries, None)
     <-> Forall2 (entryOf localOffset) elems entries)
  /\ (forall entries,
        outcomeOf l = Returned (Some entries, None) ->
        List.length entries = List.length elems
        /\ Forall2 nilWhereNull elems entries)
  /\ ((exists err, outcomeOf l = Returned (None, Some err))
      \/ (exists entries, outcomeOf l = Returned (Some entries, None))).
Proof.
  intros l Hin Hdata. subst l.
  change (deployRequestsService.List Request databasesAPIPath localOffset listReq)
    with (invoke Request databasesAPIPath localOffset
            (DeployRequestsService.List listReq)) in *.
  rewrite run_invoke in *.
  apply follow_answered in Hin. destruct Hin as [_ ->].
  cbn [courseOf finish]. unfold listed, json.Decode.
  destruct (storeStruct_dataOf DeployRequest.zero (DeployRequest.store localOffset)
              deployRequestsResponse.DeployRequests
              deployRequestsResponse.set_DeployRequests
              "[]*planetscale.DeployRequest"
              "planetscale.deployRequestsResponse" (http.Body res)
              deployRequestsResponse.zero Hdata eq_refl) as (members & -> & Hstore).
  cbn [json.storePtr]. unfold deployRequestsResponse.store, deployRequestsResponse.fields.
  rewrite Hstore.
  assert (Heach : forall entries,
            json.storeElements None
              (json.storePtr DeployRequest.zero (DeployRequest.store localOffset))
              elems [] None = json.Done entries None
            <-> Forall2 (entryOf localOffset) elems entries).
  { intros entries. apply storeElements_each, storePtr_keeps, DeployRequest_store_keeps. }
  destruct (json.storeElements None
              (json.storePtr DeployRequest.zero (DeployRequest.store localOffset))
              elems [] None) as [entries [e|]|e] eqn:El; cbn [json.bindResult].
  - split; [|split].
    + intros entries'. split; [discriminate|].
      intros H. apply Heach in H. discriminate H.
    + intros entries' H. discriminate H.
    + left. eexists. reflexivity.
  - split; [|split].
    + intros entries'. rewrite <- Heach. split; intros H; inversion H; reflexivity.
    + intros entries' H. inversion H; subst entries'.
      assert (HF : Forall2 nilWhereNull elems entries)
        by (eapply storeElements_pointers; exact El).
      split; [symmetry; eapply Forall2_length; exact HF | exact HF].
    + right. exists entries. reflexivity.
  - split; [|split].
    + intros entries'. split; [discriminate|].
      intros H. apply Heach in H. discriminate H.
    + intros entries' H. discriminate H.
    + left. eexists. reflexivity.
Qed.

(** X7. A method that returns a deploy request and is answered with a
    body that says only the number [n], in the digits with which the
    paths print a number, returns the zero record with [Number] set to
    [n] when [n] is in the range of [uint64], and otherwise no record
    and the type error of the decoder. The number is not compared with
    the number that was asked for. *)
Theorem number_is_read_back (m : DeployRequestsService.method DeployRequest.t)
    (s : State) (res : http.Response) (n : N) :
  let r := run client (invoke Request databasesAPIPath localOffset m) s in
  target localOffset m = Some (DeployRequest.zero, DeployRequest.store localOffset) ->
  In res (responses (traceOf r)) ->
  http.Body res = numbered n ->
  outcomeOf r =
  if (n <? 2 ^ 64)%N
  then Returned (Some (DeployRequest.set_Number n DeployRequest.zero), None)
  else Returned (None, Some (UnmarshalTypeError
                               ("number " ++ fmt.fmtInteger n) "uint64")).
Proof.
  intros r Ht Hin Hb. subst r. rewrite run_invoke in *.
  apply follow_answered in Hin. destruct Hin as [_ ->].
  rewrite (target_finish m res Ht). unfold decoded.
  rewrite Hb, Decode_numbered. destruct (n <? 2 ^ 64)%N; reflexivity.
Qed.

(** X8. In the deploy request that a method returns, every field whose
    name no member of the response object has, in any spelling of upper
    and lower case, has its zero value: the empty string, zero, [false],
    the zero time, and a nil [ClosedAt]. *)
Theorem absent_members_stay_zero (m : DeployRequestsService.method DeployRequest.t)
    (s : State) (res : http.Response) (members : list (string * json.value))
    (dr : DeployRequest.t) :
  let r := run client (invoke Request databasesAPIPath localOffset m) s in
  target localOffset m = Some (DeployRequest.zero, DeployRequest.store localOffset) ->
  In res (responses (traceOf r)) ->
  json.readValue (http.Body res) = inl (json.Object members) ->
  outcomeOf r = Returned (Some dr, None) ->
  keptWhereAbsent members dr DeployRequest.zero.
Proof.
  intros r Ht Hin Hb Hout. subst r. rewrite run_invoke in *.
  apply follow_answered in Hin. destruct Hin as [_ Hfin].
  rewrite Hfin, (target_finish m res Ht) in Hout. unfold decoded, json.Decode in Hout.
  rewrite Hb in Hout. unfold DeployRequest.store in Hout.
  cbn [json.storeStruct] in Hout.
  destruct (json.storeMembers (DeployRequest.fields localOffset) members
              DeployRequest.zero None) as [t' [e|]|e] eqn:Es;
    try discriminate.
  inversion Hout; subst. eapply DeployRequest_frame. exact Es.
Qed.

(** X9. The verb and the path of a request name the method: two
    methods called for the same organization and database that hand the
    same verb and path to the client are the same method, for the same
    number. [CreateReview], though it uses the verb of [Get], is told
    from [Get] by its path. *)
Theorem request_line_names_the_method A B
    (m : DeployRequestsService.method A) (m' : DeployRequestsService.method B)
    (s s' : State) :
  databaseOf m = databaseOf m' ->
  requested (traceOf (run client (invoke Request databasesAPIPath localOffset m) s)) =
  requested (traceOf (run client (invoke Request databasesAPIPath localOffset m') s')) ->
  nameOf m = nameOf m' /\ numberOf m = numberOf m'.
Proof.
  rewrite !run_invoke, !requested_follow. intros Hdb Hreq.
  inversion Hreq as [[Hverb Hpath]]. clear Hreq.
  destruct m as [r|r|r|r|r|r|r], m' as [r'|r'|r'|r'|r'|r'|r'];
    cbn [courseOf verb path] in Hverb, Hpath; try discriminate Hverb;
    destruct r, r'; cbn in Hdb; inversion Hdb; subst; cbn in Hpath; cbn;
    first
      [ split; reflexivity
      | exfalso; eapply collection_is_no_resource; first [exact Hpath | symmetry; exact Hpath]
      | exfalso; eapply collection_is_no_action; first [exact Hpath | symmetry; exact Hpath]
      | exfalso; eapply resource_is_no_action; first [exact Hpath | symmetry; exact Hpath]
      | apply deployRequestAPIPath_inj in Hpath; subst; split; reflexivity
      | apply deployRequestActionAPIPath_inj in Hpath; destruct Hpath as [-> Hv];
        first [discriminate Hv | split; reflexivity] ].
Qed.

(** A method looks at a response only through the first value of its
    body. *)
Lemma finish_reads_body A (m : DeployRequestsService.method A)
    (res res' : http.Response) :
  json.readValue (http.Body res) = json.readValue (http.Body res') ->
  finish (courseOf databasesAPIPath localOffset m) res =
  finish (courseOf databasesAPIPath localOffset m) res'.
Proof.
  intros H. destruct m; cbn [courseOf finish]; unfold decoded, listed, json.Decode;
    rewrite H; reflexivity.
Qed.

(** X10. A method reads one JSON value from the body and no more: when
    the body begins with an object or an array, whatever bytes follow
    it, the method returns what it returns, from any client, for a body
    that ends with that value. Bytes after the record are no decoding
    failure. *)
Theorem trailing_bytes_are_ignored A (m : DeployRequestsService.method A)
    (s : State) (s' : State') (res res' : http.Response) (junk : string)
    (v : json.value) :
  let r := run client (invoke Request databasesAPIPath localOffset m) s in
  let r' := run client' (invoke Request' databasesAPIPath localOffset m) s' in
  In res (responses (traceOf r)) ->
  In res' (responses (traceOf r')) ->
  http.Body res = (http.Body res' ++ junk)%string ->
  json.readValue (http.Body res') = inl v ->
  json.composite v = true ->
  outcomeOf r = outcomeOf r'.
Proof.
  intros r r' Hin Hin' Hb Hv Hc. subst r r'.
  rewrite run_invoke in Hin, Hin'. rewrite !run_invoke.
  apply follow_answered in Hin, Hin'.
  destruct Hin as [_ ->], Hin' as [_ ->].
  apply finish_reads_body. rewrite Hb, Hv. apply readValue_append; assumption.
Qed.

(** X13. A method looks at nothing of a response but its body: two runs
    of a method, against any two clients, that got responses with the
    same body have the same outcome, whatever the status of the
    responses. *)
Theorem outcome_depends_on_body_only A (m : DeployRequestsService.method A)
    (s : State) (s' : State') (res res' : http.Response) :
  let r := run client (invoke Request databasesAPIPath localOffset m) s in
  let r' := run client' (invoke Request' databasesAPIPath localOffset m) s' in
  In res (responses (traceOf r)) ->
  In res' (responses (traceOf r')) ->
  http.Body res = http.Body res' ->
  outcomeOf r = outcomeOf r'.
Proof.
  intros r r' Hin Hin' Hb. subst r r'.
  rewrite run_invoke in Hin, Hin'. rewrite !run_invoke.
  apply follow_answered in Hin, Hin'.
  destruct Hin as [_ ->], Hin' as [_ ->].
  apply finish_reads_body. rewrite Hb. reflexivity.
Qed.

(** X12. What each method hands to the client as the body of its
    request, as the members of the JSON object: [Get] and [List] send no
    body; [Deploy] and [CancelDeploy] send an object with no member,
    every field of their request being a path parameter; [Create] sends
    [branch], [into_branch] and [notes]; [Close] sends [state] set to
    [closed]; [CreateReview] sends [body] and [state]. *)
Theorem bodies_on_the_wire A (m : DeployRequestsService.method A) (s : State) :
  map (option_map json.Marshal)
    (bodies (traceOf (run client (invoke Request databasesAPIPath localOffset m) s))) =
  [ match m with
    | DeployRequestsService.List _ => None
    | DeployRequestsService.Get _ => None
    | DeployRequestsService.Deploy _ => Some []
    | DeployRequestsService.CancelDeploy _ => Some []
    | DeployRequestsService.Create r =>
        Some [("branch", json.VString (CreateDeployRequestRequest.Branch r));
              ("into_branch", json.VString (CreateDeployRequestRequest.IntoBranch r));
              ("notes", json.VString (CreateDeployRequestRequest.Notes r))]
    | DeployRequestsService.Close _ => Some [("state", json.VString "closed")]
    | DeployRequestsService.CreateReview r =>
        Some [("body", json.VString (ReviewDeployRequestRequest.Body r));
              ("state", json.VString (ReviewDeployRequestRequest.State r))]
    end ].
Proof.
  rewrite run_invoke.
  destruct (follow_exchange client (courseOf databasesAPIPath localOffset m) s);
    destruct m; reflexivity.
Qed.

(** X11. A response whose body is empty, or white space only, makes
    every method return a nil result and the error [io.EOF]. *)
Theorem empty_body_is_EOF A (m : DeployRequestsService.method A)
    (s : State) (res : http.Response) :
  let r := run client (invoke Request databasesAPIPath localOffset m) s in
  In res (responses (traceOf r)) ->
  json.skipSpace (http.Body res) = EmptyString ->
  outcomeOf r = Returned (None, Some EOF).
Proof.
  intros r Hin Hb. subst r. rewrite run_invoke in *.
  apply follow_answered in Hin. destruct Hin as [_ ->].
  destruct m; cbn [courseOf finish]; unfold decoded, listed, json.Decode, json.readValue;
    rewrite Hb; reflexivity.
Qed.

End MoreRuns.

(** ** Runs against the client of the examples, continued *)

Section MoreExamples.

Import errors planetscale planetscale.scripted.

Lemma unbuilt_request_is_not_sent_witness :
  let r := run (scripted.client (Some refused) (inr refused))
             (invoke scripted.Request scripted.databasesAPIPath scripted.localOffset
                (DeployRequestsService.Get getReq)) tt in
  built (traceOf r) = false
  /\ exists err method path body,
       traceOf r = [Event (newRequest method path body) (inr err)]
       /\ transportErrors (traceOf r) = []
       /\ roundTrips (traceOf r) = 0%nat
       /\ outcomeOf r =
          Returned (None, Some (withMessage err "error creating http request"))
       /\ forall e, outcomeOf r = Returned (None, Some e) -> Cause e = Cause err.
Proof.
  split.
  - reflexivity.
  - apply (unbuilt_request_is_not_sent
             scripted.databasesAPIPath scripted.localOffset
             (scripted.client (Some refused) (inr refused))
             (DeployRequestsService.Get getReq) tt).
    reflexivity.
Defined.

Lemma blank_body_gives_zero_record_witness :
  let body := json.text "{'unknown':[1,{'x':null}],'other':true}" in
  let r := run (scripted.serving body)
             (invoke scripted.Request scripted.databasesAPIPath scripted.localOffset
                (DeployRequestsService.Get getReq)) tt in
  target scripted.localOffset (DeployRequestsService.Get getReq)
  = Some (DeployRequest.zero, DeployRequest.store scripted.localOffset)
  /\ In (http.mkResponse 200 body) (responses (traceOf r))
  /\ blank (recordFields scripted.localOffset (DeployRequestsService.Get getReq))
       (http.Body (http.mkResponse 200 body)) = true
  /\ outcomeOf r = Returned (Some DeployRequest.zero, None).
Proof.
  intros body r.
  assert (Ht : target scripted.localOffset (DeployRequestsService.Get getReq)
               = Some (DeployRequest.zero, DeployRequest.store scripted.localOffset))
    by reflexivity.
  assert (Hin : In (http.mkResponse 200 body) (responses (traceOf r)))
    by (left; reflexivity).
  assert (Hb : blank (recordFields scripted.localOffset (DeployRequestsService.Get getReq))
                 (http.Body (http.mkResponse 200 body)) = true)
    by (vm_compute; reflexivity).
  split; [exact Ht|]. split; [exact Hin|]. split; [exact Hb|].
  exact (blank_body_gives_zero_record
           scripted.databasesAPIPath scripted.localOffset (scripted.serving body)
           (DeployRequestsService.Get getReq) tt (http.mkResponse 200 body)
           Ht Hin Hb).
Defined.

Lemma List_keeps_every_element_witness :
  let body := json.text "{'data':[null,{'id':'a'},{'id':'b'}]}" in
  let elems := [json.Null; json.Object [("id", json.Str "a")];
                json.Object [("id", json.Str "b")]] in
  let l := run (scripted.serving body)
             (deployRequestsService.List scripted.Request scripted.databasesAPIPath
                scripted.localOffset listReq) tt in
  In (http.mkResponse 200 body) (responses (traceOf l))
  /\ dataOf (http.Body (http.mkResponse 200 body)) = Some elems
  /\ (forall entries,
        outcomeOf l = Returned (Some entries, None)
        <-> Forall2 (entryOf scripted.localOffset) elems entries)
  /\ (forall entries,
        outcomeOf l = Returned (Some entries, None) ->
        List.length entries = List.length elems
        /\ Forall2 nilWhereNull elems entries)
  /\ ((exists err, outcomeOf l = Returned (None, Some err))
      \/ (exists entries, outcomeOf l = Returned (Some entries, None))).
Proof.
  intros body elems l.
  assert (Hin : In (http.mkResponse 200 body) (responses (traceOf l)))
    by (left; reflexivity).
  assert (Hd : dataOf (http.Body (http.mkResponse 200 body)) = Some elems)
    by (vm_compute; reflexivity).
  split; [exact Hin|]. split; [exact Hd|].
  exact (List_keeps_every_element
           scripted.databasesAPIPath scripted.localOffset (scripted.serving body)
           listReq tt (http.mkResponse 200 body) Hin Hd).
Defined.

(** The list of the witness, as [List] returns it: a nil entry, then
    the deploy requests [a] and [b] in the order of the array. *)
Lemma List_returns_entries_in_order :
  outcomeOf
    (run (scripted.serving (json.text "{'data':[null,{'id':'a'},{'id':'b'}]}"))
       (deployRequestsService.List scripted.Request scripted.databasesAPIPath
          scripted.localOffset listReq) tt)
  = Returned (Some [None;
                    Some (DeployRequest.set_ID "a" DeployRequest.zero);
                    Some (DeployRequest.set_ID "b" DeployRequest.zero)], None).
Proof. vm_compute. reflexivity. Qed.

(** A body that begins with [null] and goes on: [List] panics, and
    [Get] returns the zero record as for [null]. *)
Lemma List_panics_on_null_and_more :
  outcomeOf
    (run (scripted.serving "nullx")
       (deployRequestsService.List scripted.Request scripted.databasesAPIPath
          scripted.localOffset listReq) tt)
  = Panicked nilDereference.
Proof. vm_compute. reflexivity. Qed.

Lemma Get_reads_null_and_more :
  outcomeOf
    (run (scripted.serving "null]")
       (deployRequestsService.Get scripted.Request scripted.databasesAPIPath
          scripted.localOffset getReq) tt)
  = Returned (Some DeployRequest.zero, None).
Proof. vm_compute. reflexivity. Qed.

Lemma number_is_read_back_witness :
  let r := run (scripted.serving (numbered 42))
             (invoke scripted.Request scripted.databasesAPIPath scripted.localOffset
                (DeployRequestsService.Get getReq)) tt in
  target scripted.localOffset (DeployRequestsService.Get getReq)
  = Some (DeployRequest.zero, DeployRequest.store scripted.localOffset)
  /\ In (http.mkResponse 200 (numbered 42)) (responses (traceOf r))
  /\ http.Body (http.mkResponse 200 (numbered 42)) = numbered 42
  /\ outcomeOf r =
     if (42 <? 2 ^ 64)%N
     then Returned (Some (DeployRequest.set_Number 42 DeployRequest.zero), None)
     else Returned (None, Some (UnmarshalTypeError
                                  ("number " ++ fmt.fmtInteger 42) "uint64")).
Proof.
  intros r.
  assert (Ht : target scripted.localOffset (DeployRequestsService.Get getReq)
               = Some (DeployRequest.zero, DeployRequest.store scripted.localOffset))
    by reflexivity.
  assert (Hin : In (http.mkResponse 200 (numbered 42)) (responses (traceOf r)))
    by (left; reflexivity).
  split; [exact Ht|]. split; [exact Hin|]. split; [reflexivity|].
  exact (number_is_read_back
           scripted.databasesAPIPath (scripted.serving (numbered 42))
           (DeployRequestsService.Get getReq) tt (http.mkResponse 200 (numbered 42))
           Ht Hin eq_refl).
Defined.

Lemma absent_members_stay_zero_witness :
  let body := json.text "{'id':'x'}" in
  let members := [("id", json.Str "x")] in
  let dr := DeployRequest.set_ID "x" DeployRequest.zero in
  let r := run (scripted.serving body)
             (invoke scripted.Request scripted.databasesAPIPath scripted.localOffset
                (DeployRequestsService.Get getReq)) tt in
  target scripted.localOffset (DeployRequestsService.Get getReq)
  = Some (DeployRequest.zero, DeployRequest.store scripted.localOffset)
  /\ In (http.mkResponse 200 body) (responses (traceOf r))
  /\ json.readValue (http.Body (http.mkResponse 200 body)) = inl (json.Object members)
  /\ outcomeOf r = Returned (Some dr, None)
  /\ keptWhereAbsent members dr DeployRequest.zero.
Proof.
  intros body members dr r.
  assert (Ht : target scripted.localOffset (DeployRequestsService.Get getReq)
               = Some (DeployRequest.zero, DeployRequest.store scripted.localOffset))
    by reflexivity.
  assert (Hin : In (http.mkResponse 200 body) (responses (traceOf r)))
    by (left; reflexivity).
  assert (Hv : json.readValue (http.Body (http.mkResponse 200 body))
               = inl (json.Object members))
    by (vm_compute; reflexivity).
  assert (Hout : outcomeOf r = Returned (Some dr, None))
    by (vm_compute; reflexivity).
  split; [exact Ht|]. split; [exact Hin|]. split; [exact Hv|]. split; [exact Hout|].
  exact (absent_members_stay_zero
           scripted.databasesAPIPath (scripted.serving body)
           (DeployRequestsService.Get getReq) tt (http.mkResponse 200 body)
           Ht Hin Hv Hout).
Defined.

Lemma request_line_names_the_method_witness :
  let m := DeployRequestsService.Get getReq in
  let m' := DeployRequestsService.Get (GetDeployRequestRequest.mk "org" "db" 1) in
  databaseOf m = databaseOf m'
  /\ requested
       (traceOf (run (scripted.serving "{}")
                   (invoke scripted.Request scripted.databasesAPIPath
                      scripted.localOffset m) tt))
     = requested
         (traceOf (run (scripted.serving "{}")
                     (invoke scripted.Request scripted.databasesAPIPath
                        scripted.localOffset m') tt))
  /\ nameOf m = nameOf m' /\ numberOf m = numberOf m'.
Proof.
  intros m m'. split; [reflexivity|]. split; [reflexivity|].
  exact (request_line_names_the_method
           scripted.databasesAPIPath scripted.localOffset (scripted.serving "{}")
           m m' tt tt eq_refl eq_refl).
Defined.

Lemma trailing_bytes_are_ignored_witness :
  let body := json.text "{'id':'x'}" in
  let junk := "<html>" in
  let long := http.mkResponse 200 (body ++ junk) in
  let short := http.mkResponse 200 body in
  let r := run (scripted.serving (body ++ junk))
             (invoke scripted.Request scripted.databasesAPIPath scripted.localOffset
                (DeployRequestsService.Get getReq)) tt in
  let r' := run (scripted.serving body)
              (invoke scripted.Request scripted.databasesAPIPath scripted.localOffset
                 (DeployRequestsService.Get getReq)) tt in
  In long (responses (traceOf r))
  /\ In short (responses (traceOf r'))
  /\ http.Body long = (http.Body short ++ junk)%string
  /\ json.readValue (http.Body short) = inl (json.Object [("id", json.Str "x")])
  /\ json.composite (json.Object [("id", json.Str "x")]) = true
  /\ outcomeOf r = outcomeOf r'.
Proof.
  intros body junk long short r r'.
  assert (Hin : In long (responses (traceOf r))) by (left; reflexivity).
  assert (Hin' : In short (responses (traceOf r'))) by (left; reflexivity).
  assert (Hv : json.readValue (http.Body short) = inl (json.Object [("id", json.Str "x")]))
    by (vm_compute; reflexivity).
  split; [exact Hin|]. split; [exact Hin'|]. split; [reflexivity|].
  split; [exact Hv|]. split; [reflexivity|].
  exact (trailing_bytes_are_ignored
           scripted.databasesAPIPath scripted.localOffset
           (scripted.serving (body ++ junk)) (scripted.serving body)
           (DeployRequestsService.Get getReq) tt tt long short junk
           Hin Hin' eq_refl Hv eq_refl).
Defined.

Lemma outcome_depends_on_body_only_witness :
  let failed := http.mkResponse 500 "{}" in
  let ok := http.mkResponse 200 "{}" in
  let r := run (scripted.client None (inl failed))
             (invoke scripted.Request scripted.databasesAPIPath scripted.localOffset
                (DeployRequestsService.Get getReq)) tt in
  let r' := run (scripted.client None (inl ok))
              (invoke scripted.Request scripted.databasesAPIPath scripted.localOffset
                 (DeployRequestsService.Get getReq)) tt in
  In failed (responses (traceOf r))
  /\ In ok (responses (traceOf r'))
  /\ http.Body failed = http.Body ok
  /\ outcomeOf r = outcomeOf r'.
Proof.
  intros failed ok r r'.
  assert (Hin : In failed (responses (traceOf r))) by (left; reflexivity).
  assert (Hin' : In ok (responses (traceOf r'))) by (left; reflexivity).
  split; [exact Hin|]. split; [exact Hin'|]. split; [reflexivity|].
  exact (outcome_depends_on_body_only
           scripted.databasesAPIPath scripted.localOffset
           (scripted.client None (inl failed)) (scripted.client None (inl ok))
           (DeployRequestsService.Get getReq) tt tt failed ok
           Hin Hin' eq_refl).
Defined.

Lemma empty_body_is_EOF_witness :
  let res := http.mkResponse 204 " " in
  let r := run (scripted.client None (inl res))
             (invoke scripted.Request scripted.databasesAPIPath scripted.localOffset
                (DeployRequestsService.List listReq)) tt in
  In res (responses (traceOf r))
  /\ json.skipSpace (http.Body res) = EmptyString
  /\ outcomeOf r = Returned (None, Some EOF).
Proof.
  intros res r.
  assert (Hin : In res (responses (traceOf r))) by (left; reflexivity).
  split; [exact Hin|]. split; [reflexivity|].
  exact (empty_body_is_EOF
           scripted.databasesAPIPath scripted.localOffset
           (scripted.client None (inl res))
           (DeployRequestsService.List listReq) tt res Hin eq_refl).
Defined.

End MoreExamples.
